(** * BenchPress: the run record store, the evaluation and re-scoring
      workflows and the leaderboard aggregation of [run.py] and
      [scripts/dashboard.py], as a shallow embedding.

    Conventions of the embedding.
    - A Python float is an IEEE 754 binary64 number, held by its exact
      value, a rational ([Q]).  Module [F64] has the arithmetic of the
      floats, every operation rounding to the nearest binary64 value,
      and [round(x, n)]; module [Binary64] has the aggregation of
      [cmd_compare] and [compute_stats] in that arithmetic.  The
      aggregation is also given in exact arithmetic, without rounding
      errors, for the counts, the order and the bounds that do not
      depend on them.
    - A Python [dict] is an insertion-ordered association list with
      unique keys ([pydict]).
    - A Run Entry is a record; an optional field holds [None] when the
      key is missing from the stored object or maps to JSON [null].
    - [datetime.now()] reads a counter that every call advances.
    - [print], [time.sleep] and the dashboard regeneration leave the
      result store untouched and are left out. *)

From Stdlib Require Import List String ZArith QArith Qround Qabs Bool Lia Lqa.
From Stdlib Require Import Permutation Sorted.
Import ListNotations.

Local Open Scope string_scope.
Local Open Scope list_scope.
Local Open Scope Z_scope.
Local Open Scope Q_scope.

(** ** Numbers *)

(** Nearest integer, ties going to the even neighbour. *)
Definition round_half_even (x : Q) : Z :=
  let f := Qfloor x in
  match Qcompare (x - inject_Z f) (1 # 2) with
  | Lt => f
  | Gt => (f + 1)%Z
  | Eq => if Z.even f then f else (f + 1)%Z
  end.

(** The multiple of [10 ^ -ndigits] nearest to [x], ties going to the
    even multiple: the decimal that [round(x, ndigits)] aims at. *)
Definition py_round (x : Q) (ndigits : nat) : Q :=
  let scale := inject_Z (10 ^ Z.of_nat ndigits) in
  inject_Z (round_half_even (x * scale)) / scale.

(** [sum(xs)] over ints, and over rationals in exact arithmetic. *)
Definition sumQ (xs : list Q) : Q := fold_left Qplus xs 0.
Definition sumZ (xs : list Z) : Z := fold_left Z.add xs 0%Z.

(** [len(xs)] as a denominator. *)
Definition lenQ {A : Type} (xs : list A) : Q := inject_Z (Z.of_nat (List.length xs)).

(** [sum(xs) / len(xs) if xs else 0], in exact arithmetic. *)
Definition meanQ (xs : list Q) : Q :=
  match xs with
  | [] => 0
  | _ => sumQ xs / lenQ xs
  end.

Definition meanZ (xs : list Z) : Q :=
  match xs with
  | [] => 0
  | _ => inject_Z (sumZ xs) / lenQ xs
  end.

(** ** Binary floating point *)

Module F64.

(** The [e] with [2 ^ e <= x < 2 ^ (e + 1)], for a positive [x]. *)
Definition ilog2 (x : Q) : Z :=
  let k := (Z.log2 (Qnum x) - Z.log2 (Zpos (Qden x)))%Z in
  if Qle_bool (Qpower 2 k) x then k else (k - 1)%Z.

(** The binary64 value nearest to [x], ties going to the even
    significand: 53 bits of precision, the exponent of the last bit not
    below -1074.  The result is in lowest terms.  Overflow is left out:
    a value of the size of [2 ^ 1024] does not come out of a result
    file. *)
Definition fl (x : Q) : Q :=
  if Qeq_bool x 0 then 0
  else
    let e := ilog2 (Qabs x) in
    let ulp := Qpower 2 (Z.max (e - 52) (-1074)) in
    Qred (inject_Z (round_half_even (x / ulp)) * ulp).

(** [a + b], [a - b], [a * b] and [a / b] on floats; the divisor is not
    zero. *)
Definition add (a b : Q) : Q := fl (fl a + fl b).
Definition sub (a b : Q) : Q := fl (fl a - fl b).
Definition mul (a b : Q) : Q := fl (fl a * fl b).
Definition div (a b : Q) : Q := fl (fl a / fl b).

(** [round(x, ndigits)] on a float: the float nearest to the decimal
    that is nearest to the exact value of [x], ties going to the even
    decimal. *)
Definition round (x : Q) (ndigits : nat) : Q := fl (py_round (fl x) ndigits).

(** [sum(xs)] over floats by additions from left to right, as the
    interpreter computes it before version 3.12; from 3.12 on it
    compensates the rounding errors.  Where the source sums floats the
    embedding takes the sum as a parameter. *)
Definition sum_left (xs : list Q) : Q := fold_left add xs 0.

(** [sum(xs) / len(xs) if xs else 0] over ints: the quotient of two
    ints is the float nearest to it. *)
Definition mean_int (xs : list Z) : Q :=
  match xs with
  | [] => 0
  | _ => fl (inject_Z (sumZ xs) / lenQ xs)
  end.

(** [sum(xs) / len(xs) if xs else 0] over floats. *)
Definition mean (fsum : list Q -> Q) (xs : list Q) : Q :=
  match xs with
  | [] => 0
  | _ => div (fsum xs) (lenQ xs)
  end.

End F64.

(** ** Insertion-ordered dictionaries *)

Definition pydict (V : Type) : Type := list (string * V).

Fixpoint dict_get {V : Type} (d : pydict V) (k : string) : option V :=
  match d with
  | [] => None
  | (k', v) :: rest => if String.eqb k k' then Some v else dict_get rest k
  end.

(** [d[k] = v]: an existing key keeps its position, a new key goes last. *)
Fixpoint dict_set {V : Type} (d : pydict V) (k : string) (v : V) : pydict V :=
  match d with
  | [] => [(k, v)]
  | (k', v') :: rest =>
      if String.eqb k k' then (k', v) :: rest else (k', v') :: dict_set rest k v
  end.

Definition dict_keys {V : Type} (d : pydict V) : list string := map fst d.

Definition dict_mem {V : Type} (d : pydict V) (k : string) : bool :=
  match dict_get d k with Some _ => true | None => false end.

(** [x in xs] for a list or set of strings. *)
Definition str_in (x : string) (xs : list string) : bool :=
  existsb (String.eqb x) xs.

(** ** Data model *)

Inductive auto_score_value : Type :=
  | ScoreInt (n : Z)
  | ScoreWords (ws : list string).

Record auto_checks_t : Type := {
  flags : list string;
  auto_scores : pydict auto_score_value;
  passed : bool
}.

Record run_entry : Type := {
  timestamp : nat;
  api_model : option string;
  content : string;
  latency_s : option Q;
  input_tokens : option Z;
  output_tokens : option Z;
  auto_checks : option auto_checks_t;
  judge_score : option Z;
  judge_rationale : option string;
  judge_model : option string;
  deepeval_scores : option (pydict (option Q));
  deepeval_avg : option Q;
  error : option string
}.

Record prompt : Type := {
  id : string;
  category : string;
  subcategory : string;
  difficulty : string;
  check_type : string;
  prompt_text : string;
  ideal : string;
  criteria : list string
}.

Record model_data : Type := {
  model_name : string;
  created : nat;
  updated : option nat;
  runs : pydict (list run_entry)
}.

(** The [results/] directory: one persisted result set per model name. *)
Definition results_dir : Type := pydict model_data.

(** ** Data layer of [run.py] *)

(** [load_model_results]: the persisted set, or a fresh empty one. *)
Definition load_model_results (disk : results_dir) (now : nat) (name : string)
  : model_data :=
  match dict_get disk name with
  | Some data => data
  | None => {| model_name := name; created := now; updated := None; runs := [] |}
  end.

(** [save_model_results]: stamps [updated] and writes the whole set. *)
Definition save_model_results (disk : results_dir) (now : nat) (name : string)
    (data : model_data) : results_dir * model_data :=
  let data' := {| model_name := model_name data; created := created data;
                  updated := Some now; runs := runs data |} in
  (dict_set disk name data', data').

(** [latest_run]: the last entry of the history, [None] standing for the
    empty dict the source returns when there is none. *)
Definition latest_run (data : model_data) (pid : string) : option run_entry :=
  match dict_get (runs data) pid with
  | Some rs => last (map Some rs) None
  | None => None
  end.

(** The history of a prompt id, empty when the id has none. *)
Definition history (data : model_data) (pid : string) : list run_entry :=
  match dict_get (runs data) pid with
  | Some rs => rs
  | None => []
  end.

(** The append of [cmd_eval], [cmd_rejudge] and [cmd_deepeval]:
    [if pid not in runs: runs[pid] = []] then [runs[pid].append(entry)]. *)
Definition append_run (data : model_data) (pid : string) (entry : run_entry)
  : model_data :=
  {| model_name := model_name data; created := created data;
     updated := updated data;
     runs := dict_set (runs data) pid (history data pid ++ [entry]) |}.

(** Python truthiness of an optional string and of an optional list. *)
Definition truthy_str (s : option string) : bool :=
  match s with
  | Some s' => negb (String.eqb s' EmptyString)
  | None => false
  end.

Definition truthy_list {A : Type} (l : option (list A)) : bool :=
  match l with
  | Some (_ :: _) => true
  | _ => false
  end.

Definition opt_list {A : Type} (l : option (list A)) : list A :=
  match l with Some xs => xs | None => [] end.

(** [run.get("auto_checks", {}).get("flags")] as a condition. *)
Definition has_flags (run : run_entry) : bool :=
  match auto_checks run with
  | Some ac => match flags ac with [] => false | _ => true end
  | None => false
  end.

(** [str.lower()], on the ASCII letters. *)
Definition lower_ascii (c : Ascii.ascii) : Ascii.ascii :=
  let n := Ascii.nat_of_ascii c in
  if andb (Nat.leb 65 n) (Nat.leb n 90) then Ascii.ascii_of_nat (n + 32) else c.

Fixpoint lower (s : string) : string :=
  match s with
  | EmptyString => EmptyString
  | String c rest => String (lower_ascii c) (lower rest)
  end.

(** [filter_prompts]: an argument that is [None] or empty filters nothing. *)
Definition filter_prompts (prompts : list prompt)
    (ids categories difficulties : option (list string)) : list prompt :=
  let out := prompts in
  let out := if truthy_list ids
             then filter (fun p => str_in (id p) (opt_list ids)) out
             else out in
  let out := if truthy_list categories
             then let cats := map lower (opt_list categories) in
                  filter (fun p => str_in (lower (category p)) cats) out
             else out in
  let out := if truthy_list difficulties
             then let diffs := map lower (opt_list difficulties) in
                  filter (fun p => str_in (lower (difficulty p)) diffs) out
             else out in
  out.

(** ** Collaborators *)

(** What [provider.complete] does: text, token usage and the elapsed
    seconds (a float), or an exception with its message. *)
Inductive completion : Type :=
  | Completed (text : string) (usage_in usage_out : option Z) (elapsed : Q)
  | ProviderError (msg : string) (elapsed : Q).

(** What [check_response] does: the auto-check result, or an exception
    with its message and the seconds elapsed when it is caught (a
    checker of [scripts/checks.py] can raise: [check_json_valid] does on
    an answer that is valid JSON but not an object). *)
Inductive check_outcome : Type :=
  | Checked (auto : auto_checks_t)
  | CheckRaised (msg : string) (elapsed : Q).

(** Modelled from the spec: [scripts/judge.py] is not among the sources.
    The judge adapter takes the prompt metadata, the response and the
    auto-check result and returns [{judge_score: int|null,
    judge_rationale: string}]; a failed judgement is the one whose
    [judge_score] is null. *)
Record judge_result : Type := {
  jr_judge_score : option Z;
  jr_judge_rationale : string
}.

(** One G-Eval measurement: a score (possibly null), or an exception. *)
Inductive metric_outcome : Type :=
  | MetricScore (s : option Q)
  | MetricRaised (msg : string).

(** What [score_with_deepeval] does: a result dict, or an exception. *)
Inductive deepeval_outcome : Type :=
  | DeepEvalResult (scores : pydict (option Q)) (avg : option Q)
  | DeepEvalRaised (msg : string).

(** The collaborators of one command invocation.  Each call is indexed by
    the clock reading at which it is made, so that two calls on the same
    prompt are free to answer differently.  [check_response] stands for
    the checker of [scripts/checks.py] and [measure] for one G-Eval
    metric of the deepeval package; [deepeval_imports] tells whether
    that package can be imported; [float_sum] is the built-in [sum] of
    the interpreter over floats. *)
Record collaborators : Type := {
  complete : nat -> prompt -> completion;
  check_response : nat -> prompt -> string -> check_outcome;
  judge_response : nat -> prompt -> string -> auto_checks_t -> judge_result;
  deepeval_imports : bool;
  measure : nat -> string -> prompt -> string -> metric_outcome;
  float_sum : list Q -> Q
}.

(** The parts of [config.yaml] that the commands read. *)
Record config : Type := {
  models_cfg : pydict string;        (* model name -> its [model] entry *)
  providers_ok : list string;        (* names for which [get_provider] succeeds *)
  judge_cfg_model : option string;   (* [judge_cfg.get("model")] *)
  deepeval_enabled : bool;
  deepeval_metrics : list string;
  judge_weight : Q;
  deepeval_weight : Q
}.

(** ** [scripts/deepeval_scorer.py] *)

Definition metric_builders : list string :=
  ["correctness"; "coherence"; "instruction_following"].

Definition valid_scores (scores : pydict (option Q)) : list Q :=
  flat_map (fun kv => match snd kv with Some s => [s] | None => [] end) scores.

Definition score_with_deepeval (cfg : config) (env : collaborators) (now : nat)
    (pmeta : prompt) (response : string) : deepeval_outcome :=
  if negb (deepeval_imports env) then DeepEvalRaised "No module named 'deepeval'"
  else
    let scores :=
      fold_left
        (fun acc metric_name =>
           if str_in metric_name metric_builders then
             dict_set acc metric_name
               (match measure env now metric_name pmeta response with
                | MetricScore (Some s) => Some (F64.round s 4)
                | MetricScore None => None
                | MetricRaised _ => None
                end)
           else acc)
        (deepeval_metrics cfg) [] in
    let valid := valid_scores scores in
    let avg := match valid with
               | [] => None
               | _ => Some (F64.round (F64.div (float_sum env valid) (lenQ valid)) 4)
               end in
    DeepEvalResult scores avg.

(** ** [cmd_eval] *)

(** The judge set-up of [cmd_eval]: the provider is there when the judge
    model is named, configured, not the model under evaluation, and its
    provider initialises. *)
Definition eval_judge_provider (cfg : config) (name : string) : bool :=
  match judge_cfg_model cfg with
  | Some j =>
      truthy_str (Some j) && dict_mem (models_cfg cfg) j
      && negb (String.eqb j name) && str_in j (providers_ok cfg)
  | None => false
  end.

Definition api_model_of (cfg : config) (name : string) : string :=
  match dict_get (models_cfg cfg) name with Some m => m | None => EmptyString end.

(** The entry of the [except] branch of the loop. *)
Definition failure_entry (cfg : config) (name : string) (now : nat)
    (msg : string) (elapsed : Q) : run_entry :=
  {| timestamp := now;
     api_model := Some (api_model_of cfg name);
     content := EmptyString;
     latency_s := Some (F64.round elapsed 2);
     input_tokens := None;
     output_tokens := None;
     auto_checks :=
       Some {| flags := ["API_ERROR"]; auto_scores := []; passed := false |};
     judge_score := None;
     judge_rationale := Some EmptyString;
     judge_model := judge_cfg_model cfg;
     deepeval_scores := None;
     deepeval_avg := None;
     error := Some msg |}.

(** The body of the loop: the entry built for one prompt.  The [try]
    holds the completion, the checker, the judge and the secondary
    scorer; an exception of the provider or of the checker leads to the
    [except] branch, one of the secondary scorer is caught inside. *)
Definition eval_entry (cfg : config) (env : collaborators) (name : string)
    (now : nat) (pmeta : prompt) : run_entry :=
  match complete env now pmeta with
  | Completed text usage_in usage_out elapsed =>
      match check_response env now pmeta text with
      | Checked auto =>
          let jr := if eval_judge_provider cfg name
                    then Some (judge_response env now pmeta text auto)
                    else None in
          let de := if deepeval_enabled cfg
                    then match score_with_deepeval cfg env now pmeta text with
                         | DeepEvalResult scores avg => Some (scores, avg)
                         | DeepEvalRaised _ => None
                         end
                    else None in
          {| timestamp := now;
             api_model := Some (api_model_of cfg name);
             content := text;
             latency_s := Some (F64.round elapsed 2);
             input_tokens := usage_in;
             output_tokens := usage_out;
             auto_checks := Some auto;
             judge_score := match jr with Some r => jr_judge_score r | None => None end;
             judge_rationale :=
               Some (match jr with
                     | Some r => jr_judge_rationale r
                     | None => EmptyString
                     end);
             judge_model := judge_cfg_model cfg;
             deepeval_scores := match de with Some (s, _) => Some s | None => None end;
             deepeval_avg := match de with Some (_, a) => a | None => None end;
             error := None |}
      | CheckRaised msg elapsed' => failure_entry cfg name now msg elapsed'
      end
  | ProviderError msg elapsed => failure_entry cfg name now msg elapsed
  end.

(** The state a command threads: the clock, the files, and the result set
    it holds in memory. *)
Record store : Type := {
  clock : nat;
  disk : results_dir;
  mem : model_data
}.

(** One turn of the [for] loop: build the entry, append, save. *)
Definition eval_step (cfg : config) (env : collaborators) (name : string)
    (st : store) (pmeta : prompt) : store :=
  let entry := eval_entry cfg env name (clock st) pmeta in
  let data := append_run (mem st) (id pmeta) entry in
  let '(disk', data') := save_model_results (disk st) (S (clock st)) name data in
  {| clock := S (S (clock st)); disk := disk'; mem := data' |}.

Definition eval_loop (cfg : config) (env : collaborators) (name : string)
    (prompts : list prompt) (st : store) : store :=
  fold_left (eval_step cfg env name) prompts st.

Inductive eval_exit : Type :=
  | EvalFailed        (* [sys.exit(1)] *)
  | EvalNothingNew    (* "Nothing new to run." *)
  | EvalDone.

(** The prompts [cmd_eval] goes on to run: all of them, or without
    [--rerun] those that have no history yet. *)
Definition eval_overlap (data : model_data) (prompts : list prompt) : list string :=
  filter (dict_mem (runs data)) (map id prompts).

Definition eval_todo (data : model_data) (prompts : list prompt) (rerun : bool)
  : list prompt :=
  match eval_overlap data prompts with
  | [] => prompts
  | overlap =>
      if rerun then prompts
      else filter (fun p => negb (str_in (id p) overlap)) prompts
  end.

(** [cmd_eval], from the prompts that [filter_prompts] returned. *)
Definition cmd_eval (cfg : config) (env : collaborators) (name : string)
    (prompts : list prompt) (rerun : bool) (disk0 : results_dir) (now : nat)
  : eval_exit * store :=
  let idle := {| clock := now; disk := disk0;
                 mem := load_model_results disk0 now name |} in
  if negb (dict_mem (models_cfg cfg) name) then (EvalFailed, idle)
  else match prompts with
  | [] => (EvalFailed, idle)
  | _ =>
      let data := load_model_results disk0 now name in
      match eval_todo data prompts rerun with
      | [] => (EvalNothingNew, idle)
      | todo =>
          if negb (str_in name (providers_ok cfg)) then (EvalFailed, idle)
          else (EvalDone, eval_loop cfg env name todo
                            {| clock := S now; disk := disk0; mem := data |})
      end
  end.

(** ** Re-scoring: [cmd_rejudge] and [cmd_deepeval] *)

(** The three counters both commands report; [cmd_rejudge] calls the
    first one [total_judged]. *)
Record totals : Type := {
  total_scored : nat;
  total_skipped : nat;
  total_errors : nat
}.

Definition no_totals : totals :=
  {| total_scored := 0; total_skipped := 0; total_errors := 0 |}.

Definition count_scored (t : totals) : totals :=
  {| total_scored := S (total_scored t); total_skipped := total_skipped t;
     total_errors := total_errors t |}.

Definition count_skipped (t : totals) : totals :=
  {| total_scored := total_scored t; total_skipped := S (total_skipped t);
     total_errors := total_errors t |}.

Definition count_error (t : totals) : totals :=
  {| total_scored := total_scored t; total_skipped := total_skipped t;
     total_errors := S (total_errors t) |}.

Definition is_some {A : Type} (o : option A) : bool :=
  match o with Some _ => true | None => false end.

Definition opt_default {A : Type} (d : A) (o : option A) : A :=
  match o with Some a => a | None => d end.

Definition opt_str_eqb (a : option string) (b : string) : bool :=
  match a with Some a' => String.eqb a' b | None => false end.

(** [{p["id"]: p for p in prompts}]. *)
Definition prompts_by_id (prompts : list prompt) : pydict prompt :=
  fold_left (fun d p => dict_set d (id p) p) prompts [].

(** The default of [run.get("auto_checks", ...)]. *)
Definition default_auto_checks : auto_checks_t :=
  {| flags := []; auto_scores := []; passed := true |}.

(** [list_evaluated_models]: the file stems, sorted, without the report. *)
Fixpoint insert_sorted (s : string) (l : list string) : list string :=
  match l with
  | [] => [s]
  | x :: rest => if String.leb s x then s :: l else x :: insert_sorted s rest
  end.

Definition sorted_strings (l : list string) : list string :=
  fold_right insert_sorted [] l.

Definition list_evaluated_models (d : results_dir) : list string :=
  sorted_strings (filter (fun n => negb (String.eqb n "comparison")) (dict_keys d)).

(** The state of a re-scoring pass over one model. *)
Record pass : Type := {
  pass_clock : nat;
  pass_data : model_data;
  pass_totals : totals
}.

(** *** Selection of the candidates *)

(** Is the latest run of a candidate already scored by the current judge? *)
Definition judged_by (judge_name : string) (run : run_entry) : bool :=
  opt_str_eqb (judge_model run) judge_name && is_some (judge_score run).

(** The first loop of [cmd_rejudge] over one model: the ids to judge, and
    the skipped counter. *)
Definition rejudge_select (force : bool) (judge_name : string)
    (data : model_data) (pids : list string) (t : totals)
  : list string * totals :=
  fold_left
    (fun acc pid =>
       let '(to_judge, t) := acc in
       match latest_run data pid with
       | None => (to_judge, t)
       | Some run =>
           if truthy_str (error run) then (to_judge, t)
           else if negb force && judged_by judge_name run
                then (to_judge, count_skipped t)
                else (to_judge ++ [pid], t)
       end)
    pids ([], t).

(** The first loop of [cmd_deepeval] over one model. *)
Definition deepeval_select (force : bool) (data : model_data)
    (pids : list string) (t : totals) : list string * totals :=
  fold_left
    (fun acc pid =>
       let '(to_score, t) := acc in
       match latest_run data pid with
       | None => (to_score, t)
       | Some run =>
           if truthy_str (error run) then (to_score, t)
           else if negb force && truthy_list (deepeval_scores run)
                then (to_score, count_skipped t)
                else (to_score ++ [pid], t)
       end)
    pids ([], t).

(** *** The entries appended *)

(** The entry [cmd_rejudge] builds from the latest run and the verdict. *)
Definition rejudge_entry (now : nat) (judge_name : string) (run : run_entry)
    (jr : judge_result) : run_entry :=
  {| timestamp := now;
     api_model := Some (opt_default EmptyString (api_model run));
     content := content run;
     latency_s := Some (opt_default 0 (latency_s run));
     input_tokens := input_tokens run;
     output_tokens := output_tokens run;
     auto_checks := Some (opt_default default_auto_checks (auto_checks run));
     judge_score := jr_judge_score jr;
     judge_rationale := Some (jr_judge_rationale jr);
     judge_model := Some judge_name;
     deepeval_scores := None;
     deepeval_avg := None;
     error := None |}.

(** The entry [cmd_deepeval] builds from the latest run and the scores. *)
Definition deepeval_entry (now : nat) (run : run_entry)
    (scores : pydict (option Q)) (avg : option Q) : run_entry :=
  {| timestamp := now;
     api_model := Some (opt_default EmptyString (api_model run));
     content := content run;
     latency_s := Some (opt_default 0 (latency_s run));
     input_tokens := input_tokens run;
     output_tokens := output_tokens run;
     auto_checks := Some (opt_default default_auto_checks (auto_checks run));
     judge_score := judge_score run;
     judge_rationale := Some (opt_default EmptyString (judge_rationale run));
     judge_model := judge_model run;
     deepeval_scores := Some scores;
     deepeval_avg := avg;
     error := None |}.

(** *** The second loop *)

(** One turn of the second loop of [cmd_rejudge].  A candidate without a
    latest run would raise [KeyError] on [run["content"]] inside the
    [try], which counts an error. *)
Definition rejudge_step (env : collaborators) (judge_name : string)
    (by_id : pydict prompt) (st : pass) (pid : string) : pass :=
  match dict_get by_id pid with
  | None => st
  | Some pmeta =>
      match latest_run (pass_data st) pid with
      | None =>
          {| pass_clock := pass_clock st; pass_data := pass_data st;
             pass_totals := count_error (pass_totals st) |}
      | Some run =>
          let auto := opt_default default_auto_checks (auto_checks run) in
          let jr := judge_response env (pass_clock st) pmeta (content run) auto in
          let entry := rejudge_entry (pass_clock st) judge_name run jr in
          {| pass_clock := S (pass_clock st);
             pass_data := append_run (pass_data st) pid entry;
             pass_totals := if is_some (jr_judge_score jr)
                            then count_scored (pass_totals st)
                            else count_error (pass_totals st) |}
      end
  end.

(** One turn of the second loop of [cmd_deepeval]. *)
Definition deepeval_step (cfg : config) (env : collaborators)
    (by_id : pydict prompt) (st : pass) (pid : string) : pass :=
  match dict_get by_id pid with
  | None => st
  | Some pmeta =>
      match latest_run (pass_data st) pid with
      | None =>
          {| pass_clock := pass_clock st; pass_data := pass_data st;
             pass_totals := count_error (pass_totals st) |}
      | Some run =>
          match score_with_deepeval cfg env (pass_clock st) pmeta (content run) with
          | DeepEvalRaised _ =>
              {| pass_clock := pass_clock st; pass_data := pass_data st;
                 pass_totals := count_error (pass_totals st) |}
          | DeepEvalResult scores avg =>
              let entry := deepeval_entry (pass_clock st) run scores avg in
              {| pass_clock := S (pass_clock st);
                 pass_data := append_run (pass_data st) pid entry;
                 pass_totals := if is_some avg
                                then count_scored (pass_totals st)
                                else count_error (pass_totals st) |}
          end
      end
  end.

(** *** The commands *)

(** What a re-scoring command threads across the models. *)
Record rescoring : Type := {
  rs_clock : nat;
  rs_disk : results_dir;
  rs_totals : totals
}.

(** The body of [for model_name in model_names] in [cmd_rejudge]. *)
Definition rejudge_model (env : collaborators) (force : bool)
    (judge_name : string) (by_id : pydict prompt) (w : rescoring)
    (name : string) : rescoring :=
  if String.eqb name judge_name then w
  else
    let data := load_model_results (rs_disk w) (rs_clock w) name in
    match runs data with
    | [] => w
    | _ =>
        let pids := dict_keys (runs data) in
        let '(to_judge, t) := rejudge_select force judge_name data pids (rs_totals w) in
        match to_judge with
        | [] => {| rs_clock := rs_clock w; rs_disk := rs_disk w; rs_totals := t |}
        | _ =>
            let p := fold_left (rejudge_step env judge_name by_id) to_judge
                       {| pass_clock := rs_clock w; pass_data := data;
                          pass_totals := t |} in
            let '(disk', _) :=
              save_model_results (rs_disk w) (pass_clock p) name (pass_data p) in
            {| rs_clock := S (pass_clock p); rs_disk := disk';
               rs_totals := pass_totals p |}
        end
    end.

(** [cmd_rejudge]: [None] is [sys.exit(1)]; [models] is [args.models],
    [eval_prompts] what [load_eval] returns. *)
Definition cmd_rejudge (cfg : config) (env : collaborators)
    (models : list string) (force : bool) (eval_prompts : list prompt)
    (disk0 : results_dir) (now : nat) : option rescoring :=
  match judge_cfg_model cfg with
  | None => None
  | Some judge_name =>
      if negb (truthy_str (Some judge_name) && dict_mem (models_cfg cfg) judge_name)
      then None
      else if negb (str_in judge_name (providers_ok cfg)) then None
      else
        let model_names := match models with
                           | [] => list_evaluated_models disk0
                           | _ => models
                           end in
        Some (fold_left
                (rejudge_model env force judge_name (prompts_by_id eval_prompts))
                model_names
                {| rs_clock := now; rs_disk := disk0; rs_totals := no_totals |})
  end.

(** The body of [for model_name in model_names] in [cmd_deepeval];
    [filter_pids] is [None] when no [--ids] were given. *)
Definition deepeval_model (cfg : config) (env : collaborators) (force : bool)
    (by_id : pydict prompt) (filter_pids : option (list string))
    (w : rescoring) (name : string) : rescoring :=
  let data := load_model_results (rs_disk w) (rs_clock w) name in
  match runs data with
  | [] => w
  | _ =>
      let pids := dict_keys (runs data) in
      let pids := if truthy_list filter_pids
                  then filter (fun p => str_in p (opt_list filter_pids)) pids
                  else pids in
      let '(to_score, t) := deepeval_select force data pids (rs_totals w) in
      match to_score with
      | [] => {| rs_clock := rs_clock w; rs_disk := rs_disk w; rs_totals := t |}
      | _ =>
          let p := fold_left (deepeval_step cfg env by_id) to_score
                     {| pass_clock := rs_clock w; pass_data := data;
                        pass_totals := t |} in
          let '(disk', _) :=
            save_model_results (rs_disk w) (pass_clock p) name (pass_data p) in
          {| rs_clock := S (pass_clock p); rs_disk := disk';
             rs_totals := pass_totals p |}
      end
  end.

(** [cmd_deepeval]; [ids] is [args.ids]. *)
Definition cmd_deepeval (cfg : config) (env : collaborators)
    (models : list string) (ids : option (list string)) (force : bool)
    (eval_prompts : list prompt) (disk0 : results_dir) (now : nat) : rescoring :=
  let model_names := match models with
                     | [] => list_evaluated_models disk0
                     | _ => models
                     end in
  let model_names :=
    filter (fun m => negb (opt_str_eqb (judge_cfg_model cfg) m)) model_names in
  let prompts := if truthy_list ids
                 then filter_prompts eval_prompts ids None None
                 else eval_prompts in
  let by_id := prompts_by_id prompts in
  let filter_pids := if truthy_list ids then Some (dict_keys by_id) else None in
  fold_left (deepeval_model cfg env force by_id filter_pids) model_names
    {| rs_clock := now; rs_disk := disk0; rs_totals := no_totals |}.

(** ** Aggregation: [cmd_compare]

    The definitions of this section and of the next compute the
    averages and the composite in exact arithmetic; those of module
    [Binary64] below compute them as the interpreter does. *)

Definition Qlt_bool (a b : Q) : bool := negb (Qle_bool b a).

(** What the per-model loop of both aggregators collects. *)
Record gathered : Type := {
  g_scores : list Z;
  g_latencies : list Q;
  g_tokens : list Z;
  g_de_avgs : list Q;
  g_flagged : nat;
  g_errors : nat
}.

Definition nothing_gathered : gathered :=
  {| g_scores := []; g_latencies := []; g_tokens := []; g_de_avgs := [];
     g_flagged := 0; g_errors := 0 |}.

(** What one latest run adds to the lists and to the flag counter. *)
Definition gather_run (acc : gathered) (run : run_entry) : gathered :=
  {| g_scores := g_scores acc
                 ++ match judge_score run with Some s => [s] | None => [] end;
     g_latencies := g_latencies acc ++ [opt_default 0 (latency_s run)];
     g_tokens := g_tokens acc ++ [opt_default 0%Z (output_tokens run)];
     g_de_avgs := g_de_avgs acc
                  ++ match deepeval_avg run with Some a => [a] | None => [] end;
     g_flagged := if has_flags run then S (g_flagged acc) else g_flagged acc;
     g_errors := g_errors acc |}.

(** The composite of both aggregators, from the score list, the judge
    average and the secondary average. *)
Definition composite_of (jw dw : Q) (scores : list Z) (avg_s : Q)
    (de_avg : option Q) : option Q :=
  let normalized_judge := match scores with
                          | [] => None
                          | _ => Some ((avg_s - 1) / 4)
                          end in
  match normalized_judge, de_avg with
  | Some nj, Some da => Some (py_round (jw * nj + dw * da) 4)
  | Some nj, None => Some (py_round nj 4)
  | None, Some da => Some (py_round da 4)
  | None, None => None
  end.

(** [c or 0] on a composite. *)
Definition or0 (c : option Q) : Q :=
  match c with
  | Some q => if Qeq_bool q 0 then 0 else q
  | None => 0
  end.

(** Tuple comparison [a < b] on the sort keys [(scored > 0, composite or 0)]. *)
Definition key_lt (a b : bool * Q) : bool :=
  match fst a, fst b with
  | false, true => true
  | true, false => false
  | _, _ => Qlt_bool (snd a) (snd b)
  end.

(** [l.sort(key=key, reverse=True)]: descending, and stable. *)
Fixpoint insert_desc {A : Type} (key : A -> bool * Q) (x : A) (l : list A)
  : list A :=
  match l with
  | [] => [x]
  | y :: ys => if key_lt (key x) (key y) then y :: insert_desc key x ys
               else x :: l
  end.

Definition sort_reverse {A : Type} (key : A -> bool * Q) (l : list A) : list A :=
  fold_right (insert_desc key) [] l.

(** The number of prompts that have a latest run. *)
Definition count_total (latest : string -> option run_entry) (pids : list string)
  : nat :=
  List.length (filter (fun pid => is_some (latest pid)) pids).

(** A row of the leaderboard of [cmd_compare]: the tuple
    [(name, avg_s, len(scores), total, flagged, avg_l, avg_t, composite)]. *)
Record compare_row : Type := {
  row_name : string;
  row_avg_s : Q;
  row_scored : nat;
  row_total : nat;
  row_flagged : nat;
  row_avg_l : Q;
  row_avg_t : Q;
  row_composite : option Q
}.

Definition compare_gather (data : model_data) (pids : list string) : gathered :=
  fold_left
    (fun acc pid =>
       match latest_run data pid with
       | None => acc
       | Some run => gather_run acc run
       end)
    pids nothing_gathered.

Definition compare_stats (jw dw : Q) (pids : list string)
    (name : string) (data : model_data) : compare_row :=
  let g := compare_gather data pids in
  let avg_s := meanZ (g_scores g) in
  let de_avg := match g_de_avgs g with
                | [] => None
                | _ => Some (meanQ (g_de_avgs g))
                end in
  {| row_name := name;
     row_avg_s := avg_s;
     row_scored := List.length (g_scores g);
     row_total := count_total (latest_run data) pids;
     row_flagged := g_flagged g;
     row_avg_l := meanQ (g_latencies g);
     row_avg_t := meanZ (g_tokens g);
     row_composite := composite_of jw dw (g_scores g) avg_s de_avg |}.

Definition compare_key (r : compare_row) : bool * Q :=
  (Nat.ltb 0 (row_scored r), or0 (row_composite r)).

(** The models [cmd_compare] keeps: those whose result set has runs. *)
Definition compare_models (disk0 : results_dir) (now : nat)
    (model_names : list string) : pydict model_data :=
  fold_left
    (fun models name =>
       let data := load_model_results disk0 now name in
       match runs data with
       | [] => models
       | _ => dict_set models name data
       end)
    model_names [].

(** The leaderboard loop and the sort of [cmd_compare]. *)
Definition leaderboard_of (cfg : config) (prompts : list prompt)
    (models : pydict model_data) : list compare_row :=
  let pids := map id prompts in
  sort_reverse compare_key
    (map (fun nd => compare_stats (judge_weight cfg) (deepeval_weight cfg) pids
                      (fst nd) (snd nd))
         models).

(** [cmd_compare], up to the leaderboard it prints: [None] is
    [sys.exit(1)]; [prompts] is what [filter_prompts] returned and
    [models] is [args.models]. *)
Definition cmd_compare (cfg : config) (prompts : list prompt)
    (models : list string) (disk0 : results_dir) (now : nat)
  : option (list compare_row) :=
  let model_names := match models with
                     | [] => list_evaluated_models disk0
                     | _ => models
                     end in
  match model_names with
  | [] => None
  | _ =>
      match compare_models disk0 now model_names with
      | [] => None
      | loaded => Some (leaderboard_of cfg prompts loaded)
      end
  end.

(** ** Aggregation: [scripts/dashboard.py] *)

Module Dashboard.

(** [latest_run], defined again in this file of the source. *)
Definition latest_run (data : model_data) (pid : string) : option run_entry :=
  match dict_get (runs data) pid with
  | Some rs => last (map Some rs) None
  | None => None
  end.

(** A leaderboard entry, without the per-category and per-metric
    breakdowns and the efficiency (which is [efficiency] below). *)
Record row : Type := {
  name : string;
  avg_score : Q;
  scored : nat;
  total : nat;
  errors : nat;
  flagged : nat;
  avg_latency : Q;
  median_latency : Q;
  avg_tokens : Q;
  deepeval_avg : option Q;
  composite_score : option Q
}.

(** The per-model loop: a latest run with an error is counted and passed
    over. *)
Definition gather (data : model_data) (pids : list string) : gathered :=
  fold_left
    (fun acc pid =>
       match latest_run data pid with
       | None => acc
       | Some run =>
           if truthy_str (error run) then
             {| g_scores := g_scores acc; g_latencies := g_latencies acc;
                g_tokens := g_tokens acc; g_de_avgs := g_de_avgs acc;
                g_flagged := g_flagged acc; g_errors := S (g_errors acc) |}
           else gather_run acc run
       end)
    pids nothing_gathered.

(** [sorted(latencies)], ascending. *)
Fixpoint insert_asc (x : Q) (l : list Q) : list Q :=
  match l with
  | [] => [x]
  | y :: ys => if Qlt_bool x y then x :: l else y :: insert_asc x ys
  end.

Definition sorted (l : list Q) : list Q := fold_right insert_asc [] l.

(** The unrounded averages [avg_s] and [avg_t] of a model. *)
Definition avg_s (data : model_data) (pids : list string) : Q :=
  meanZ (g_scores (gather data pids)).

Definition avg_t (data : model_data) (pids : list string) : Q :=
  meanZ (g_tokens (gather data pids)).

Definition stats (jw dw : Q) (pids : list string) (nm : string)
    (data : model_data) : row :=
  let g := gather data pids in
  let avg_l := meanQ (g_latencies g) in
  let median_l := match g_latencies g with
                  | [] => 0
                  | _ => nth (Nat.div (List.length (g_latencies g)) 2)
                           (sorted (g_latencies g)) 0
                  end in
  let de_avg := match g_de_avgs g with
                | [] => None
                | _ => Some (py_round (meanQ (g_de_avgs g)) 4)
                end in
  {| name := nm;
     avg_score := py_round (avg_s data pids) 2;
     scored := List.length (g_scores g);
     total := count_total (latest_run data) pids;
     errors := g_errors g;
     flagged := g_flagged g;
     avg_latency := py_round avg_l 1;
     median_latency := py_round median_l 1;
     avg_tokens := py_round (avg_t data pids) 0;
     deepeval_avg := de_avg;
     composite_score := composite_of jw dw (g_scores g) (avg_s data pids) de_avg |}.

Definition key (r : row) : bool * Q :=
  (Nat.ltb 0 (scored r), or0 (composite_score r)).

(** The leaderboard of [compute_stats]; the weights default to 0.5. *)
Definition compute_stats (models : pydict model_data) (prompts : list prompt)
    (composite_config : option (option Q * option Q)) : list row :=
  let jw := match composite_config with
            | Some (Some w, _) => w
            | _ => 1 # 2
            end in
  let dw := match composite_config with
            | Some (_, Some w) => w
            | _ => 1 # 2
            end in
  let pids := map id prompts in
  sort_reverse key (map (fun nd => stats jw dw pids (fst nd) (snd nd)) models).

End Dashboard.

(** ** Aggregation in binary64: [cmd_compare] and [compute_stats] *)

Module Binary64.

Section Aggregation.

(** The built-in [sum] of the interpreter over floats. *)
Variable fsum : list Q -> Q.

(** The composite of both aggregators, from the score list, the judge
    average and the secondary average. *)
Definition composite_of (jw dw : Q) (scores : list Z) (avg_s : Q)
    (de_avg : option Q) : option Q :=
  let normalized_judge := match scores with
                          | [] => None
                          | _ => Some (F64.div (F64.sub avg_s 1) 4)
                          end in
  match normalized_judge, de_avg with
  | Some nj, Some da => Some (F64.round (F64.add (F64.mul jw nj) (F64.mul dw da)) 4)
  | Some nj, None => Some (F64.round nj 4)
  | None, Some da => Some (F64.round da 4)
  | None, None => None
  end.

(** The floats that [json.load] makes of the latencies and of the
    secondary averages gathered. *)
Definition latencies (g : gathered) : list Q := map F64.fl (g_latencies g).
Definition de_avgs (g : gathered) : list Q := map F64.fl (g_de_avgs g).

(** The row of a model in [cmd_compare]. *)
Definition compare_stats (jw dw : Q) (pids : list string)
    (name : string) (data : model_data) : compare_row :=
  let g := compare_gather data pids in
  let avg_s := F64.mean_int (g_scores g) in
  let de_avg := match de_avgs g with
                | [] => None
                | _ => Some (F64.mean fsum (de_avgs g))
                end in
  {| row_name := name;
     row_avg_s := avg_s;
     row_scored := List.length (g_scores g);
     row_total := count_total (latest_run data) pids;
     row_flagged := g_flagged g;
     row_avg_l := F64.mean fsum (latencies g);
     row_avg_t := F64.mean_int (g_tokens g);
     row_composite := composite_of jw dw (g_scores g) avg_s de_avg |}.

(** The leaderboard loop and the sort of [cmd_compare]. *)
Definition leaderboard_of (cfg : config) (prompts : list prompt)
    (models : pydict model_data) : list compare_row :=
  let pids := map id prompts in
  sort_reverse compare_key
    (map (fun nd => compare_stats (judge_weight cfg) (deepeval_weight cfg) pids
                      (fst nd) (snd nd))
         models).

(** [cmd_compare], up to the leaderboard it prints: [None] is
    [sys.exit(1)]; [prompts] is what [filter_prompts] returned and
    [models] is [args.models]. *)
Definition cmd_compare (cfg : config) (prompts : list prompt)
    (models : list string) (disk0 : results_dir) (now : nat)
  : option (list compare_row) :=
  let model_names := match models with
                     | [] => list_evaluated_models disk0
                     | _ => models
                     end in
  match model_names with
  | [] => None
  | _ =>
      match compare_models disk0 now model_names with
      | [] => None
      | loaded => Some (leaderboard_of cfg prompts loaded)
      end
  end.

(** The unrounded averages [avg_s], [avg_l] and [avg_t] of a model in
    [compute_stats]. *)
Definition avg_s (data : model_data) (pids : list string) : Q :=
  F64.mean_int (g_scores (Dashboard.gather data pids)).

Definition avg_l (data : model_data) (pids : list string) : Q :=
  F64.mean fsum (latencies (Dashboard.gather data pids)).

Definition avg_t (data : model_data) (pids : list string) : Q :=
  F64.mean_int (g_tokens (Dashboard.gather data pids)).

(** The leaderboard entry of a model in [compute_stats], without the
    per-category and per-metric breakdowns, the score distribution and
    the efficiency. *)
Definition stats (jw dw : Q) (pids : list string) (nm : string)
    (data : model_data) : Dashboard.row :=
  let g := Dashboard.gather data pids in
  let median_l := match latencies g with
                  | [] => 0
                  | _ => nth (Nat.div (List.length (latencies g)) 2)
                           (Dashboard.sorted (latencies g)) 0
                  end in
  let de_avg := match de_avgs g with
                | [] => None
                | _ => Some (F64.round (F64.mean fsum (de_avgs g)) 4)
                end in
  {| Dashboard.name := nm;
     Dashboard.avg_score := F64.round (avg_s data pids) 2;
     Dashboard.scored := List.length (g_scores g);
     Dashboard.total := count_total (Dashboard.latest_run data) pids;
     Dashboard.errors := g_errors g;
     Dashboard.flagged := g_flagged g;
     Dashboard.avg_latency := F64.round (avg_l data pids) 1;
     Dashboard.median_latency := F64.round median_l 1;
     Dashboard.avg_tokens := F64.round (avg_t data pids) 0;
     Dashboard.deepeval_avg := de_avg;
     Dashboard.composite_score :=
       composite_of jw dw (g_scores g) (avg_s data pids) de_avg |}.

(** The leaderboard of [compute_stats]; the weights default to 0.5. *)
Definition compute_stats (models : pydict model_data) (prompts : list prompt)
    (composite_config : option (option Q * option Q)) : list Dashboard.row :=
  let jw := match composite_config with
            | Some (Some w, _) => w
            | _ => 1 # 2
            end in
  let dw := match composite_config with
            | Some (_, Some w) => w
            | _ => 1 # 2
            end in
  let pids := map id prompts in
  sort_reverse Dashboard.key
    (map (fun nd => stats jw dw pids (fst nd) (snd nd)) models).

End Aggregation.

(** *** The efficiency metric of [compute_stats] *)

(** [math.log2] as called: a [ValueError], here [None], outside the
    positive floats, and otherwise what the logarithm of the C library,
    [libm_log2], returns. *)
Definition math_log2 (libm_log2 : Q -> Q) (x : Q) : option Q :=
  if Qlt_bool 0 x then Some (libm_log2 x) else None.

(** [a / b] as evaluated: a [ZeroDivisionError], here [None], on a zero
    divisor. *)
Definition float_div (a b : Q) : option Q :=
  if Qeq_bool b 0 then None else Some (F64.div a b).

(** The [if avg_s > 0 and avg_t > 1] of [compute_stats]; [None] is an
    exception raised on the way. *)
Definition efficiency (libm_log2 : Q -> Q) (avg_s avg_t : Q) : option Q :=
  if Qlt_bool 0 avg_s && Qlt_bool 1 avg_t then
    match math_log2 libm_log2 avg_t with
    | Some l =>
        match float_div avg_s l with
        | Some e => Some (F64.round e 2)
        | None => None
        end
    | None => None
    end
  else Some 0.

(** The efficiency of a model, from its two averages. *)
Definition model_efficiency (libm_log2 : Q -> Q) (data : model_data)
    (pids : list string) : option Q :=
  efficiency libm_log2 (F64.mean_int (g_scores (Dashboard.gather data pids)))
    (F64.mean_int (g_tokens (Dashboard.gather data pids))).

End Binary64.

(** ** Notions used in the statements *)

(** [n] appends in a row on one prompt id. *)
Definition append_all (data : model_data) (pid : string) (entries : list run_entry)
  : model_data :=
  fold_left (fun d e => append_run d pid e) entries data.

(** The (prompt id, entry) pairs the loop appends, from a clock reading. *)
Fixpoint eval_trace (cfg : config) (env : collaborators) (name : string)
    (t : nat) (prompts : list prompt) : list (string * run_entry) :=
  match prompts with
  | [] => []
  | p :: rest =>
      (id p, eval_entry cfg env name t p) :: eval_trace cfg env name (S (S t)) rest
  end.

(** The entries of a trace that belong to one prompt id. *)
Definition entries_for (pid : string) (tr : list (string * run_entry))
  : list run_entry :=
  map snd (filter (fun x => String.eqb (fst x) pid) tr).

(** The number of entries a result set holds, over all prompt ids. *)
Definition total_entries (data : model_data) : nat :=
  List.length (List.concat (map snd (runs data))).

(** What the first loop of a re-scoring command does with a candidate,
    read off its latest run. *)
Inductive fate : Type :=
  | PassedOver   (* no run, or a completion error: [continue], nothing counted *)
  | Skipped      (* already scored and no [--force]: [total_skipped += 1] *)
  | Rescored.    (* goes to the second loop *)

Definition fate_eqb (a b : fate) : bool :=
  match a, b with
  | PassedOver, PassedOver | Skipped, Skipped | Rescored, Rescored => true
  | _, _ => false
  end.

Definition rejudge_fate (force : bool) (judge_name : string)
    (run : option run_entry) : fate :=
  match run with
  | None => PassedOver
  | Some r =>
      if truthy_str (error r) then PassedOver
      else if negb force && judged_by judge_name r then Skipped
           else Rescored
  end.

Definition deepeval_fate (force : bool) (run : option run_entry) : fate :=
  match run with
  | None => PassedOver
  | Some r =>
      if truthy_str (error r) then PassedOver
      else if negb force && truthy_list (deepeval_scores r) then Skipped
           else Rescored
  end.

Definition count_fate (f : string -> fate) (x : fate) (pids : list string) : nat :=
  List.length (filter (fun pid => fate_eqb (f pid) x) pids).

(** The candidates of [cmd_deepeval] for one model. *)
Definition deepeval_candidates (filter_pids : option (list string))
    (data : model_data) : list string :=
  if truthy_list filter_pids
  then filter (fun p => str_in p (opt_list filter_pids)) (dict_keys (runs data))
  else dict_keys (runs data).

(** The latest runs of a model over a prompt list, in the order of the
    list, and what the aggregators read off them. *)
Definition latest_runs (data : model_data) (pids : list string) : list run_entry :=
  flat_map (fun pid => match latest_run data pid with
                       | Some run => [run]
                       | None => []
                       end) pids.

Definition error_free (rs : list run_entry) : list run_entry :=
  filter (fun run => negb (truthy_str (error run))) rs.

Definition judge_scores (rs : list run_entry) : list Z :=
  flat_map (fun run => match judge_score run with Some s => [s] | None => [] end) rs.

Definition secondary_avgs (rs : list run_entry) : list Q :=
  flat_map (fun run => match deepeval_avg run with Some a => [a] | None => [] end) rs.

(** The lists and counters gathered from a list of runs, none passed over. *)
Definition gathered_from (rs : list run_entry) (errors : nat) : gathered :=
  {| g_scores := judge_scores rs;
     g_latencies := map (fun run => opt_default 0 (latency_s run)) rs;
     g_tokens := map (fun run => opt_default 0%Z (output_tokens run)) rs;
     g_de_avgs := secondary_avgs rs;
     g_flagged := List.length (filter has_flags rs);
     g_errors := errors |}.

(** The averages of the claim: the mean judge score and the mean
    secondary average over a list of runs. *)
Definition avg_judge (rs : list run_entry) : Q := meanZ (judge_scores rs).


(** ** Sample inputs *)

Definition sample_prompt (i : string) : prompt :=
  {| id := i; category := "coding"; subcategory := "bugfix";
     difficulty := "easy"; check_type := "reasoning";
     prompt_text := "Fix the off-by-one."; ideal := "Use range(n)."; criteria := [] |}.

Definition sample_cfg : config :=
  {| models_cfg := [("gpt-4o", "gpt-4o-2024-08-06"); ("judge", "claude-sonnet")];
     providers_ok := ["gpt-4o"; "judge"];
     judge_cfg_model := Some "judge";
     deepeval_enabled := false;
     deepeval_metrics := metric_builders;
     judge_weight := 1 # 2;
     deepeval_weight := 1 # 2 |}.

(** A provider that fails on the prompt ["FAIL"], and a judge that
    always fails. *)
Definition sample_env : collaborators :=
  {| complete := fun _ p =>
       if String.eqb (id p) "FAIL" then ProviderError "timeout" (30 # 1)
       else Completed ("answer to " ++ id p)%string (Some 12%Z) (Some 40%Z) (3 # 2);
     check_response := fun _ _ _ => Checked default_auto_checks;
     judge_response := fun _ _ _ _ =>
       {| jr_judge_score := None; jr_judge_rationale := "Judge error" |};
     deepeval_imports := true;
     measure := fun _ _ _ _ => MetricScore (Some (4 # 5));
     float_sum := F64.sum_left |}.

(** A judge that gives 4 out of 5, and a scorer that gives 0.8. *)
Definition scoring_env : collaborators :=
  {| complete := fun _ p =>
       Completed ("answer to " ++ id p)%string (Some 12%Z) (Some 40%Z) (3 # 2);
     check_response := fun _ _ _ => Checked default_auto_checks;
     judge_response := fun _ _ _ _ =>
       {| jr_judge_score := Some 4%Z; jr_judge_rationale := "Mostly right." |};
     deepeval_imports := true;
     measure := fun _ _ _ _ => MetricScore (Some (4 # 5));
     float_sum := F64.sum_left |}.

(** A run scored 3 by [judge_name], with secondary scores averaging 0.8. *)
Definition scored_run (judge_name : string) : run_entry :=
  {| timestamp := 1%nat;
     api_model := Some "gpt-4o-2024-08-06";
     content := "Use range(n).";
     latency_s := Some (3 # 2);
     input_tokens := Some 12%Z;
     output_tokens := Some 40%Z;
     auto_checks := Some default_auto_checks;
     judge_score := Some 3%Z;
     judge_rationale := Some "Fine.";
     judge_model := Some judge_name;
     deepeval_scores := Some [("correctness", Some (4 # 5)); ("coherence", Some (4 # 5))];
     deepeval_avg := Some (4 # 5);
     error := None |}.

(** A run on which the provider failed, as [cmd_eval] records it. *)
Definition errored_run : run_entry :=
  {| timestamp := 1%nat;
     api_model := Some "gpt-4o-2024-08-06";
     content := EmptyString;
     latency_s := Some (30 # 1);
     input_tokens := None;
     output_tokens := None;
     auto_checks :=
       Some {| flags := ["API_ERROR"]; auto_scores := []; passed := false |};
     judge_score := None;
     judge_rationale := Some EmptyString;
     judge_model := Some "judge";
     deepeval_scores := None;
     deepeval_avg := None;
     error := Some "timeout" |}.

(** The result set of ["gpt-4o"] with one run of ["P1"], and its file. *)
Definition one_run (run : run_entry) : model_data :=
  {| model_name := "gpt-4o"; created := 0%nat; updated := Some 2%nat;
     runs := [("P1", [run])] |}.

Definition one_file (run : run_entry) : results_dir := [("gpt-4o", one_run run)].

(** A run with a judge score and no secondary scores, and a run with
    secondary scores only. *)
Definition judged_run (score : Z) : run_entry :=
  {| timestamp := 1%nat;
     api_model := Some "gpt-4o-2024-08-06";
     content := "Use range(n).";
     latency_s := Some (3 # 2);
     input_tokens := Some 12%Z;
     output_tokens := Some 8%Z;
     auto_checks := Some default_auto_checks;
     judge_score := Some score;
     judge_rationale := Some "Fine.";
     judge_model := Some "judge";
     deepeval_scores := None;
     deepeval_avg := None;
     error := None |}.


(** Three prompts judged 1, 2 and 2. *)
Definition three_runs : model_data :=
  {| model_name := "gpt-4o"; created := 0%nat; updated := Some 2%nat;
     runs := [("P1", [judged_run 1]); ("P2", [judged_run 2]); ("P3", [judged_run 2])] |}.


(** ** Further notions used in the statements *)

(** What the aggregators read off a run besides its scores: the content,
    the latency and the output tokens as they are averaged, and whether
    it is flagged. *)
Definition measurements (run : run_entry) : string * Q * Z * bool :=
  (content run, opt_default 0 (latency_s run),
   opt_default 0%Z (output_tokens run), has_flags run).

(** The candidates a pass has settled: judged or scored, or failed. *)
Definition settled (t : totals) : nat := (total_scored t + total_errors t)%nat.

(** The selected candidates of a pass whose prompt is in the eval set. *)
Definition known_candidates (by_id : pydict prompt) (f : string -> fate)
    (pids : list string) : list string :=
  filter (fun pid => fate_eqb (f pid) Rescored && dict_mem by_id pid) pids.

(** ** [scripts/providers.py]: [get_provider] *)

Module Providers.

(** The keys [get_provider] reads from the configuration of a model. *)
Record provider_config : Type := {
  provider : string;
  model : string;
  api_key_env : option string;
  base_url : option string;
  region : option string
}.

(** The object built: its class and the arguments of its constructor. *)
Inductive provider_object : Type :=
  | OllamaProvider (m url : string)
  | AnthropicProvider (m key : string)
  | OpenAIProvider (m key url : string)
  | GoogleProvider (m key : string)
  | BedrockProvider (m : string) (reg : option string).

(** What a call does: the object built, the [ValueError] of
    [get_provider], or the exception raised by the constructor of the
    object ([BedrockProvider.__init__] imports [boto3] and creates a
    client, the others create an [httpx.Client]). *)
Inductive outcome : Type :=
  | Built (p : provider_object)
  | ValueError (msg : string)
  | ConstructorRaised (p : provider_object) (msg : string).

(** A constructor call; [construct p] is [None] when the constructor
    returns and the message of the exception when it raises. *)
Definition new (construct : provider_object -> option string)
    (p : provider_object) : outcome :=
  match construct p with
  | None => Built p
  | Some msg => ConstructorRaised p msg
  end.

(** [get_provider]; [environ] is [os.environ]. *)
Definition get_provider (environ : string -> option string)
    (construct : provider_object -> option string)
    (config : provider_config) : outcome :=
  let provider_type := provider config in
  if String.eqb provider_type "ollama" then
    new construct
      (OllamaProvider (model config)
         (opt_default "http://localhost:11434/v1" (base_url config)))
  else
    let key_env := opt_default EmptyString (api_key_env config) in
    let api_key := if negb (String.eqb key_env "none")
                   then opt_default EmptyString (environ key_env)
                   else "none" in
    if String.eqb api_key EmptyString && negb (String.eqb key_env "none") then
      ValueError ("Set env var " ++ key_env ++ " with your API key")
    else if String.eqb provider_type "anthropic" then
      new construct (AnthropicProvider (model config) api_key)
    else if String.eqb provider_type "openai"
            || String.eqb provider_type "openai_compatible" then
      new construct
        (OpenAIProvider (model config) api_key
           (opt_default "https://api.openai.com/v1" (base_url config)))
    else if String.eqb provider_type "google" then
      new construct (GoogleProvider (model config) api_key)
    else if String.eqb provider_type "bedrock" then
      new construct (BedrockProvider (model config) (region config))
    else ValueError ("Unknown provider: " ++ provider_type).

(** The constructor call [get_provider] gets to, as [Built], or the
    [ValueError] it raises before any. *)
Definition provider_call (environ : string -> option string)
    (config : provider_config) : outcome :=
  get_provider environ (fun _ => None) config.

(** The provider types that need the key check. *)
Definition keyed_providers : list string :=
  ["anthropic"; "openai"; "openai_compatible"; "google"; "bedrock"].

(** The environment variable named by the configuration holds a key. *)
Definition key_is_set (environ : string -> option string)
    (config : provider_config) : Prop :=
  exists k, environ (opt_default EmptyString (api_key_env config)) = Some k
            /\ k <> EmptyString.

End Providers.

(** A Bedrock model configured without [api_key_env], and an empty
    environment. *)
Definition bedrock_config : Providers.provider_config :=
  {| Providers.provider := "bedrock";
     Providers.model := "anthropic.claude-3";
     Providers.api_key_env := None;
     Providers.base_url := None;
     Providers.region := Some "eu-west-1" |}.

Definition empty_environ : string -> option string := fun _ => None.

(** What [score_with_deepeval] records for one metric: the measured score
    rounded to 4 decimals, null when the measurement has no score or
    raises. *)
Definition metric_entry (env : collaborators) (now : nat) (metric_name : string)
    (pmeta : prompt) (response : string) : option Q :=
  match measure env now metric_name pmeta response with
  | MetricScore (Some s) => Some (F64.round s 4)
  | MetricScore None => None
  | MetricRaised _ => None
  end.


(** ** The rest of the report of [cmd_compare], and [cmd_models] *)

(** [run.get("auto_checks", {}).get("flags", [])]. *)
Definition flags_of (run : run_entry) : list string :=
  match auto_checks run with
  | Some ac => flags ac
  | None => []
  end.

(** The inner loop of the flag report for one prompt id: the flags of the
    latest run of each model that has some.  [None] is the [KeyError] of
    [models[name]]; [latest] is the [latest_run] of the file at hand. *)
Definition row_flags (latest : model_data -> string -> option run_entry)
    (models : pydict model_data) (names : list string) (pid : string)
  : option (pydict (list string)) :=
  fold_left
    (fun acc name =>
       match acc with
       | None => None
       | Some row =>
           match dict_get models name with
           | None => None
           | Some data =>
               match latest data pid with
               | Some run =>
                   match flags_of run with
                   | [] => Some row
                   | fl => Some (dict_set row name fl)
                   end
               | None => Some row
               end
           end
       end)
    names (Some []).

(** NOTABLE FLAGS of [cmd_compare]: one item [(pid, subcategory, row_flags)]
    per prompt id with a flagged model; with no item the report prints
    "None".  [None] is an exception raised on the way. *)
Definition notable_flags (leaderboard : list compare_row)
    (models : pydict model_data) (prompts : list prompt)
  : option (list (string * string * pydict (list string))) :=
  let by_id := prompts_by_id prompts in
  fold_left
    (fun acc pid =>
       match acc with
       | None => None
       | Some items =>
           match row_flags latest_run models (map row_name leaderboard) pid with
           | None => None
           | Some [] => Some items
           | Some row =>
               let sub := match dict_get by_id pid with
                          | Some meta => subcategory meta
                          | None => "?"
                          end in
               Some (items ++ [(pid, sub, row)])
           end
       end)
    (map id prompts) (Some []).




(** [cmd_models], up to the date it shows: per evaluated model the number
    of stored prompt ids and the number of those whose latest run has a
    judge score.  [None] is "No models evaluated yet." *)
Definition cmd_models (disk0 : results_dir) (now : nat)
  : option (list (string * nat * nat)) :=
  match list_evaluated_models disk0 with
  | [] => None
  | models =>
      Some (map (fun name =>
                   let data := load_model_results disk0 now name in
                   let total := List.length (runs data) in
                   let scored :=
                     List.length
                       (filter (fun kv => match last (map Some (snd kv)) None with
                                          | Some run => is_some (judge_score run)
                                          | None => false
                                          end)
                          (runs data)) in
                   (name, total, scored))
              models)
  end.

(** ** The rest of [scripts/dashboard.py] *)

(** [del d[k]] for a key that is there. *)
Fixpoint dict_del {V : Type} (d : pydict V) (k : string) : pydict V :=
  match d with
  | [] => []
  | (k', v) :: rest =>
      if String.eqb k k' then rest else (k', v) :: dict_del rest k
  end.

(** [sorted(Path(RESULTS_DIR).glob("*.json"))]: the result files in the
    order of their file names, each with its stem and its content. *)
Fixpoint insert_by_path {V : Type} (f : string * V) (l : list (string * V))
  : list (string * V) :=
  match l with
  | [] => [f]
  | g :: rest =>
      if String.leb (fst f ++ ".json") (fst g ++ ".json") then f :: l
      else g :: insert_by_path f rest
  end.

Definition sorted_by_path {V : Type} (l : list (string * V)) : list (string * V) :=
  fold_right insert_by_path [] l.

(** [load_all_results]; a directory that is missing has no file. *)
Definition load_all_results (d : results_dir) : pydict model_data :=
  fold_left
    (fun models f =>
       if String.eqb (fst f) "comparison" then models
       else dict_set models (fst f) (snd f))
    (sorted_by_path d) [].

(** An item of the flag list of [compute_stats]. *)
Record flag_item : Type := {
  flag_id : string;
  flag_subcategory : string;
  flag_models : pydict (list string)
}.

(** The flag list of [compute_stats].  [None] is an exception raised on
    the way: the [StopIteration] of [next], the [KeyError] of
    [models[name]]. *)
Definition dashboard_flags (models : pydict model_data) (prompts : list prompt)
  : option (list flag_item) :=
  fold_left
    (fun acc pid =>
       match acc with
       | None => None
       | Some items =>
           match find (fun p => String.eqb (id p) pid) prompts with
           | None => None
           | Some p =>
               match row_flags Dashboard.latest_run models (dict_keys models) pid with
               | None => None
               | Some [] => Some items
               | Some row =>
                   Some (items ++ [{| flag_id := pid;
                                      flag_subcategory := subcategory p;
                                      flag_models := row |}])
               end
           end
       end)
    (map id prompts) (Some []).

(** [generate_dashboard], up to the leaderboard it renders: [None] is the
    return without a dashboard; [judge_model] and [composite_config] are
    what it reads from the configuration. *)
Definition generate_dashboard (d : results_dir) (judge_model : option string)
    (composite_config : option (option Q * option Q)) (prompts : list prompt)
  : option (list Dashboard.row) :=
  match load_all_results d with
  | [] => None
  | models =>
      let j := opt_default EmptyString judge_model in
      let models := if truthy_str judge_model && dict_mem models j
                    then dict_del models j
                    else models in
      Some (Dashboard.compute_stats models prompts composite_config)
  end.

(** ** Notions used in the statements on the reports *)


(** The items of a flag report that list a model. *)
Definition listing {A : Type} (models_of : A -> pydict (list string))
    (name : string) (items : list A) : list A :=
  filter (fun item => dict_mem (models_of item) name) items.

(** The latest runs that are flagged. *)
Definition flagged_runs (data : model_data) (pids : list string) : list run_entry :=
  filter has_flags (latest_runs data pids).


(** The files [generate_dashboard] shows: neither the report nor the
    judge model, when one is configured. *)
Definition shown_file (judge_model : option string) (f : string * model_data)
  : bool :=
  negb (String.eqb (fst f) "comparison")
  && negb (truthy_str judge_model
           && String.eqb (opt_default EmptyString judge_model) (fst f)).

(** The weights [compute_stats] takes from [composite_config]. *)
Definition weights_of (composite_config : option (option Q * option Q)) : Q * Q :=
  (match composite_config with Some (Some w, _) => w | _ => 1 # 2 end,
   match composite_config with Some (_, Some w) => w | _ => 1 # 2 end).

(** The result files of the judge model alone, and of a model and the
    judge. *)
Definition judge_file_only : results_dir := [("judge", one_run (judged_run 4))].

(** Is the latest run of model [n] for [pid] flagged? *)
Definition flagged_for (latest : model_data -> string -> option run_entry)
    (models : pydict model_data) (n pid : string) : bool :=
  match dict_get models n with
  | Some data => match latest data pid with
                 | Some run => has_flags run
                 | None => false
                 end
  | None => false
  end.

(** The model names [cmd_compare] works on. *)
Definition names_of (models : list string) (disk0 : results_dir) : list string :=
  match models with
  | [] => list_evaluated_models disk0
  | _ => models
  end.

(** A result set with a successful run of ["P1"] and a failed run of
    ["P2"]. *)
Definition mixed_runs : model_data :=
  {| model_name := "gpt-4o"; created := 0%nat; updated := Some 2%nat;
     runs := [("P1", [judged_run 4]); ("P2", [errored_run])] |}.

(** ** The score distribution of [compute_stats] *)

(** A dictionary with integer keys, here from a score to a count. *)
Fixpoint zdict_get (d : list (Z * nat)) (k : Z) : option nat :=
  match d with
  | [] => None
  | (k', v) :: rest => if Z.eqb k k' then Some v else zdict_get rest k
  end.

Fixpoint zdict_set (d : list (Z * nat)) (k : Z) (v : nat) : list (Z * nat) :=
  match d with
  | [] => [(k, v)]
  | (k', v') :: rest =>
      if Z.eqb k k' then (k', v) :: rest else (k', v') :: zdict_set rest k v
  end.

(** [dist = {1: 0, 2: 0, 3: 0, 4: 0, 5: 0}], then
    [dist[s] = dist.get(s, 0) + 1] for every score. *)
Definition score_dist (scores : list Z) : list (Z * nat) :=
  fold_left
    (fun dist s => zdict_set dist s (opt_default 0%nat (zdict_get dist s) + 1)%nat)
    scores
    [(1%Z, 0%nat); (2%Z, 0%nat); (3%Z, 0%nat); (4%Z, 0%nat); (5%Z, 0%nat)].

(** A logarithm for the examples: exact on the powers of two from 2 on,
    and a positive integer everywhere. *)
Definition sample_log2 (x : Q) : Q := inject_Z (Z.max 1 (Z.log2 (Qfloor x))).

(** * Properties *)

(** ** Dictionaries and histories *)

Section DictFacts.
Context {V : Type}.
Implicit Types (d : pydict V) (k : string) (v : V).

Lemma dict_get_set_same d k v : dict_get (dict_set d k v) k = Some v.
Proof.
  induction d as [|[k' v'] rest IH]; simpl.
  - now rewrite String.eqb_refl.
  - destruct (String.eqb k k') eqn:E; simpl; rewrite E; auto.
Qed.

Lemma dict_get_set_other d k k' v :
  k' <> k -> dict_get (dict_set d k v) k' = dict_get d k'.
Proof.
  intros Hne. induction d as [|[k0 v0] rest IH]; simpl.
  - apply String.eqb_neq in Hne. now rewrite Hne.
  - destruct (String.eqb k k0) eqn:E; simpl.
    + apply String.eqb_eq in E. subst k0.
      apply String.eqb_neq in Hne. now rewrite Hne.
    + now rewrite IH.
Qed.

Lemma dict_get_none_keys d k : dict_get d k = None <-> ~ In k (dict_keys d).
Proof.
  induction d as [|[k0 v0] rest IH]; simpl.
  - tauto.
  - destruct (String.eqb k k0) eqn:E.
    + apply String.eqb_eq in E. subst. split; [discriminate | tauto].
    + apply String.eqb_neq in E. rewrite IH. split.
      * intros H [H1 | H1]; [now subst | tauto].
      * tauto.
Qed.

Lemma dict_set_fresh d k v : dict_get d k = None -> dict_set d k v = d ++ [(k, v)].
Proof.
  induction d as [|[k0 v0] rest IH]; simpl; auto.
  destruct (String.eqb k k0); [discriminate |].
  intros H. now rewrite IH.
Qed.

Lemma dict_keys_set d k v :
  dict_keys (dict_set d k v)
  = if dict_mem d k then dict_keys d else dict_keys d ++ [k].
Proof.
  unfold dict_mem. induction d as [|[k0 v0] rest IH]; simpl; auto.
  destruct (String.eqb k k0) eqn:E; simpl; auto.
  rewrite IH. now destruct (dict_get rest k).
Qed.
End DictFacts.

Lemma last_some_app {A : Type} (l : list A) (e : A) :
  last (map Some (l ++ [e])) None = Some e.
Proof.
  rewrite map_app. simpl. apply last_last.
Qed.

Lemma latest_run_history data pid :
  latest_run data pid = last (map Some (history data pid)) None.
Proof.
  unfold latest_run, history. now destruct (dict_get (runs data) pid).
Qed.

Lemma history_append_same data pid entry :
  history (append_run data pid entry) pid = history data pid ++ [entry].
Proof.
  unfold history at 1. unfold append_run. simpl.
  rewrite dict_get_set_same. reflexivity.
Qed.

Lemma history_append_other data pid pid' entry :
  pid' <> pid -> history (append_run data pid entry) pid' = history data pid'.
Proof.
  intros Hne. unfold history, append_run. simpl.
  now rewrite dict_get_set_other.
Qed.

Lemma latest_run_append_same data pid entry :
  latest_run (append_run data pid entry) pid = Some entry.
Proof.
  rewrite latest_run_history, history_append_same. apply last_some_app.
Qed.

Lemma latest_run_append_other data pid pid' entry :
  pid' <> pid -> latest_run (append_run data pid entry) pid' = latest_run data pid'.
Proof.
  intros Hne. now rewrite !latest_run_history, history_append_other.
Qed.


Lemma history_append_all data pid entries :
  history (append_all data pid entries) pid = history data pid ++ entries.
Proof.
  revert data. induction entries as [|e es IH]; intros data; simpl.
  - now rewrite app_nil_r.
  - unfold append_all in *. simpl. rewrite IH, history_append_same.
    now rewrite <- app_assoc.
Qed.

Lemma history_append_all_other data pid pid' entries :
  pid' <> pid -> history (append_all data pid entries) pid' = history data pid'.
Proof.
  intros Hne. revert data. induction entries as [|e es IH]; intros data; simpl; auto.
  unfold append_all in *. simpl. rewrite IH. now apply history_append_other.
Qed.

(** C7. The history of a (model, prompt id) only grows at its end: after
    any number of appends the earlier entries are all there, unchanged
    and in place; each append makes the history one longer and leaves
    the other prompt ids alone; the latest run is the entry appended
    last; and a model with no persisted file, or a prompt id with no
    runs, has the empty sentinel as its latest run. *)
Theorem history_is_append_only :
  (forall data pid entries,
      history (append_all data pid entries) pid = history data pid ++ entries)
  /\ (forall data pid entry,
         List.length (history (append_run data pid entry) pid)
         = S (List.length (history data pid)))
  /\ (forall data pid pid' entry,
         pid' <> pid -> history (append_run data pid entry) pid' = history data pid')
  /\ (forall data pid entries entry,
         latest_run (append_all data pid (entries ++ [entry])) pid = Some entry)
  /\ (forall data pid, history data pid = [] -> latest_run data pid = None)
  /\ (forall disk0 now name pid,
         dict_get disk0 name = None ->
         runs (load_model_results disk0 now name) = []
         /\ latest_run (load_model_results disk0 now name) pid = None).
Proof.
  repeat split.
  - apply history_append_all.
  - intros. rewrite history_append_same, length_app. simpl. lia.
  - intros. now apply history_append_other.
  - intros. rewrite latest_run_history, history_append_all, app_assoc.
    apply last_some_app.
  - intros data pid H. now rewrite latest_run_history, H.
  - unfold load_model_results. now rewrite H.
  - unfold load_model_results. now rewrite H.
Qed.

Lemma history_is_append_only_witness :
  dict_get ([] : results_dir) "gpt-4o" = None
  /\ latest_run (load_model_results [] 0 "gpt-4o") "C01" = None.
Proof.
  split; [reflexivity |].
  apply (proj2 (proj2 (proj2 (proj2 (proj2 history_is_append_only))))
           [] 0%nat "gpt-4o" "C01" eq_refl).
Defined.

(** ** The evaluation loop *)


Lemma history_save disk0 now name data pid :
  history (snd (save_model_results disk0 now name data)) pid = history data pid.
Proof. reflexivity. Qed.

Lemma eval_step_mem cfg env name st p :
  runs (mem (eval_step cfg env name st p))
  = runs (append_run (mem st) (id p) (eval_entry cfg env name (clock st) p)).
Proof. reflexivity. Qed.

Lemma eval_step_clock cfg env name st p :
  clock (eval_step cfg env name st p) = S (S (clock st)).
Proof. reflexivity. Qed.

Lemma history_runs data data' pid :
  runs data = runs data' -> history data pid = history data' pid.
Proof. unfold history. now intros ->. Qed.

Lemma eval_loop_history cfg env name prompts st pid :
  history (mem (eval_loop cfg env name prompts st)) pid
  = history (mem st) pid
    ++ entries_for pid (eval_trace cfg env name (clock st) prompts).
Proof.
  revert st. induction prompts as [|p rest IH]; intros st.
  - simpl. now rewrite app_nil_r.
  - unfold eval_loop in *. cbn [fold_left eval_trace]. rewrite IH.
    rewrite eval_step_clock.
    rewrite (history_runs _ _ pid (eval_step_mem cfg env name st p)).
    unfold entries_for. cbn [filter fst].
    destruct (String.eqb (id p) pid) eqn:E.
    + apply String.eqb_eq in E. subst pid.
      rewrite history_append_same. cbn [map snd]. now rewrite <- app_assoc.
    + apply String.eqb_neq in E.
      rewrite history_append_other by congruence. reflexivity.
Qed.

Lemma eval_loop_clock cfg env name prompts st :
  clock (eval_loop cfg env name prompts st)
  = (clock st + 2 * List.length prompts)%nat.
Proof.
  revert st. induction prompts as [|p rest IH]; intros st; simpl.
  - lia.
  - unfold eval_loop in *. simpl. rewrite IH, eval_step_clock. lia.
Qed.

Lemma eval_trace_app cfg env name t l1 l2 :
  eval_trace cfg env name t (l1 ++ l2)
  = eval_trace cfg env name t l1
    ++ eval_trace cfg env name (t + 2 * List.length l1) l2.
Proof.
  revert t. induction l1 as [|p rest IH]; intros t; simpl.
  - now rewrite Nat.add_0_r.
  - rewrite IH. do 3 f_equal. lia.
Qed.

(** The entry of the prompt at any position of the batch is in its
    history when the loop is over. *)
Lemma eval_loop_entry_in cfg env name before p after st :
  In (eval_entry cfg env name (clock st + 2 * List.length before) p)
     (history (mem (eval_loop cfg env name (before ++ p :: after) st)) (id p)).
Proof.
  rewrite eval_loop_history, eval_trace_app. apply in_or_app. right.
  unfold entries_for. apply in_map_iff.
  exists (id p, eval_entry cfg env name (clock st + 2 * List.length before) p).
  split; [reflexivity |]. apply filter_In. split.
  - apply in_or_app. right. simpl. now left.
  - simpl. apply String.eqb_refl.
Qed.

Lemma dict_set_total {A : Type} (d : pydict (list A)) k (e : A) :
  List.length (List.concat (map snd (dict_set d k (opt_default [] (dict_get d k) ++ [e]))))
  = S (List.length (List.concat (map snd d))).
Proof.
  induction d as [|[k0 v0] rest IH]; simpl.
  - reflexivity.
  - destruct (String.eqb k k0) eqn:E; simpl.
    + rewrite !length_app. simpl. lia.
    + rewrite !length_app, IH. lia.
Qed.

Lemma total_entries_append data pid entry :
  total_entries (append_run data pid entry) = S (total_entries data).
Proof.
  unfold total_entries, append_run. simpl.
  rewrite <- (dict_set_total (runs data) pid entry).
  unfold opt_default, history. reflexivity.
Qed.

Lemma eval_loop_total cfg env name prompts st :
  total_entries (mem (eval_loop cfg env name prompts st))
  = (total_entries (mem st) + List.length prompts)%nat.
Proof.
  revert st. induction prompts as [|p rest IH]; intros st; simpl.
  - lia.
  - unfold eval_loop in *. simpl. rewrite IH.
    unfold total_entries at 1. rewrite eval_step_mem.
    fold (total_entries (append_run (mem st) (id p)
                           (eval_entry cfg env name (clock st) p))).
    rewrite total_entries_append. lia.
Qed.

(** After a non-empty loop the file of the model holds what is in memory. *)
Lemma eval_loop_saved cfg env name prompts st :
  prompts <> [] ->
  dict_get (disk (eval_loop cfg env name prompts st)) name
  = Some (mem (eval_loop cfg env name prompts st)).
Proof.
  intros Hne. destruct (exists_last Hne) as (front & p & ->).
  unfold eval_loop. rewrite fold_left_app. simpl.
  unfold eval_step at 1 3. simpl. apply dict_get_set_same.
Qed.

(** ** [cmd_eval] as a whole *)

Lemma eval_todo_nil data rerun : eval_todo data [] rerun = [].
Proof. reflexivity. Qed.

(** When the model is configured, its provider initialises and something
    is left to run, [cmd_eval] is the loop over what is left. *)
Lemma cmd_eval_done cfg env name prompts rerun disk0 now todo :
  dict_mem (models_cfg cfg) name = true ->
  str_in name (providers_ok cfg) = true ->
  eval_todo (load_model_results disk0 now name) prompts rerun = todo ->
  todo <> [] ->
  cmd_eval cfg env name prompts rerun disk0 now
  = (EvalDone,
     eval_loop cfg env name todo
       {| clock := S now; disk := disk0;
          mem := load_model_results disk0 now name |}).
Proof.
  intros Hcfg Hprov Htodo Hne. unfold cmd_eval. rewrite Hcfg, Hprov. simpl.
  destruct prompts as [|p0 ps].
  - rewrite eval_todo_nil in Htodo. congruence.
  - rewrite Htodo. destruct todo; [congruence | reflexivity].
Qed.

(** C5. In [cmd_eval], when the provider answers a prompt and the judge
    that is set up is called on the answer (the checker, which runs
    first inside the same [try], has returned) and fails on it (its
    verdict carries no score), the run goes on: the entry of that prompt
    is in the history with the response as content, the result of the
    checker, no judge score and no error; every later prompt of the
    batch gets its entry too; one entry per prompt was appended; and the
    file of the model holds all of it. *)
Theorem judge_failure_does_not_abort
    cfg env name prompts rerun disk0 now before p after text usage_in usage_out el
    auto :
  let t := (S now + 2 * List.length before)%nat in
  let data := load_model_results disk0 now name in
  dict_mem (models_cfg cfg) name = true ->
  str_in name (providers_ok cfg) = true ->
  eval_todo data prompts rerun = before ++ p :: after ->
  eval_judge_provider cfg name = true ->
  complete env t p = Completed text usage_in usage_out el ->
  check_response env t p text = Checked auto ->
  jr_judge_score (judge_response env t p text auto) = None ->
  exists final entry,
    cmd_eval cfg env name prompts rerun disk0 now = (EvalDone, final)
    /\ In entry (history (mem final) (id p))
    /\ content entry = text
    /\ auto_checks entry = Some auto
    /\ judge_score entry = None
    /\ error entry = None
    /\ (forall mid q rest, after = mid ++ q :: rest ->
          In (eval_entry cfg env name
                (t + 2 * S (List.length mid)) q)
             (history (mem final) (id q)))
    /\ total_entries (mem final)
       = (total_entries data + List.length (before ++ p :: after))%nat
    /\ dict_get (disk final) name = Some (mem final).
Proof.
  intros t data Hcfg Hprov Htodo Hjudge Hcomp Hcheck Hfail.
  assert (Hne : before ++ p :: after <> []) by (now destruct before).
  pose proof (cmd_eval_done cfg env name prompts rerun disk0 now _
                Hcfg Hprov Htodo Hne) as Hrun.
  eexists. exists (eval_entry cfg env name t p).
  split; [exact Hrun |].
  split; [apply (eval_loop_entry_in cfg env name before p after
                   {| clock := S now; disk := disk0; mem := data |}) |].
  split; [unfold eval_entry; now rewrite Hcomp, Hcheck |].
  split; [unfold eval_entry; now rewrite Hcomp, Hcheck |].
  split; [unfold eval_entry; rewrite Hcomp, Hcheck, Hjudge; exact Hfail |].
  split; [unfold eval_entry; now rewrite Hcomp, Hcheck |].
  split; [| split].
  - intros mid q rest ->.
    replace (before ++ p :: mid ++ q :: rest)
      with ((before ++ p :: mid) ++ q :: rest)
      by (now rewrite <- app_assoc).
    pose proof (eval_loop_entry_in cfg env name (before ++ p :: mid) q rest
                  {| clock := S now; disk := disk0; mem := data |}) as Hin.
    cbn [clock] in Hin. rewrite length_app in Hin. cbn [List.length] in Hin.
    replace (t + 2 * S (List.length mid))%nat
      with (S now + 2 * (List.length before + S (List.length mid)))%nat
      by (unfold t; lia).
    exact Hin.
  - now rewrite eval_loop_total.
  - now apply eval_loop_saved.
Qed.

Lemma judge_failure_does_not_abort_witness :
  exists final entry,
    cmd_eval sample_cfg sample_env "gpt-4o" [sample_prompt "P1"; sample_prompt "P2"]
      false [] 0 = (EvalDone, final)
    /\ In entry (history (mem final) "P1")
    /\ content entry = "answer to P1"
    /\ judge_score entry = None
    /\ error entry = None.
Proof.
  destruct (judge_failure_does_not_abort sample_cfg sample_env "gpt-4o"
              [sample_prompt "P1"; sample_prompt "P2"] false [] 0%nat
              [] (sample_prompt "P1") [sample_prompt "P2"]
              "answer to P1" (Some 12%Z) (Some 40%Z) (3 # 2) default_auto_checks
              eq_refl eq_refl eq_refl eq_refl eq_refl eq_refl eq_refl)
    as (final & entry & Hrun & Hin & Hc & _ & Hj & He & _).
  exists final, entry. auto.
Defined.



(** ** Which prompts [cmd_eval] runs *)


Lemma str_in_In x xs : str_in x xs = true <-> In x xs.
Proof.
  unfold str_in. rewrite existsb_exists. split.
  - intros (y & Hy & E). apply String.eqb_eq in E. now subst.
  - intros H. exists x. split; auto. apply String.eqb_refl.
Qed.




Lemma entries_for_absent cfg env name t prompts pid :
  ~ In pid (map id prompts) ->
  entries_for pid (eval_trace cfg env name t prompts) = [].
Proof.
  revert t. induction prompts as [|p ps IH]; intros t Hn; simpl; auto.
  unfold entries_for in *. simpl.
  destruct (String.eqb (id p) pid) eqn:E.
  - apply String.eqb_eq in E. exfalso. apply Hn. simpl. now left.
  - apply IH. intros Hin. apply Hn. simpl. now right.
Qed.




(** ** The two loops of a re-scoring pass *)

Lemma fate_eqb_eq a b : fate_eqb a b = true <-> a = b.
Proof. destruct a, b; simpl; split; congruence. Qed.

Lemma rejudge_select_spec force judge_name data pids t :
  fst (rejudge_select force judge_name data pids t)
  = filter (fun pid => fate_eqb (rejudge_fate force judge_name (latest_run data pid))
                         Rescored) pids
  /\ total_skipped (snd (rejudge_select force judge_name data pids t))
     = (total_skipped t
        + count_fate (fun pid => rejudge_fate force judge_name (latest_run data pid))
            Skipped pids)%nat.
Proof.
  unfold rejudge_select, count_fate.
  set (step := fun (acc : list string * totals) pid => _).
  assert (forall l acc0 t0,
            fst (fold_left step l (acc0, t0))
            = acc0 ++ filter (fun pid => fate_eqb
                  (rejudge_fate force judge_name (latest_run data pid)) Rescored) l
            /\ total_skipped (snd (fold_left step l (acc0, t0)))
               = (total_skipped t0
                  + List.length (filter (fun pid => fate_eqb
                      (rejudge_fate force judge_name (latest_run data pid)) Skipped) l))%nat)
    as H.
  { induction l as [|pid l IH]; intros acc0 t0; cbn [fold_left filter].
    - simpl. rewrite app_nil_r. split; auto.
    - unfold step at 2 4. cbn beta iota. unfold rejudge_fate.
      destruct (latest_run data pid) as [run|]; [| simpl; apply IH].
      destruct (truthy_str (error run)); [simpl; apply IH |].
      destruct (negb force && judged_by judge_name run); simpl.
      + destruct (IH acc0 (count_skipped t0)) as [-> ->]. simpl. split; auto; lia.
      + destruct (IH (acc0 ++ [pid]) t0) as [-> ->]. rewrite <- app_assoc.
        split; auto. }
  destruct (H pids [] t) as [H1 H2]. split; auto.
Qed.

Lemma deepeval_select_spec force data pids t :
  fst (deepeval_select force data pids t)
  = filter (fun pid => fate_eqb (deepeval_fate force (latest_run data pid)) Rescored)
      pids
  /\ total_skipped (snd (deepeval_select force data pids t))
     = (total_skipped t
        + count_fate (fun pid => deepeval_fate force (latest_run data pid))
            Skipped pids)%nat.
Proof.
  unfold deepeval_select, count_fate.
  set (step := fun (acc : list string * totals) pid => _).
  assert (forall l acc0 t0,
            fst (fold_left step l (acc0, t0))
            = acc0 ++ filter (fun pid => fate_eqb
                  (deepeval_fate force (latest_run data pid)) Rescored) l
            /\ total_skipped (snd (fold_left step l (acc0, t0)))
               = (total_skipped t0
                  + List.length (filter (fun pid => fate_eqb
                      (deepeval_fate force (latest_run data pid)) Skipped) l))%nat)
    as H.
  { induction l as [|pid l IH]; intros acc0 t0; cbn [fold_left filter].
    - simpl. rewrite app_nil_r. split; auto.
    - unfold step at 2 4. cbn beta iota. unfold deepeval_fate.
      destruct (latest_run data pid) as [run|]; [| simpl; apply IH].
      destruct (truthy_str (error run)); [simpl; apply IH |].
      destruct (negb force && truthy_list (deepeval_scores run)); simpl.
      + destruct (IH acc0 (count_skipped t0)) as [-> ->]. simpl. split; auto; lia.
      + destruct (IH (acc0 ++ [pid]) t0) as [-> ->]. rewrite <- app_assoc.
        split; auto. }
  destruct (H pids [] t) as [H1 H2]. split; auto.
Qed.

(** A second loop whose turns either leave the result set alone or append
    one entry under the id at hand, and never touch the skipped counter. *)
Section SecondLoop.
Variable step : pass -> string -> pass.
Hypothesis step_local :
  forall st pid,
    pass_data (step st pid) = pass_data st
    \/ exists e, pass_data (step st pid) = append_run (pass_data st) pid e.
Hypothesis step_skipped :
  forall st pid,
    total_skipped (pass_totals (step st pid)) = total_skipped (pass_totals st).

Lemma loop_skipped l st :
  total_skipped (pass_totals (fold_left step l st))
  = total_skipped (pass_totals st).
Proof.
  revert st. induction l as [|q l IH]; intros st; simpl; auto.
  now rewrite IH, step_skipped.
Qed.

Lemma step_other st q pid :
  pid <> q -> history (pass_data (step st q)) pid = history (pass_data st) pid.
Proof.
  intros Hne. destruct (step_local st q) as [-> | [e ->]]; auto.
  now apply history_append_other.
Qed.

Lemma loop_other l st pid :
  ~ In pid l ->
  history (pass_data (fold_left step l st)) pid = history (pass_data st) pid.
Proof.
  revert st. induction l as [|q l IH]; intros st Hn; simpl; auto.
  rewrite IH by (intros H; apply Hn; now right).
  apply step_other. intros ->. apply Hn. now left.
Qed.

(** With distinct ids, the history of a candidate is changed by its own
    turn only, and that turn sees the latest run the pass started from. *)
Lemma loop_own l st pid :
  NoDup l -> In pid l ->
  exists st1,
    history (pass_data st1) pid = history (pass_data st) pid
    /\ history (pass_data (fold_left step l st)) pid
       = history (pass_data (step st1 pid)) pid.
Proof.
  intros Hnd Hin. apply in_split in Hin. destruct Hin as (l1 & l2 & ->).
  apply NoDup_remove_2 in Hnd.
  assert (~ In pid l1 /\ ~ In pid l2) as [H1 H2].
  { split; intros H; apply Hnd; apply in_or_app; auto. }
  exists (fold_left step l1 st). split.
  - now apply loop_other.
  - rewrite fold_left_app. simpl. now apply loop_other.
Qed.
End SecondLoop.

Lemma rejudge_step_local env judge_name by_id st pid :
  pass_data (rejudge_step env judge_name by_id st pid) = pass_data st
  \/ exists e, pass_data (rejudge_step env judge_name by_id st pid)
               = append_run (pass_data st) pid e.
Proof.
  unfold rejudge_step. destruct (dict_get by_id pid); auto.
  destruct (latest_run (pass_data st) pid); auto.
  right. eexists. reflexivity.
Qed.

Lemma rejudge_step_skipped env judge_name by_id st pid :
  total_skipped (pass_totals (rejudge_step env judge_name by_id st pid))
  = total_skipped (pass_totals st).
Proof.
  unfold rejudge_step. destruct (dict_get by_id pid); auto.
  destruct (latest_run (pass_data st) pid); auto. simpl.
  now destruct (is_some _).
Qed.

Lemma deepeval_step_local cfg env by_id st pid :
  pass_data (deepeval_step cfg env by_id st pid) = pass_data st
  \/ exists e, pass_data (deepeval_step cfg env by_id st pid)
               = append_run (pass_data st) pid e.
Proof.
  unfold deepeval_step. destruct (dict_get by_id pid); auto.
  destruct (latest_run (pass_data st) pid); auto.
  destruct (score_with_deepeval _ _ _ _ _); auto.
  right. eexists. reflexivity.
Qed.

Lemma deepeval_step_skipped cfg env by_id st pid :
  total_skipped (pass_totals (deepeval_step cfg env by_id st pid))
  = total_skipped (pass_totals st).
Proof.
  unfold deepeval_step. destruct (dict_get by_id pid); auto.
  destruct (latest_run (pass_data st) pid); auto.
  destruct (score_with_deepeval _ _ _ _ _); auto. simpl.
  now destruct (is_some _).
Qed.

Lemma latest_run_some_key data pid run :
  latest_run data pid = Some run -> In pid (dict_keys (runs data)).
Proof.
  unfold latest_run. destruct (dict_get (runs data) pid) eqn:E; [| discriminate].
  intros _. destruct (in_dec string_dec pid (dict_keys (runs data))); auto.
  apply dict_get_none_keys in n. congruence.
Qed.

Lemma latest_run_of_history data data' pid :
  history data' pid = history data pid -> latest_run data' pid = latest_run data pid.
Proof. intros H. now rewrite !latest_run_history, H. Qed.

Lemma history_load_saved disk0 now now' name data pid :
  history
    (load_model_results (fst (save_model_results disk0 now name data)) now' name) pid
  = history data pid.
Proof.
  unfold load_model_results, save_model_results. cbn [fst].
  now rewrite dict_get_set_same.
Qed.

(** One model under [cmd_rejudge]. *)
Lemma rejudge_model_spec env force judge_name by_id w name pid :
  name <> judge_name ->
  NoDup (dict_keys (runs (load_model_results (rs_disk w) (rs_clock w) name))) ->
  let data := load_model_results (rs_disk w) (rs_clock w) name in
  let w' := rejudge_model env force judge_name by_id w name in
  let data' := load_model_results (rs_disk w') (rs_clock w') name in
  let fate_of := fun q => rejudge_fate force judge_name (latest_run data q) in
  total_skipped (rs_totals w')
  = (total_skipped (rs_totals w)
     + count_fate fate_of Skipped (dict_keys (runs data)))%nat
  /\ (fate_of pid <> Rescored -> history data' pid = history data pid)
  /\ (dict_get by_id pid = None -> history data' pid = history data pid)
  /\ (forall run pmeta,
         fate_of pid = Rescored ->
         latest_run data pid = Some run ->
         dict_get by_id pid = Some pmeta ->
         exists t,
           history data' pid
           = history data pid
             ++ [rejudge_entry t judge_name run
                   (judge_response env t pmeta (content run)
                      (opt_default default_auto_checks (auto_checks run)))]).
Proof.
  intros Hname Hnd data w' data' fate_of.
  subst w' data'. unfold rejudge_model.
  apply String.eqb_neq in Hname. rewrite Hname. fold data.
  destruct (runs data) as [|kv rest] eqn:Hruns.
  { (* no results: the model is skipped *)
    fold data. unfold count_fate. simpl.
    assert (forall q, latest_run data q = None) as Hnone.
    { intros q. unfold latest_run. now rewrite Hruns. }
    repeat split; auto.
    intros run pmeta _ Hl. rewrite Hnone in Hl. discriminate. }
  rewrite <- Hruns.
  pose proof (rejudge_select_spec force judge_name data (dict_keys (runs data))
                (rs_totals w)) as [Hsel Hskip].
  destruct (rejudge_select force judge_name data (dict_keys (runs data)) (rs_totals w))
    as [to_judge t] eqn:Esel.
  cbn [fst snd] in Hsel, Hskip.
  assert (Hmem : fate_of pid = Rescored -> In pid to_judge).
  { intros Hf. rewrite Hsel. apply filter_In. split.
    - unfold fate_of, rejudge_fate in Hf.
      destruct (latest_run data pid) eqn:El; [| discriminate].
      eapply latest_run_some_key; eauto.
    - apply fate_eqb_eq. exact Hf. }
  assert (Hnot : fate_of pid <> Rescored -> ~ In pid to_judge).
  { intros Hf Hin. rewrite Hsel in Hin. apply filter_In in Hin.
    destruct Hin as [_ Hin]. apply fate_eqb_eq in Hin. contradiction. }
  destruct to_judge as [|q0 qs] eqn:Eto.
  { (* nothing to judge: no save *)
    cbn [rs_totals rs_disk rs_clock]. fold data.
    repeat split; auto.
    intros run pmeta Hf _ _. destruct (Hmem Hf). }
  rewrite <- Eto in *. clear Eto q0 qs.
  set (st0 := {| pass_clock := rs_clock w; pass_data := data; pass_totals := t |}).
  set (step := rejudge_step env judge_name by_id).
  assert (Hndj : NoDup to_judge).
  { rewrite Hsel. apply NoDup_filter. exact Hnd. }
  unfold save_model_results. cbn [rs_totals rs_disk rs_clock].
  assert (Hload : forall q,
            history (load_model_results
                       (dict_set (rs_disk w) name
                          {| model_name := model_name (pass_data (fold_left step to_judge st0));
                             created := created (pass_data (fold_left step to_judge st0));
                             updated := Some (pass_clock (fold_left step to_judge st0));
                             runs := runs (pass_data (fold_left step to_judge st0)) |})
                       (S (pass_clock (fold_left step to_judge st0))) name) q
            = history (pass_data (fold_left step to_judge st0)) q).
  { intros q. unfold load_model_results. now rewrite dict_get_set_same. }
  split; [| split; [| split]].
  - unfold step. rewrite loop_skipped by apply rejudge_step_skipped. exact Hskip.
  - intros Hf. rewrite Hload. unfold step.
    rewrite loop_other; auto. apply rejudge_step_local.
  - intros Hby. rewrite Hload.
    destruct (in_dec string_dec pid to_judge) as [Hin | Hnin].
    + destruct (loop_own step (rejudge_step_local env judge_name by_id)
                  to_judge st0 pid Hndj Hin) as (st1 & H1 & H2).
      rewrite H2. unfold step, rejudge_step. rewrite Hby. exact H1.
    + unfold step. rewrite loop_other; auto. apply rejudge_step_local.
  - intros run pmeta Hf Hl Hby. rewrite Hload.
    destruct (loop_own step (rejudge_step_local env judge_name by_id)
                to_judge st0 pid Hndj (Hmem Hf)) as (st1 & H1 & H2).
    rewrite H2. exists (pass_clock st1).
    unfold step, rejudge_step. rewrite Hby.
    rewrite (latest_run_of_history _ _ _ H1). cbn [pass_data st0]. rewrite Hl.
    cbn [pass_data]. rewrite history_append_same, H1. reflexivity.
Qed.

Lemma score_with_deepeval_returns cfg env t pmeta response :
  deepeval_imports env = true ->
  exists scores avg,
    score_with_deepeval cfg env t pmeta response = DeepEvalResult scores avg.
Proof.
  intros H. unfold score_with_deepeval. rewrite H. simpl. eauto.
Qed.

(** One model under [cmd_deepeval]. *)
Lemma deepeval_model_spec cfg env force by_id filter_pids w name pid :
  NoDup (dict_keys (runs (load_model_results (rs_disk w) (rs_clock w) name))) ->
  let data := load_model_results (rs_disk w) (rs_clock w) name in
  let w' := deepeval_model cfg env force by_id filter_pids w name in
  let data' := load_model_results (rs_disk w') (rs_clock w') name in
  let fate_of := fun q => deepeval_fate force (latest_run data q) in
  let candidates := deepeval_candidates filter_pids data in
  total_skipped (rs_totals w')
  = (total_skipped (rs_totals w) + count_fate fate_of Skipped candidates)%nat
  /\ (fate_of pid <> Rescored -> history data' pid = history data pid)
  /\ (~ In pid candidates -> history data' pid = history data pid)
  /\ (dict_get by_id pid = None -> history data' pid = history data pid)
  /\ (deepeval_imports env = false -> history data' pid = history data pid)
  /\ (forall run pmeta,
         fate_of pid = Rescored ->
         In pid candidates ->
         latest_run data pid = Some run ->
         dict_get by_id pid = Some pmeta ->
         deepeval_imports env = true ->
         exists t scores avg,
           score_with_deepeval cfg env t pmeta (content run)
           = DeepEvalResult scores avg
           /\ history data' pid
              = history data pid ++ [deepeval_entry t run scores avg]).
Proof.
  intros Hnd data w' data' fate_of candidates.
  subst w' data'. unfold deepeval_model. fold data.
  destruct (runs data) as [|kv rest] eqn:Hruns.
  { fold data. unfold count_fate, candidates, deepeval_candidates.
    rewrite Hruns. simpl.
    replace (if truthy_list filter_pids then [] else []) with (@nil string)
      by (now destruct (truthy_list filter_pids)).
    simpl. repeat split; auto.
    intros run pmeta _ [] . }
  rewrite <- Hruns.
  change (if truthy_list filter_pids
          then filter (fun p => str_in p (opt_list filter_pids)) (dict_keys (runs data))
          else dict_keys (runs data)) with candidates.
  assert (Hndc : NoDup candidates).
  { unfold candidates, deepeval_candidates.
    destruct (truthy_list filter_pids); auto. now apply NoDup_filter. }
  pose proof (deepeval_select_spec force data candidates (rs_totals w))
    as [Hsel Hskip].
  destruct (deepeval_select force data candidates (rs_totals w))
    as [to_score t] eqn:Esel.
  cbn [fst snd] in Hsel, Hskip.
  assert (Hmem : fate_of pid = Rescored -> In pid candidates -> In pid to_score).
  { intros Hf Hc. rewrite Hsel. apply filter_In. split; auto.
    apply fate_eqb_eq. exact Hf. }
  assert (Hnot : fate_of pid <> Rescored -> ~ In pid to_score).
  { intros Hf Hin. rewrite Hsel in Hin. apply filter_In in Hin.
    destruct Hin as [_ Hin]. apply fate_eqb_eq in Hin. contradiction. }
  assert (Hnotc : ~ In pid candidates -> ~ In pid to_score).
  { intros Hc Hin. rewrite Hsel in Hin. apply filter_In in Hin. tauto. }
  destruct to_score as [|q0 qs] eqn:Eto.
  { cbn [rs_totals rs_disk rs_clock]. fold data.
    repeat split; auto.
    intros run pmeta Hf Hc _ _ _. destruct (Hmem Hf Hc). }
  rewrite <- Eto in *. clear Eto q0 qs.
  set (st0 := {| pass_clock := rs_clock w; pass_data := data; pass_totals := t |}).
  set (step := deepeval_step cfg env by_id).
  assert (Hndj : NoDup to_score).
  { rewrite Hsel. apply NoDup_filter. exact Hndc. }
  unfold save_model_results. cbn [rs_totals rs_disk rs_clock].
  assert (Hload : forall q,
            history (load_model_results
                       (dict_set (rs_disk w) name
                          {| model_name := model_name (pass_data (fold_left step to_score st0));
                             created := created (pass_data (fold_left step to_score st0));
                             updated := Some (pass_clock (fold_left step to_score st0));
                             runs := runs (pass_data (fold_left step to_score st0)) |})
                       (S (pass_clock (fold_left step to_score st0))) name) q
            = history (pass_data (fold_left step to_score st0)) q).
  { intros q. unfold load_model_results. now rewrite dict_get_set_same. }
  assert (Hown : forall (P : list run_entry -> Prop),
            (In pid to_score ->
             forall st1, history (pass_data st1) pid = history data pid ->
                         P (history (pass_data (step st1 pid)) pid)) ->
            (~ In pid to_score -> P (history data pid)) ->
            P (history (pass_data (fold_left step to_score st0)) pid)).
  { intros P Hyes Hno.
    destruct (in_dec string_dec pid to_score) as [Hin | Hnin].
    - destruct (loop_own step (deepeval_step_local cfg env by_id)
                  to_score st0 pid Hndj Hin) as (st1 & H1 & H2).
      rewrite H2. now apply Hyes.
    - unfold step. rewrite loop_other; auto. apply deepeval_step_local. }
  split; [| split; [| split; [| split; [| split]]]].
  - unfold step. rewrite loop_skipped by apply deepeval_step_skipped. exact Hskip.
  - intros Hf. rewrite Hload. apply Hown; auto. intros Hin. destruct (Hnot Hf Hin).
  - intros Hc. rewrite Hload. apply Hown; auto. intros Hin. destruct (Hnotc Hc Hin).
  - intros Hby. rewrite Hload. apply Hown; auto.
    intros _ st1 H1. unfold step, deepeval_step. now rewrite Hby.
  - intros Himp. rewrite Hload. apply Hown; auto.
    intros _ st1 H1. unfold step, deepeval_step.
    destruct (dict_get by_id pid); auto.
    destruct (latest_run (pass_data st1) pid); auto.
    unfold score_with_deepeval. rewrite Himp. simpl. exact H1.
  - intros run pmeta Hf Hc Hl Hby Himp. rewrite Hload.
    apply Hown; [| intros Hnin; destruct (Hnin (Hmem Hf Hc))].
    intros _ st1 H1.
    destruct (score_with_deepeval_returns cfg env (pass_clock st1) pmeta
                (content run) Himp) as (scores & avg & Hs).
    exists (pass_clock st1), scores, avg. split; auto.
    unfold step, deepeval_step. rewrite Hby.
    rewrite (latest_run_of_history _ _ _ H1). rewrite Hl, Hs.
    cbn [pass_data]. rewrite history_append_same, H1. reflexivity.
Qed.

(** C4, as the code has it.  For one model under [cmd_rejudge] (a model
    other than the judge) or [cmd_deepeval], and any prompt id, what
    happens depends on the latest run alone:
    - a candidate with no run or with a completion error is passed over,
      its history unchanged, and it is not counted;
    - a candidate without error that is already scored (by the current
      judge with a score present, or with non-empty secondary scores) is
      skipped when [--force] is off: the skipped counter grows by exactly
      the number of such candidates, and its history is unchanged;
    - every other candidate, and so every error-free candidate under
      [--force], gets exactly one entry appended when its prompt is in
      the eval set (and, for the secondary scores, when the scorer
      returns); its history is unchanged when the prompt is unknown or
      the scorer raises. *)
Theorem rescoring_skips_on_latest_run :
  (forall env force judge_name by_id w name pid,
      name <> judge_name ->
      NoDup (dict_keys (runs (load_model_results (rs_disk w) (rs_clock w) name))) ->
      let data := load_model_results (rs_disk w) (rs_clock w) name in
      let w' := rejudge_model env force judge_name by_id w name in
      let data' := load_model_results (rs_disk w') (rs_clock w') name in
      let fate_of := fun q => rejudge_fate force judge_name (latest_run data q) in
      total_skipped (rs_totals w')
      = (total_skipped (rs_totals w)
         + count_fate fate_of Skipped (dict_keys (runs data)))%nat
      /\ (fate_of pid <> Rescored -> history data' pid = history data pid)
      /\ (dict_get by_id pid = None -> history data' pid = history data pid)
      /\ (forall run pmeta,
             fate_of pid = Rescored ->
             latest_run data pid = Some run ->
             dict_get by_id pid = Some pmeta ->
             exists t,
               history data' pid
               = history data pid
                 ++ [rejudge_entry t judge_name run
                       (judge_response env t pmeta (content run)
                          (opt_default default_auto_checks (auto_checks run)))]))
  /\ (forall cfg env force by_id filter_pids w name pid,
         NoDup (dict_keys (runs (load_model_results (rs_disk w) (rs_clock w) name))) ->
         let data := load_model_results (rs_disk w) (rs_clock w) name in
         let w' := deepeval_model cfg env force by_id filter_pids w name in
         let data' := load_model_results (rs_disk w') (rs_clock w') name in
         let fate_of := fun q => deepeval_fate force (latest_run data q) in
         let candidates := deepeval_candidates filter_pids data in
         total_skipped (rs_totals w')
         = (total_skipped (rs_totals w) + count_fate fate_of Skipped candidates)%nat
         /\ (fate_of pid <> Rescored -> history data' pid = history data pid)
         /\ (~ In pid candidates -> history data' pid = history data pid)
         /\ (dict_get by_id pid = None -> history data' pid = history data pid)
         /\ (deepeval_imports env = false -> history data' pid = history data pid)
         /\ (forall run pmeta,
                fate_of pid = Rescored ->
                In pid candidates ->
                latest_run data pid = Some run ->
                dict_get by_id pid = Some pmeta ->
                deepeval_imports env = true ->
                exists t scores avg,
                  score_with_deepeval cfg env t pmeta (content run)
                  = DeepEvalResult scores avg
                  /\ history data' pid
                     = history data pid ++ [deepeval_entry t run scores avg]))
  /\ (forall force judge_name run,
         (truthy_str (error run) = true ->
          rejudge_fate force judge_name (Some run) = PassedOver
          /\ deepeval_fate force (Some run) = PassedOver)
         /\ (truthy_str (error run) = false ->
             rejudge_fate true judge_name (Some run) = Rescored
             /\ deepeval_fate true (Some run) = Rescored)
         /\ (truthy_str (error run) = false ->
             (rejudge_fate false judge_name (Some run) = Skipped
              <-> judged_by judge_name run = true)
             /\ (deepeval_fate false (Some run) = Skipped
                 <-> truthy_list (deepeval_scores run) = true))).
Proof.
  split; [| split].
  - intros. now apply rejudge_model_spec.
  - intros. now apply deepeval_model_spec.
  - intros force judge_name run. unfold rejudge_fate, deepeval_fate.
    split; [| split]; intros Herr; rewrite Herr; simpl.
    + now split.
    + now split.
    + destruct (judged_by judge_name run),
        (truthy_list (deepeval_scores run)); repeat split; congruence.
Qed.

Lemma rescoring_skips_on_latest_run_witness :
  "gpt-4o" <> "judge"
  /\ total_skipped
       (rs_totals
          (rejudge_model scoring_env false "judge"
             (prompts_by_id [sample_prompt "P1"])
             {| rs_clock := 5%nat; rs_disk := one_file (scored_run "judge");
                rs_totals := no_totals |}
             "gpt-4o"))
     = 1%nat.
Proof.
  assert (H1 : "gpt-4o" <> "judge") by discriminate.
  split; [exact H1 |].
  refine (proj1 (proj1 rescoring_skips_on_latest_run scoring_env false "judge"
                   (prompts_by_id [sample_prompt "P1"])
                   {| rs_clock := 5%nat; rs_disk := one_file (scored_run "judge");
                      rs_totals := no_totals |}
                   "gpt-4o" "P1" H1 _)).
  simpl. repeat constructor. simpl. tauto.
Defined.

(** C4 as the specification states it fails: the latest run of ["P1"]
    recorded a completion error, the candidate is left alone, and yet
    the skipped counter of [cmd_rejudge] and of [cmd_deepeval] is not
    incremented. *)
Lemma errored_candidate_is_not_counted :
  truthy_str (error errored_run) = true
  /\ (exists w,
        cmd_rejudge sample_cfg scoring_env ["gpt-4o"] false [sample_prompt "P1"]
          (one_file errored_run) 5 = Some w
        /\ total_skipped (rs_totals w) = 0%nat
        /\ total_skipped (rs_totals w) <> 1%nat
        /\ rs_disk w = one_file errored_run)
  /\ (let w := cmd_deepeval sample_cfg scoring_env ["gpt-4o"] None false
                 [sample_prompt "P1"] (one_file errored_run) 5 in
      total_skipped (rs_totals w) = 0%nat
      /\ total_skipped (rs_totals w) <> 1%nat
      /\ rs_disk w = one_file errored_run).
Proof.
  split; [reflexivity |]. split.
  - eexists. split; [reflexivity |]. repeat split. discriminate.
  - repeat split. discriminate.
Qed.

(** C3, on the code.  [cmd_deepeval] carries the judge fields over, and
    both commands carry over the content, the token counts, the latency
    and the auto-checks (an absent latency or auto-check result becoming
    its default).  [cmd_rejudge] does not carry over the secondary
    scores: whatever the prior latest entry holds, the new entry has
    neither [deepeval_scores] nor [deepeval_avg].  On the stored run
    scored by ["old-judge"] with [deepeval_avg] 0.8, re-judging appends
    an entry without them. *)
Theorem rejudge_drops_secondary_scores :
  (forall t judge_name run jr,
      let new := rejudge_entry t judge_name run jr in
      content new = content run
      /\ input_tokens new = input_tokens run
      /\ output_tokens new = output_tokens run
      /\ latency_s new = Some (opt_default 0 (latency_s run))
      /\ auto_checks new = Some (opt_default default_auto_checks (auto_checks run))
      /\ deepeval_scores new = None
      /\ deepeval_avg new = None)
  /\ (forall t run scores avg,
         let new := deepeval_entry t run scores avg in
         content new = content run
         /\ input_tokens new = input_tokens run
         /\ output_tokens new = output_tokens run
         /\ latency_s new = Some (opt_default 0 (latency_s run))
         /\ auto_checks new = Some (opt_default default_auto_checks (auto_checks run))
         /\ judge_score new = judge_score run
         /\ judge_model new = judge_model run
         /\ judge_rationale new = Some (opt_default EmptyString (judge_rationale run)))
  /\ (exists w data new,
         cmd_rejudge sample_cfg scoring_env ["gpt-4o"] false [sample_prompt "P1"]
           (one_file (scored_run "old-judge")) 5 = Some w
         /\ dict_get (rs_disk w) "gpt-4o" = Some data
         /\ history data "P1" = [scored_run "old-judge"; new]
         /\ deepeval_avg (scored_run "old-judge") = Some (4 # 5)
         /\ deepeval_avg new = None
         /\ deepeval_scores new = None
         /\ content new = content (scored_run "old-judge")
         /\ judge_model new = Some "judge").
Proof.
  split; [| split].
  - intros. subst new. simpl. repeat split.
  - intros. subst new. simpl. repeat split.
  - do 3 eexists. split; [reflexivity |].
    split; [reflexivity |]. split; [reflexivity |]. repeat split.
Qed.

(** ** What the aggregators gather *)

Lemma gather_run_fold rs acc :
  fold_left gather_run rs acc
  = {| g_scores := g_scores acc ++ judge_scores rs;
       g_latencies := g_latencies acc
                      ++ map (fun run => opt_default 0 (latency_s run)) rs;
       g_tokens := g_tokens acc
                   ++ map (fun run => opt_default 0%Z (output_tokens run)) rs;
       g_de_avgs := g_de_avgs acc ++ secondary_avgs rs;
       g_flagged := (g_flagged acc + List.length (filter has_flags rs))%nat;
       g_errors := g_errors acc |}.
Proof.
  revert acc. induction rs as [|r rs IH]; intros acc; cbn [fold_left].
  - simpl. rewrite !app_nil_r, Nat.add_0_r. now destruct acc.
  - rewrite IH. unfold gather_run. cbn [g_scores g_latencies g_tokens g_de_avgs
                                         g_flagged g_errors].
    unfold judge_scores, secondary_avgs. cbn [flat_map map filter].
    rewrite <- !app_assoc. f_equal.
    destruct (has_flags r); simpl; lia.
Qed.

Lemma compare_gather_latest data pids :
  compare_gather data pids = gathered_from (latest_runs data pids) 0.
Proof.
  unfold compare_gather.
  assert (forall acc,
            fold_left (fun acc pid => match latest_run data pid with
                                      | Some run => gather_run acc run
                                      | None => acc
                                      end) pids acc
            = fold_left gather_run (latest_runs data pids) acc) as H.
  { unfold latest_runs. induction pids as [|pid pids IH]; intros acc; simpl; auto.
    rewrite IH. destruct (latest_run data pid); simpl; auto. }
  rewrite H, gather_run_fold. reflexivity.
Qed.

Lemma dashboard_latest_run data pid : Dashboard.latest_run data pid = latest_run data pid.
Proof. reflexivity. Qed.

Lemma dashboard_gather_latest data pids :
  Dashboard.gather data pids
  = gathered_from (error_free (latest_runs data pids))
      (List.length (filter (fun run => truthy_str (error run))
                      (latest_runs data pids))).
Proof.
  unfold Dashboard.gather.
  set (step := fun (acc : gathered) (run : run_entry) =>
                 if truthy_str (error run)
                 then {| g_scores := g_scores acc; g_latencies := g_latencies acc;
                         g_tokens := g_tokens acc; g_de_avgs := g_de_avgs acc;
                         g_flagged := g_flagged acc; g_errors := S (g_errors acc) |}
                 else gather_run acc run).
  assert (forall acc,
            fold_left (fun acc pid => match Dashboard.latest_run data pid with
                                      | Some run =>
                                          if truthy_str (error run)
                                          then {| g_scores := g_scores acc;
                                                  g_latencies := g_latencies acc;
                                                  g_tokens := g_tokens acc;
                                                  g_de_avgs := g_de_avgs acc;
                                                  g_flagged := g_flagged acc;
                                                  g_errors := S (g_errors acc) |}
                                          else gather_run acc run
                                      | None => acc
                                      end) pids acc
            = fold_left step (latest_runs data pids) acc) as H1.
  { unfold latest_runs. induction pids as [|pid pids IH]; intros acc; simpl; auto.
    rewrite IH, dashboard_latest_run. destruct (latest_run data pid); simpl; auto. }
  assert (forall rs acc,
            fold_left step rs acc
            = {| g_scores := g_scores acc ++ judge_scores (error_free rs);
                 g_latencies := g_latencies acc
                   ++ map (fun run => opt_default 0 (latency_s run)) (error_free rs);
                 g_tokens := g_tokens acc
                   ++ map (fun run => opt_default 0%Z (output_tokens run)) (error_free rs);
                 g_de_avgs := g_de_avgs acc ++ secondary_avgs (error_free rs);
                 g_flagged := (g_flagged acc
                               + List.length (filter has_flags (error_free rs)))%nat;
                 g_errors := (g_errors acc
                              + List.length (filter (fun run => truthy_str (error run))
                                               rs))%nat |}) as H2.
  { induction rs as [|r rs IH]; intros acc; cbn [fold_left].
    - simpl. rewrite !app_nil_r, !Nat.add_0_r. now destruct acc.
    - rewrite IH. unfold step. cbv beta. unfold error_free.
      cbn [filter]. destruct (truthy_str (error r)); cbn [negb].
      + cbn [g_scores g_latencies g_tokens g_de_avgs g_flagged g_errors List.length].
        f_equal. lia.
      + unfold gather_run.
        cbn [g_scores g_latencies g_tokens g_de_avgs g_flagged g_errors].
        unfold judge_scores, secondary_avgs. cbn [flat_map map filter].
        rewrite <- !app_assoc. f_equal.
        destruct (has_flags r); simpl; lia. }
  rewrite H1, H2. reflexivity.
Qed.

Lemma error_free_all rs :
  (forall run, In run rs -> truthy_str (error run) = false) ->
  error_free rs = rs
  /\ List.length (filter (fun run => truthy_str (error run)) rs) = 0%nat.
Proof.
  intros H. unfold error_free. induction rs as [|r rs IH]; simpl; auto.
  rewrite (H r) by now left. simpl.
  destruct IH as [-> ->]; auto. intros run Hr. apply H. now right.
Qed.

(** ** The leaderboard sort *)

Lemma Qlt_bool_false a b : Qlt_bool a b = false <-> b <= a.
Proof.
  unfold Qlt_bool. rewrite negb_false_iff. apply Qle_bool_iff.
Qed.

Lemma Qlt_bool_true a b : Qlt_bool a b = true <-> a < b.
Proof.
  unfold Qlt_bool. rewrite negb_true_iff. split.
  - intros H. apply Qnot_le_lt. intros Hle. apply Qle_bool_iff in Hle. congruence.
  - intros H. destruct (Qle_bool b a) eqn:E; auto.
    apply Qle_bool_iff in E. exfalso. apply (Qlt_not_le _ _ H E).
Qed.




Section SortReverse.
Context {A : Type} (key : A -> bool * Q).


Lemma insert_desc_perm x l : Permutation (x :: l) (insert_desc key x l).
Proof.
  induction l as [|y ys IH]; simpl; auto.
  destruct (key_lt (key x) (key y)); auto.
  rewrite perm_swap. now constructor.
Qed.

Lemma sort_reverse_perm l : Permutation l (sort_reverse key l).
Proof.
  induction l as [|x l IH]; simpl; auto.
  rewrite <- insert_desc_perm. now constructor.
Qed.



End SortReverse.


Lemma compare_models_have_runs disk0 now model_names nd :
  In nd (compare_models disk0 now model_names) -> runs (snd nd) <> [].
Proof.
  unfold compare_models.
  assert (forall acc,
            (forall x, In x acc -> runs (snd x) <> []) ->
            In nd (fold_left
                     (fun models name =>
                        let data := load_model_results disk0 now name in
                        match runs data with
                        | [] => models
                        | _ => dict_set models name data
                        end) model_names acc) ->
            runs (snd nd) <> []) as H.
  { induction model_names as [|n ns IH]; intros acc Hacc; simpl; [apply Hacc |].
    apply IH. destruct (runs (load_model_results disk0 now n)) eqn:E; auto.
    intros x Hx. clear - Hacc Hx E.
    induction acc as [|[k v] rest IHa]; simpl in Hx.
    - destruct Hx as [<- | []]. simpl. congruence.
    - destruct (String.eqb n k).
      + destruct Hx as [<- | Hx]; [simpl; congruence | apply Hacc; now right].
      + destruct Hx as [<- | Hx]; [apply Hacc; now left |].
        apply IHa; auto. intros y Hy. apply Hacc. now right. }
  apply H. intros x [].
Qed.

(** When [cmd_compare] gets to its leaderboard, it is the one of the
    result sets it loaded, which all have runs. *)
Lemma cmd_compare_some cfg prompts models disk0 now rows :
  cmd_compare cfg prompts models disk0 now = Some rows ->
  exists loaded,
    (forall nd, In nd loaded -> runs (snd nd) <> [])
    /\ leaderboard_of cfg prompts loaded = rows.
Proof.
  unfold cmd_compare.
  set (model_names := match models with
                      | [] => list_evaluated_models disk0
                      | _ => models
                      end).
  destruct model_names as [|n ns] eqn:E; [discriminate |].
  rewrite <- E.
  destruct (compare_models disk0 now model_names) as [|nd nds] eqn:El;
    [discriminate |].
  intros H. injection H as <-. rewrite <- El. eexists. split; [| reflexivity].
  intros x. apply compare_models_have_runs.
Qed.

(** ** [cmd_compare] against [compute_stats] *)

Section SortReverseMap.
Context {A B : Type}.

Lemma insert_desc_map (f : A -> B) (key : B -> bool * Q) x l :
  insert_desc key (f x) (map f l)
  = map f (insert_desc (fun a => key (f a)) x l).
Proof.
  induction l as [|y ys IH]; simpl; auto.
  destruct (key_lt (key (f x)) (key (f y))); simpl; auto. now rewrite IH.
Qed.

Lemma sort_reverse_map (f : A -> B) (key : B -> bool * Q) l :
  sort_reverse key (map f l) = map f (sort_reverse (fun a => key (f a)) l).
Proof.
  induction l as [|x l IH]; simpl; auto.
  now rewrite IH, insert_desc_map.
Qed.

Lemma insert_desc_ext (k1 k2 : A -> bool * Q) x l :
  k1 x = k2 x -> (forall y, In y l -> k1 y = k2 y) ->
  insert_desc k1 x l = insert_desc k2 x l.
Proof.
  intros Hx. induction l as [|y ys IH]; intros Hl; simpl; auto.
  rewrite Hx, (Hl y) by now left.
  destruct (key_lt (k2 x) (k2 y)); auto.
  rewrite IH; auto. intros z Hz. apply Hl. now right.
Qed.

Lemma sort_reverse_ext (k1 k2 : A -> bool * Q) l :
  (forall y, In y l -> k1 y = k2 y) -> sort_reverse k1 l = sort_reverse k2 l.
Proof.
  induction l as [|x l IH]; intros Hl; simpl; auto.
  rewrite IH by (intros y Hy; apply Hl; now right).
  apply insert_desc_ext.
  - apply Hl. now left.
  - intros y Hy. apply Hl. right.
    eapply Permutation_in; [| exact Hy].
    apply Permutation_sym, sort_reverse_perm.
Qed.
End SortReverseMap.

(** * Further properties of the code *)

(** ** [cmd_eval]: re-runs, confinement, durability *)


Lemma entries_for_nodup cfg env name t prompts p :
  NoDup (map id prompts) -> In p prompts ->
  exists t', entries_for (id p) (eval_trace cfg env name t prompts)
             = [eval_entry cfg env name t' p].
Proof.
  revert t. induction prompts as [|q qs IH]; intros t Hnd Hin; [contradiction |].
  inversion Hnd as [|? ? Hnotin Hnd']; subst.
  unfold entries_for. cbn [eval_trace filter fst].
  destruct Hin as [-> | Hin].
  - rewrite String.eqb_refl. exists t. cbn [map snd]. f_equal.
    apply (entries_for_absent cfg env name (S (S t)) qs (id p) Hnotin).
  - destruct (String.eqb (id q) (id p)) eqn:E.
    + apply String.eqb_eq in E. exfalso. apply Hnotin. rewrite E. now apply in_map.
    + apply (IH (S (S t)) Hnd' Hin).
Qed.



Lemma eval_loop_disk_other cfg env name prompts st other :
  other <> name ->
  dict_get (disk (eval_loop cfg env name prompts st)) other
  = dict_get (disk st) other.
Proof.
  intros Hne. revert st. induction prompts as [|p ps IH]; intros st; simpl; auto.
  unfold eval_loop in *. simpl. rewrite IH.
  unfold eval_step. simpl. now apply dict_get_set_other.
Qed.

Lemma eval_loop_meta cfg env name prompts st :
  model_name (mem (eval_loop cfg env name prompts st)) = model_name (mem st)
  /\ created (mem (eval_loop cfg env name prompts st)) = created (mem st).
Proof.
  revert st. induction prompts as [|p ps IH]; intros st; simpl; auto.
  unfold eval_loop in *. simpl. destruct (IH (eval_step cfg env name st p)) as [-> ->].
  split; reflexivity.
Qed.

Lemma eval_loop_keys cfg env name prompts st :
  exists extra,
    dict_keys (runs (mem (eval_loop cfg env name prompts st)))
    = dict_keys (runs (mem st)) ++ extra.
Proof.
  revert st. induction prompts as [|p ps IH]; intros st.
  - exists []. simpl. now rewrite app_nil_r.
  - unfold eval_loop in *. cbn [fold_left].
    destruct (IH (eval_step cfg env name st p)) as [extra ->].
    rewrite eval_step_mem. unfold append_run. cbn [runs].
    rewrite dict_keys_set. destruct (dict_mem (runs (mem st)) (id p)).
    + now exists extra.
    + exists (id p :: extra). now rewrite <- app_assoc.
Qed.

(** However [cmd_eval] ends, it writes to the file of its own model
    only; the name and the creation stamp of the result set stay; the
    prompt ids it had stay, in their order, new ones coming behind; and
    every history it had is a prefix of the history it has. *)
Theorem eval_is_confined_to_its_model cfg env name prompts rerun disk0 now :
  let data := load_model_results disk0 now name in
  let final := snd (cmd_eval cfg env name prompts rerun disk0 now) in
  (forall other, other <> name -> dict_get (disk final) other = dict_get disk0 other)
  /\ model_name (mem final) = model_name data
  /\ created (mem final) = created data
  /\ (exists extra, dict_keys (runs (mem final)) = dict_keys (runs data) ++ extra)
  /\ (forall pid, exists extra, history (mem final) pid = history data pid ++ extra).
Proof.
  intros data final.
  assert (Hidle : forall st, st = {| clock := now; disk := disk0; mem := data |} ->
            (forall other, other <> name -> dict_get (disk st) other = dict_get disk0 other)
            /\ model_name (mem st) = model_name data
            /\ created (mem st) = created data
            /\ (exists extra, dict_keys (runs (mem st)) = dict_keys (runs data) ++ extra)
            /\ (forall pid, exists extra, history (mem st) pid = history data pid ++ extra)).
  { intros st ->. simpl. repeat split; auto.
    - exists []. now rewrite app_nil_r.
    - intros pid. exists []. now rewrite app_nil_r. }
  subst final. unfold cmd_eval. fold data.
  destruct (negb (dict_mem (models_cfg cfg) name)); [now apply Hidle |].
  destruct prompts as [|p0 ps]; [now apply Hidle |].
  destruct (eval_todo data (p0 :: ps) rerun) as [|q qs]; [now apply Hidle |].
  destruct (negb (str_in name (providers_ok cfg))); [now apply Hidle |].
  cbn [snd]. split; [| split; [| split; [| split]]].
  - intros other Hne. now rewrite eval_loop_disk_other.
  - apply eval_loop_meta.
  - apply eval_loop_meta.
  - apply (eval_loop_keys cfg env name (q :: qs)
             {| clock := S now; disk := disk0; mem := data |}).
  - intros pid. rewrite eval_loop_history. eexists. reflexivity.
Qed.

Lemma eval_is_confined_to_its_model_witness :
  "judge" <> "gpt-4o"
  /\ dict_get
       (disk (snd (cmd_eval sample_cfg sample_env "gpt-4o" [sample_prompt "P1"] true
                     [("judge", one_run (judged_run 3))] 7)))
       "judge"
     = Some (one_run (judged_run 3)).
Proof.
  assert (H : "judge" <> "gpt-4o") by discriminate.
  split; [exact H |].
  exact (proj1 (eval_is_confined_to_its_model sample_cfg sample_env "gpt-4o"
                  [sample_prompt "P1"] true [("judge", one_run (judged_run 3))] 7%nat)
           "judge" H).
Defined.




(** ** Re-scoring: which files and prompt ids it touches *)

Lemma rejudge_model_disk_other env force judge_name by_id w name other :
  other <> name ->
  dict_get (rs_disk (rejudge_model env force judge_name by_id w name)) other
  = dict_get (rs_disk w) other.
Proof.
  intros Hne. unfold rejudge_model.
  destruct (String.eqb name judge_name); auto.
  destruct (runs (load_model_results (rs_disk w) (rs_clock w) name)); auto.
  destruct (rejudge_select _ _ _ _ _) as [to_judge t].
  destruct to_judge; auto.
  unfold save_model_results. cbn [rs_disk]. now apply dict_get_set_other.
Qed.

Lemma deepeval_model_disk_other cfg env force by_id filter_pids w name other :
  other <> name ->
  dict_get (rs_disk (deepeval_model cfg env force by_id filter_pids w name)) other
  = dict_get (rs_disk w) other.
Proof.
  intros Hne. unfold deepeval_model.
  destruct (runs (load_model_results (rs_disk w) (rs_clock w) name)); auto.
  destruct (deepeval_select _ _ _ _) as [to_score t].
  destruct to_score; auto.
  unfold save_model_results. cbn [rs_disk]. now apply dict_get_set_other.
Qed.

Lemma rejudge_model_judge env force judge_name by_id w :
  rejudge_model env force judge_name by_id w judge_name = w.
Proof. unfold rejudge_model. now rewrite String.eqb_refl. Qed.

Lemma dict_keys_append_present data pid entry :
  dict_mem (runs data) pid = true ->
  dict_keys (runs (append_run data pid entry)) = dict_keys (runs data).
Proof.
  intros H. unfold append_run. cbn [runs]. rewrite dict_keys_set. now rewrite H.
Qed.

Lemma latest_run_some_mem data pid run :
  latest_run data pid = Some run -> dict_mem (runs data) pid = true.
Proof.
  unfold latest_run, dict_mem. now destruct (dict_get (runs data) pid).
Qed.

Lemma rejudge_step_keys env judge_name by_id st pid :
  dict_keys (runs (pass_data (rejudge_step env judge_name by_id st pid)))
  = dict_keys (runs (pass_data st)).
Proof.
  unfold rejudge_step. destruct (dict_get by_id pid); auto.
  destruct (latest_run (pass_data st) pid) eqn:E; auto.
  cbn [pass_data]. apply dict_keys_append_present.
  eapply latest_run_some_mem; eauto.
Qed.

Lemma deepeval_step_keys cfg env by_id st pid :
  dict_keys (runs (pass_data (deepeval_step cfg env by_id st pid)))
  = dict_keys (runs (pass_data st)).
Proof.
  unfold deepeval_step. destruct (dict_get by_id pid); auto.
  destruct (latest_run (pass_data st) pid) eqn:E; auto.
  destruct (score_with_deepeval _ _ _ _ _); auto.
  cbn [pass_data]. apply dict_keys_append_present.
  eapply latest_run_some_mem; eauto.
Qed.

Lemma fold_step_keys (step : pass -> string -> pass) l st :
  (forall st pid, dict_keys (runs (pass_data (step st pid)))
                  = dict_keys (runs (pass_data st))) ->
  dict_keys (runs (pass_data (fold_left step l st)))
  = dict_keys (runs (pass_data st)).
Proof.
  intros H. revert st. induction l as [|q l IH]; intros st; simpl; auto.
  now rewrite IH, H.
Qed.

Lemma rejudge_model_keys env force judge_name by_id w name :
  let w' := rejudge_model env force judge_name by_id w name in
  dict_keys (runs (load_model_results (rs_disk w') (rs_clock w') name))
  = dict_keys (runs (load_model_results (rs_disk w) (rs_clock w) name)).
Proof.
  cbv zeta. unfold rejudge_model.
  destruct (String.eqb name judge_name); auto.
  destruct (runs (load_model_results (rs_disk w) (rs_clock w) name)) eqn:E;
    [now rewrite E |].
  rewrite <- E.
  destruct (rejudge_select _ _ _ _ _) as [to_judge t].
  destruct to_judge as [|q qs]; auto.
  unfold save_model_results, load_model_results at 1. cbn [rs_disk rs_clock].
  rewrite dict_get_set_same. cbn [runs].
  rewrite fold_step_keys; [reflexivity | apply rejudge_step_keys].
Qed.

Lemma deepeval_model_keys cfg env force by_id filter_pids w name :
  let w' := deepeval_model cfg env force by_id filter_pids w name in
  dict_keys (runs (load_model_results (rs_disk w') (rs_clock w') name))
  = dict_keys (runs (load_model_results (rs_disk w) (rs_clock w) name)).
Proof.
  cbv zeta. unfold deepeval_model.
  destruct (runs (load_model_results (rs_disk w) (rs_clock w) name)) eqn:E;
    [now rewrite E |].
  rewrite <- E.
  destruct (deepeval_select _ _ _ _) as [to_score t].
  destruct to_score as [|q qs]; auto.
  unfold save_model_results, load_model_results at 1. cbn [rs_disk rs_clock].
  rewrite dict_get_set_same. cbn [runs].
  rewrite fold_step_keys; [reflexivity | apply deepeval_step_keys].
Qed.

Lemma fold_rejudge_other env force judge_name by_id names w m :
  m = judge_name \/ ~ In m names ->
  dict_get (rs_disk (fold_left (rejudge_model env force judge_name by_id) names w)) m
  = dict_get (rs_disk w) m.
Proof.
  intros Hm. revert w. induction names as [|n ns IH]; intros w; simpl; auto.
  rewrite IH by (destruct Hm as [-> | Hm]; [now left | right; simpl in Hm; tauto]).
  destruct (string_dec n judge_name) as [-> | Hn].
  - now rewrite rejudge_model_judge.
  - apply rejudge_model_disk_other. destruct Hm as [-> | Hm]; [congruence |].
    intros ->. apply Hm. now left.
Qed.

Lemma fold_deepeval_other cfg env force by_id filter_pids names w m :
  ~ In m names ->
  dict_get (rs_disk (fold_left (deepeval_model cfg env force by_id filter_pids)
                       names w)) m
  = dict_get (rs_disk w) m.
Proof.
  intros Hm. revert w. induction names as [|n ns IH]; intros w; simpl; auto.
  rewrite IH by (simpl in Hm; tauto).
  apply deepeval_model_disk_other. intros ->. apply Hm. now left.
Qed.

Lemma rescoring_is_confined_helper :
  (forall cfg env models force eval_prompts disk0 now w judge_name m,
      cmd_rejudge cfg env models force eval_prompts disk0 now = Some w ->
      judge_cfg_model cfg = Some judge_name ->
      m = judge_name \/ (models <> [] /\ ~ In m models) ->
      dict_get (rs_disk w) m = dict_get disk0 m)
  /\ (forall cfg env models ids force eval_prompts disk0 now m,
         judge_cfg_model cfg = Some m \/ (models <> [] /\ ~ In m models) ->
         dict_get (rs_disk (cmd_deepeval cfg env models ids force eval_prompts
                              disk0 now)) m
         = dict_get disk0 m).
Proof.
  split.
  - intros cfg env models force eval_prompts disk0 now w judge_name m Hrun Hj Hm.
    unfold cmd_rejudge in Hrun. rewrite Hj in Hrun.
    destruct (negb _); [discriminate |].
    destruct (negb _); [discriminate |].
    injection Hrun as <-.
    rewrite fold_rejudge_other; [reflexivity |].
    destruct Hm as [-> | [Hne Hm]]; [now left | right].
    destruct models; [congruence | exact Hm].
  - intros cfg env models ids force eval_prompts disk0 now m Hm.
    unfold cmd_deepeval. rewrite fold_deepeval_other; [reflexivity |].
    intros Hin. apply filter_In in Hin. destruct Hin as [Hin Hnj].
    destruct Hm as [Hj | [Hne Hm]].
    + rewrite Hj in Hnj. simpl in Hnj. now rewrite String.eqb_refl in Hnj.
    + destruct models; [congruence | contradiction].
Qed.

(** [cmd_rejudge] and [cmd_deepeval] never write the file of the judge
    model, nor, when models are named, the file of a model that is not
    named; and a pass over a model neither adds nor removes nor reorders
    its prompt ids. *)
Theorem rescoring_is_confined :
  (forall cfg env models force eval_prompts disk0 now w judge_name m,
      cmd_rejudge cfg env models force eval_prompts disk0 now = Some w ->
      judge_cfg_model cfg = Some judge_name ->
      m = judge_name \/ (models <> [] /\ ~ In m models) ->
      dict_get (rs_disk w) m = dict_get disk0 m)
  /\ (forall cfg env models ids force eval_prompts disk0 now m,
         judge_cfg_model cfg = Some m \/ (models <> [] /\ ~ In m models) ->
         dict_get (rs_disk (cmd_deepeval cfg env models ids force eval_prompts
                              disk0 now)) m
         = dict_get disk0 m)
  /\ (forall env force judge_name by_id w name,
         let w' := rejudge_model env force judge_name by_id w name in
         dict_keys (runs (load_model_results (rs_disk w') (rs_clock w') name))
         = dict_keys (runs (load_model_results (rs_disk w) (rs_clock w) name)))
  /\ (forall cfg env force by_id filter_pids w name,
         let w' := deepeval_model cfg env force by_id filter_pids w name in
         dict_keys (runs (load_model_results (rs_disk w') (rs_clock w') name))
         = dict_keys (runs (load_model_results (rs_disk w) (rs_clock w) name))).
Proof.
  split; [| split; [| split]].
  - intros cfg env models force eval_prompts disk0 now w judge_name m Hrun Hj Hm.
    unfold cmd_rejudge in Hrun. rewrite Hj in Hrun.
    destruct (negb _); [discriminate |].
    destruct (negb _); [discriminate |].
    injection Hrun as <-.
    rewrite fold_rejudge_other; [reflexivity |].
    destruct Hm as [-> | [Hne Hm]]; [now left | right].
    destruct models; [congruence | exact Hm].
  - intros cfg env models ids force eval_prompts disk0 now m Hm.
    unfold cmd_deepeval. rewrite fold_deepeval_other; [reflexivity |].
    intros Hin. apply filter_In in Hin. destruct Hin as [Hin Hnj].
    destruct Hm as [Hj | [Hne Hm]].
    + rewrite Hj in Hnj. simpl in Hnj. now rewrite String.eqb_refl in Hnj.
    + destruct models; [congruence | contradiction].
  - intros. apply rejudge_model_keys.
  - intros. apply deepeval_model_keys.
Qed.

Lemma rescoring_is_confined_witness :
  dict_get
    (rs_disk (cmd_deepeval sample_cfg scoring_env [] None true [sample_prompt "P1"]
                [("judge", one_run (judged_run 3))] 5))
    "judge"
  = Some (one_run (judged_run 3)).
Proof.
  exact (proj1 (proj2 rescoring_is_confined) sample_cfg scoring_env [] None true
           [sample_prompt "P1"] [("judge", one_run (judged_run 3))] 5%nat "judge"
           (or_introl eq_refl)).
Defined.

(** ** Re-scoring twice *)

Lemma rejudge_fate_without_force force judge_name run :
  rejudge_fate force judge_name run <> Rescored ->
  rejudge_fate false judge_name run <> Rescored.
Proof.
  unfold rejudge_fate. destruct run as [r|]; auto.
  destruct (truthy_str (error r)); auto.
  destruct force; simpl; auto; congruence.
Qed.

Lemma deepeval_fate_without_force force run :
  deepeval_fate force run <> Rescored ->
  deepeval_fate false run <> Rescored.
Proof.
  unfold deepeval_fate. destruct run as [r|]; auto.
  destruct (truthy_str (error r)); auto.
  destruct force; simpl; auto; congruence.
Qed.

Lemma rejudge_fate_rescored_some force judge_name run :
  rejudge_fate force judge_name run = Rescored -> exists r, run = Some r.
Proof. destruct run; [eauto | discriminate]. Qed.

Lemma deepeval_fate_rescored_some force run :
  deepeval_fate force run = Rescored -> exists r, run = Some r.
Proof. destruct run; [eauto | discriminate]. Qed.

Lemma fate_dec (f : fate) : f = Rescored \/ f <> Rescored.
Proof. destruct f; [right | right | left]; congruence. Qed.

(** A second pass of [cmd_rejudge] without [--force] over a model, with
    a judge that gives a score whenever it is asked, appends nothing:
    what the first pass judged is skipped, what it passed over is passed
    over again. *)
Theorem rejudge_again_appends_nothing
    env force judge_name by_id w name pid :
  name <> judge_name ->
  NoDup (dict_keys (runs (load_model_results (rs_disk w) (rs_clock w) name))) ->
  (forall t pmeta text auto,
      jr_judge_score (judge_response env t pmeta text auto) <> None) ->
  let w1 := rejudge_model env force judge_name by_id w name in
  let w2 := rejudge_model env false judge_name by_id w1 name in
  history (load_model_results (rs_disk w2) (rs_clock w2) name) pid
  = history (load_model_results (rs_disk w1) (rs_clock w1) name) pid.
Proof.
  intros Hname Hnd Hjudge w1 w2.
  pose proof (rejudge_model_spec env force judge_name by_id w name pid Hname Hnd)
    as (_ & Hkeep & Hunknown & Happ).
  assert (Hnd1 : NoDup (dict_keys (runs (load_model_results (rs_disk w1)
                                           (rs_clock w1) name)))).
  { unfold w1. now rewrite rejudge_model_keys. }
  pose proof (rejudge_model_spec env false judge_name by_id w1 name pid Hname Hnd1)
    as (_ & Hkeep2 & Hunknown2 & _).
  fold w1 in Hkeep, Hunknown, Happ. fold w2 in Hkeep2, Hunknown2.
  destruct (dict_get by_id pid) as [pmeta|] eqn:Hby; [| now apply Hunknown2].
  apply Hkeep2.
  set (data := load_model_results (rs_disk w) (rs_clock w) name) in *.
  destruct (fate_dec (rejudge_fate force judge_name (latest_run data pid)))
    as [Hf | Hf].
  - destruct (rejudge_fate_rescored_some _ _ _ Hf) as [run Hrun].
    destruct (Happ run pmeta Hf Hrun eq_refl) as [t Ht].
    rewrite latest_run_history, Ht, last_some_app.
    unfold rejudge_fate, rejudge_entry. cbn [error truthy_str].
    unfold judged_by. cbn [judge_model judge_score opt_str_eqb].
    rewrite String.eqb_refl.
    destruct (jr_judge_score _) eqn:Hs; [discriminate |].
    exfalso. eapply Hjudge. exact Hs.
  - rewrite (latest_run_of_history _ _ _ (Hkeep Hf)).
    now apply rejudge_fate_without_force in Hf.
Qed.

Lemma rejudge_again_appends_nothing_witness :
  let w := {| rs_clock := 5; rs_disk := one_file (scored_run "old-judge");
              rs_totals := no_totals |} in
  let by_id := prompts_by_id [sample_prompt "P1"] in
  let w1 := rejudge_model scoring_env false "judge" by_id w "gpt-4o" in
  let w2 := rejudge_model scoring_env false "judge" by_id w1 "gpt-4o" in
  List.length (history (load_model_results (rs_disk w1) (rs_clock w1) "gpt-4o") "P1")
  = 2%nat
  /\ history (load_model_results (rs_disk w2) (rs_clock w2) "gpt-4o") "P1"
     = history (load_model_results (rs_disk w1) (rs_clock w1) "gpt-4o") "P1".
Proof.
  cbv zeta. split; [reflexivity |].
  apply (rejudge_again_appends_nothing scoring_env false "judge"
           (prompts_by_id [sample_prompt "P1"])
           {| rs_clock := 5; rs_disk := one_file (scored_run "old-judge");
              rs_totals := no_totals |} "gpt-4o" "P1").
  - discriminate.
  - simpl. repeat constructor. simpl. tauto.
  - intros. simpl. discriminate.
Defined.

Lemma deepeval_scores_nonempty cfg env t pmeta response scores avg :
  (exists m, In m (deepeval_metrics cfg) /\ In m metric_builders) ->
  score_with_deepeval cfg env t pmeta response = DeepEvalResult scores avg ->
  truthy_list (Some scores) = true.
Proof.
  intros (m & Hm & Hk). unfold score_with_deepeval.
  destruct (negb (deepeval_imports env)); [discriminate |].
  intros H. injection H as <- _.
  set (step := fun (acc : pydict (option Q)) (metric_name : string) => _).
  assert (Hset : forall (d : pydict (option Q)) k v, dict_set d k v <> []).
  { intros [|[k0 v0] rest] k v; simpl; [discriminate |].
    destruct (String.eqb k k0); discriminate. }
  assert (Hgrow : forall l acc, acc <> [] -> fold_left step l acc <> []).
  { induction l as [|x l IH]; intros acc Hacc; simpl; auto.
    apply IH. unfold step. cbv beta.
    match goal with
    | |- (if ?c then _ else _) <> _ => destruct c; [apply Hset | exact Hacc]
    end. }
  assert (Hne : forall l acc, In m l -> fold_left step l acc <> []).
  { induction l as [|x l IH]; intros acc Hin; [contradiction |]. simpl.
    destruct Hin as [-> | Hin]; [| now apply IH].
    apply Hgrow. unfold step. cbv beta.
    apply str_in_In in Hk. unfold str_in, metric_builders in Hk. simpl in Hk.
    rewrite Hk. apply Hset. }
  specialize (Hne (deepeval_metrics cfg) [] Hm).
  destruct (fold_left step (deepeval_metrics cfg) []); [congruence | reflexivity].
Qed.

(** A second pass of [cmd_deepeval] without [--force] over a model
    appends nothing, when at least one of the configured metrics is one
    of the three the scorer knows, so that a returned score mapping is
    never empty. *)
Theorem deepeval_again_appends_nothing
    cfg env force by_id filter_pids w name pid :
  NoDup (dict_keys (runs (load_model_results (rs_disk w) (rs_clock w) name))) ->
  (exists m, In m (deepeval_metrics cfg) /\ In m metric_builders) ->
  let w1 := deepeval_model cfg env force by_id filter_pids w name in
  let w2 := deepeval_model cfg env false by_id filter_pids w1 name in
  history (load_model_results (rs_disk w2) (rs_clock w2) name) pid
  = history (load_model_results (rs_disk w1) (rs_clock w1) name) pid.
Proof.
  intros Hnd Hmetric w1 w2.
  pose proof (deepeval_model_spec cfg env force by_id filter_pids w name pid Hnd)
    as (_ & Hkeep & Hcand & Hunknown & Hraise & Happ).
  assert (Hnd1 : NoDup (dict_keys (runs (load_model_results (rs_disk w1)
                                           (rs_clock w1) name)))).
  { unfold w1. now rewrite deepeval_model_keys. }
  pose proof (deepeval_model_spec cfg env false by_id filter_pids w1 name pid Hnd1)
    as (_ & Hkeep2 & Hcand2 & Hunknown2 & Hraise2 & _).
  fold w1 in Hkeep, Hcand, Hunknown, Hraise, Happ.
  fold w2 in Hkeep2, Hcand2, Hunknown2, Hraise2.
  destruct (dict_get by_id pid) as [pmeta|] eqn:Hby; [| now apply Hunknown2].
  destruct (deepeval_imports env) eqn:Himp; [| now apply Hraise2].
  set (data := load_model_results (rs_disk w) (rs_clock w) name) in *.
  destruct (in_dec string_dec pid (deepeval_candidates filter_pids data))
    as [Hin | Hnin].
  2:{ apply Hcand2. unfold deepeval_candidates in *.
      unfold w1. rewrite deepeval_model_keys. exact Hnin. }
  apply Hkeep2.
  destruct (fate_dec (deepeval_fate force (latest_run data pid))) as [Hf | Hf].
  - destruct (deepeval_fate_rescored_some _ _ Hf) as [run Hrun].
    destruct (Happ run pmeta Hf Hin Hrun eq_refl eq_refl)
      as (t & scores & avg & Hs & Ht).
    rewrite latest_run_history, Ht, last_some_app.
    unfold deepeval_fate, deepeval_entry. cbn [error truthy_str deepeval_scores].
    rewrite (deepeval_scores_nonempty cfg env t pmeta (content run) scores avg
               Hmetric Hs).
    simpl. discriminate.
  - rewrite (latest_run_of_history _ _ _ (Hkeep Hf)).
    now apply deepeval_fate_without_force in Hf.
Qed.

Lemma deepeval_again_appends_nothing_witness :
  let w := {| rs_clock := 5; rs_disk := one_file (judged_run 3);
              rs_totals := no_totals |} in
  let by_id := prompts_by_id [sample_prompt "P1"] in
  let w1 := deepeval_model sample_cfg scoring_env false by_id None w "gpt-4o" in
  let w2 := deepeval_model sample_cfg scoring_env false by_id None w1 "gpt-4o" in
  List.length (history (load_model_results (rs_disk w1) (rs_clock w1) "gpt-4o") "P1")
  = 2%nat
  /\ history (load_model_results (rs_disk w2) (rs_clock w2) "gpt-4o") "P1"
     = history (load_model_results (rs_disk w1) (rs_clock w1) "gpt-4o") "P1".
Proof.
  cbv zeta. split; [reflexivity |].
  apply (deepeval_again_appends_nothing sample_cfg scoring_env false
           (prompts_by_id [sample_prompt "P1"]) None
           {| rs_clock := 5; rs_disk := one_file (judged_run 3);
              rs_totals := no_totals |} "gpt-4o" "P1").
  - simpl. repeat constructor. simpl. tauto.
  - exists "correctness". split; simpl; tauto.
Defined.

(** ** Re-scoring and the statistics of [cmd_compare] *)

Lemma measurements_rejudge_entry t judge_name run jr :
  measurements (rejudge_entry t judge_name run jr) = measurements run.
Proof.
  unfold measurements, rejudge_entry, has_flags. cbn.
  destruct (latency_s run), (auto_checks run); reflexivity.
Qed.

Lemma measurements_deepeval_entry t run scores avg :
  measurements (deepeval_entry t run scores avg) = measurements run
  /\ judge_score (deepeval_entry t run scores avg) = judge_score run.
Proof.
  unfold measurements, deepeval_entry, has_flags. cbn.
  destruct (latency_s run), (auto_checks run); split; reflexivity.
Qed.

Lemma rejudge_step_measurements env judge_name by_id st q pid :
  option_map measurements
    (latest_run (pass_data (rejudge_step env judge_name by_id st q)) pid)
  = option_map measurements (latest_run (pass_data st) pid).
Proof.
  unfold rejudge_step. destruct (dict_get by_id q); auto.
  destruct (latest_run (pass_data st) q) as [run|] eqn:E; auto.
  cbn [pass_data]. destruct (string_dec pid q) as [-> | Hne].
  - rewrite latest_run_append_same, E. cbn [option_map].
    now rewrite measurements_rejudge_entry.
  - now rewrite latest_run_append_other.
Qed.

Lemma deepeval_step_measurements cfg env by_id st q pid :
  option_map (fun run => (measurements run, judge_score run))
    (latest_run (pass_data (deepeval_step cfg env by_id st q)) pid)
  = option_map (fun run => (measurements run, judge_score run))
      (latest_run (pass_data st) pid).
Proof.
  unfold deepeval_step. destruct (dict_get by_id q); auto.
  destruct (latest_run (pass_data st) q) as [run|] eqn:E; auto.
  destruct (score_with_deepeval _ _ _ _ _) as [scores avg|]; auto.
  cbn [pass_data]. destruct (string_dec pid q) as [-> | Hne].
  - rewrite latest_run_append_same, E. cbn [option_map].
    destruct (measurements_deepeval_entry (pass_clock st) run scores avg) as [-> ->].
    reflexivity.
  - now rewrite latest_run_append_other.
Qed.

Lemma fold_step_latest {A : Type} (f : run_entry -> A)
    (step : pass -> string -> pass) l st pid :
  (forall st q pid, option_map f (latest_run (pass_data (step st q)) pid)
                    = option_map f (latest_run (pass_data st) pid)) ->
  option_map f (latest_run (pass_data (fold_left step l st)) pid)
  = option_map f (latest_run (pass_data st) pid).
Proof.
  intros H. revert st. induction l as [|q l IH]; intros st; simpl; auto.
  now rewrite IH, H.
Qed.

Lemma latest_run_load_saved disk0 now now' name data pid :
  latest_run
    (load_model_results (fst (save_model_results disk0 now name data)) now' name) pid
  = latest_run data pid.
Proof.
  rewrite !latest_run_history. now rewrite history_load_saved.
Qed.

Lemma rejudge_model_measurements env force judge_name by_id w name pid :
  let w' := rejudge_model env force judge_name by_id w name in
  option_map measurements
    (latest_run (load_model_results (rs_disk w') (rs_clock w') name) pid)
  = option_map measurements
      (latest_run (load_model_results (rs_disk w) (rs_clock w) name) pid).
Proof.
  cbv zeta. unfold rejudge_model.
  destruct (String.eqb name judge_name); auto.
  destruct (runs (load_model_results (rs_disk w) (rs_clock w) name)) eqn:E; auto.
  rewrite <- E.
  destruct (rejudge_select _ _ _ _ _) as [to_judge t].
  destruct to_judge as [|q qs]; auto.
  set (fin := fold_left _ _ _).
  pose proof (latest_run_load_saved (rs_disk w) (pass_clock fin) (S (pass_clock fin))
                name (pass_data fin) pid) as Hl.
  unfold save_model_results in *. cbn [fst rs_disk rs_clock] in *. rewrite Hl.
  unfold fin. apply fold_step_latest. intros. apply rejudge_step_measurements.
Qed.

Lemma deepeval_model_measurements cfg env force by_id filter_pids w name pid :
  let w' := deepeval_model cfg env force by_id filter_pids w name in
  option_map (fun run => (measurements run, judge_score run))
    (latest_run (load_model_results (rs_disk w') (rs_clock w') name) pid)
  = option_map (fun run => (measurements run, judge_score run))
      (latest_run (load_model_results (rs_disk w) (rs_clock w) name) pid).
Proof.
  cbv zeta. unfold deepeval_model.
  destruct (runs (load_model_results (rs_disk w) (rs_clock w) name)) eqn:E; auto.
  rewrite <- E.
  destruct (deepeval_select _ _ _ _) as [to_score t].
  destruct to_score as [|q qs]; auto.
  set (fin := fold_left _ _ _).
  pose proof (latest_run_load_saved (rs_disk w) (pass_clock fin) (S (pass_clock fin))
                name (pass_data fin) pid) as Hl.
  unfold save_model_results in *. cbn [fst rs_disk rs_clock] in *. rewrite Hl.
  unfold fin. apply fold_step_latest. intros. apply deepeval_step_measurements.
Qed.

Lemma latest_runs_map {A : Type} (f : run_entry -> A) data data' pids :
  (forall pid, option_map f (latest_run data' pid) = option_map f (latest_run data pid)) ->
  map f (latest_runs data' pids) = map f (latest_runs data pids).
Proof.
  intros H. unfold latest_runs. induction pids as [|pid pids IH]; simpl; auto.
  rewrite !map_app, IH. f_equal. specialize (H pid).
  destruct (latest_run data' pid), (latest_run data pid); simpl in *; congruence.
Qed.

Lemma count_total_ext {A : Type} (f : run_entry -> A) data data' pids :
  (forall pid, option_map f (latest_run data' pid) = option_map f (latest_run data pid)) ->
  count_total (latest_run data') pids = count_total (latest_run data) pids.
Proof.
  intros H. unfold count_total. f_equal. apply filter_ext. intros pid.
  specialize (H pid).
  destruct (latest_run data' pid), (latest_run data pid); simpl in *; congruence.
Qed.

Lemma length_filter_map {A : Type} (p : A -> bool) (l : list A) :
  List.length (filter p l) = List.length (filter (fun b : bool => b) (map p l)).
Proof.
  induction l as [|x l IH]; simpl; auto. destruct (p x); simpl; now rewrite IH.
Qed.

Lemma compare_stats_fields jw dw pids nm data :
  let c := compare_stats jw dw pids nm data in
  let rs := latest_runs data pids in
  row_total c = count_total (latest_run data) pids
  /\ row_flagged c = List.length (filter has_flags rs)
  /\ row_avg_l c = meanQ (map (fun run => opt_default 0 (latency_s run)) rs)
  /\ row_avg_t c = meanZ (map (fun run => opt_default 0%Z (output_tokens run)) rs)
  /\ row_scored c = List.length (judge_scores rs)
  /\ row_avg_s c = meanZ (judge_scores rs).
Proof.
  cbv zeta. unfold compare_stats.
  cbn [row_total row_flagged row_avg_l row_avg_t row_scored row_avg_s].
  rewrite compare_gather_latest. repeat split.
Qed.

Lemma option_map_compose {A B C : Type} (f : A -> B) (g : B -> C) (x y : option A) :
  option_map f x = option_map f y ->
  option_map (fun a => g (f a)) x = option_map (fun a => g (f a)) y.
Proof.
  destruct x, y; simpl; intros H; try discriminate; auto.
  injection H as H. now rewrite H.
Qed.

(** The rows of [cmd_compare] depend on the runs through these lists. *)
Lemma compare_stats_of_measurements jw dw pids nm data data' :
  (forall pid, option_map measurements (latest_run data' pid)
               = option_map measurements (latest_run data pid)) ->
  let c := compare_stats jw dw pids nm data in
  let c' := compare_stats jw dw pids nm data' in
  row_total c' = row_total c
  /\ row_flagged c' = row_flagged c
  /\ row_avg_l c' = row_avg_l c
  /\ row_avg_t c' = row_avg_t c.
Proof.
  intros H c c'.
  destruct (compare_stats_fields jw dw pids nm data) as (T & F & L & K & _).
  destruct (compare_stats_fields jw dw pids nm data') as (T' & F' & L' & K' & _).
  fold c in T, F, L, K. fold c' in T', F', L', K'.
  rewrite T, T', F, F', L, L', K, K'. clear T T' F F' L L' K K'.
  split; [now apply (count_total_ext measurements) |].
  split; [| split].
  - rewrite (length_filter_map has_flags (latest_runs data' pids)).
    rewrite (length_filter_map has_flags (latest_runs data pids)).
    f_equal. f_equal.
    apply (latest_runs_map has_flags). intros pid.
    apply (option_map_compose measurements (fun m : string * Q * Z * bool => snd m)).
    apply H.
  - f_equal.
    apply (latest_runs_map (fun run => opt_default 0 (latency_s run))). intros pid.
    apply (option_map_compose measurements
             (fun m : string * Q * Z * bool => snd (fst (fst m)))).
    apply H.
  - f_equal.
    apply (latest_runs_map (fun run => opt_default 0%Z (output_tokens run))).
    intros pid.
    apply (option_map_compose measurements
             (fun m : string * Q * Z * bool => snd (fst m))).
    apply H.
Qed.

Lemma judge_scores_map rs :
  judge_scores rs
  = flat_map (fun s : option Z => match s with Some z => [z] | None => [] end)
      (map judge_score rs).
Proof.
  unfold judge_scores. induction rs as [|r rs IH]; simpl; auto. now rewrite IH.
Qed.

(** Re-scoring a model changes none of the figures [cmd_compare] draws
    from the responses themselves: over any prompt list, the number of
    prompts with a run, the flagged count, the mean latency and the mean
    output tokens are the same after a pass of [cmd_rejudge] or of
    [cmd_deepeval] as before; and a pass of [cmd_deepeval] also leaves
    the scored count and the average judge score as they were. *)
Theorem rescoring_keeps_response_statistics :
  (forall env force judge_name by_id w name jw dw pids nm,
      let w' := rejudge_model env force judge_name by_id w name in
      let c := compare_stats jw dw pids nm
                 (load_model_results (rs_disk w) (rs_clock w) name) in
      let c' := compare_stats jw dw pids nm
                  (load_model_results (rs_disk w') (rs_clock w') name) in
      row_total c' = row_total c
      /\ row_flagged c' = row_flagged c
      /\ row_avg_l c' = row_avg_l c
      /\ row_avg_t c' = row_avg_t c)
  /\ (forall cfg env force by_id filter_pids w name jw dw pids nm,
         let w' := deepeval_model cfg env force by_id filter_pids w name in
         let c := compare_stats jw dw pids nm
                    (load_model_results (rs_disk w) (rs_clock w) name) in
         let c' := compare_stats jw dw pids nm
                     (load_model_results (rs_disk w') (rs_clock w') name) in
         row_total c' = row_total c
         /\ row_flagged c' = row_flagged c
         /\ row_avg_l c' = row_avg_l c
         /\ row_avg_t c' = row_avg_t c
         /\ row_scored c' = row_scored c
         /\ row_avg_s c' = row_avg_s c).
Proof.
  split.
  - intros. apply compare_stats_of_measurements.
    intros pid. apply rejudge_model_measurements.
  - intros cfg env force by_id filter_pids w name jw dw pids nm w' c c'.
    set (data := load_model_results (rs_disk w) (rs_clock w) name) in *.
    set (data' := load_model_results (rs_disk w') (rs_clock w') name) in *.
    assert (Hboth : forall pid,
               option_map (fun run => (measurements run, judge_score run))
                 (latest_run data' pid)
               = option_map (fun run => (measurements run, judge_score run))
                   (latest_run data pid)).
    { intros pid. apply deepeval_model_measurements. }
    assert (Hm : forall pid, option_map measurements (latest_run data' pid)
                             = option_map measurements (latest_run data pid)).
    { intros pid. specialize (Hboth pid).
      destruct (latest_run data' pid), (latest_run data pid); simpl in *; congruence. }
    assert (Hj : forall pid, option_map judge_score (latest_run data' pid)
                             = option_map judge_score (latest_run data pid)).
    { intros pid. specialize (Hboth pid).
      destruct (latest_run data' pid), (latest_run data pid); simpl in *; congruence. }
    destruct (compare_stats_of_measurements jw dw pids nm data data' Hm)
      as (H1 & H2 & H3 & H4).
    repeat (split; [assumption |]).
    assert (Hs : judge_scores (latest_runs data' pids)
                 = judge_scores (latest_runs data pids)).
    { rewrite !judge_scores_map.
      now rewrite (latest_runs_map judge_score data data' pids Hj). }
    destruct (compare_stats_fields jw dw pids nm data) as (_ & _ & _ & _ & S1 & S2).
    destruct (compare_stats_fields jw dw pids nm data') as (_ & _ & _ & _ & S1' & S2').
    fold c in S1, S2. fold c' in S1', S2'.
    rewrite S1, S1', S2, S2', Hs. split; reflexivity.
Qed.

(** ** Re-scoring: what the counters add up to *)

Lemma rejudge_select_settled force judge_name data pids t :
  settled (snd (rejudge_select force judge_name data pids t)) = settled t.
Proof.
  unfold rejudge_select.
  set (step := fun (acc : list string * totals) pid => _).
  assert (forall l acc0 t0, settled (snd (fold_left step l (acc0, t0))) = settled t0)
    as H.
  { induction l as [|pid l IH]; intros acc0 t0; cbn [fold_left]; auto.
    unfold step at 2. cbv beta iota.
    destruct (latest_run data pid) as [run|]; [| apply IH].
    destruct (truthy_str (error run)); [apply IH |].
    destruct (negb force && judged_by judge_name run); rewrite IH; reflexivity. }
  apply H.
Qed.

Lemma deepeval_select_settled force data pids t :
  settled (snd (deepeval_select force data pids t)) = settled t.
Proof.
  unfold deepeval_select.
  set (step := fun (acc : list string * totals) pid => _).
  assert (forall l acc0 t0, settled (snd (fold_left step l (acc0, t0))) = settled t0)
    as H.
  { induction l as [|pid l IH]; intros acc0 t0; cbn [fold_left]; auto.
    unfold step at 2. cbv beta iota.
    destruct (latest_run data pid) as [run|]; [| apply IH].
    destruct (truthy_str (error run)); [apply IH |].
    destruct (negb force && truthy_list (deepeval_scores run)); rewrite IH; reflexivity. }
  apply H.
Qed.

Lemma rejudge_step_settled env judge_name by_id st pid :
  settled (pass_totals (rejudge_step env judge_name by_id st pid))
  = (settled (pass_totals st) + if dict_mem by_id pid then 1 else 0)%nat.
Proof.
  unfold rejudge_step, dict_mem, settled.
  destruct (dict_get by_id pid); [| lia].
  destruct (latest_run (pass_data st) pid); cbn [pass_totals].
  - destruct (is_some _); simpl; lia.
  - simpl. lia.
Qed.

Lemma deepeval_step_settled cfg env by_id st pid :
  settled (pass_totals (deepeval_step cfg env by_id st pid))
  = (settled (pass_totals st) + if dict_mem by_id pid then 1 else 0)%nat.
Proof.
  unfold deepeval_step, dict_mem, settled.
  destruct (dict_get by_id pid); [| lia].
  destruct (latest_run (pass_data st) pid); cbn [pass_totals]; [| simpl; lia].
  destruct (score_with_deepeval _ _ _ _ _); cbn [pass_totals]; [| simpl; lia].
  destruct (is_some _); simpl; lia.
Qed.

Lemma fold_step_settled (step : pass -> string -> pass) (by_id : pydict prompt) l st :
  (forall st pid, settled (pass_totals (step st pid))
                  = (settled (pass_totals st) + if dict_mem by_id pid then 1 else 0)%nat) ->
  settled (pass_totals (fold_left step l st))
  = (settled (pass_totals st) + List.length (filter (dict_mem by_id) l))%nat.
Proof.
  intros H. revert st. induction l as [|q l IH]; intros st; simpl; [lia |].
  rewrite IH, H. destruct (dict_mem by_id q); simpl; lia.
Qed.

Lemma filter_filter {A : Type} (f g : A -> bool) (l : list A) :
  filter g (filter f l) = filter (fun x => f x && g x) l.
Proof.
  induction l as [|x l IH]; simpl; auto.
  destruct (f x); simpl; [destruct (g x) |]; now rewrite IH.
Qed.

(** Every candidate that a pass selects and whose prompt is in the eval
    set is counted exactly once, as judged (scored) or as an error; a
    selected candidate whose prompt is unknown is counted nowhere.  So
    over a model (other than the judge, for [cmd_rejudge]) the judged
    and error counters together grow by the number of selected
    candidates with a known prompt. *)
Theorem rescoring_counts_each_candidate_once :
  (forall env force judge_name by_id w name,
      name <> judge_name ->
      let data := load_model_results (rs_disk w) (rs_clock w) name in
      let w' := rejudge_model env force judge_name by_id w name in
      settled (rs_totals w')
      = (settled (rs_totals w)
         + List.length
             (known_candidates by_id
                (fun q => rejudge_fate force judge_name (latest_run data q))
                (dict_keys (runs data))))%nat)
  /\ (forall cfg env force by_id filter_pids w name,
         let data := load_model_results (rs_disk w) (rs_clock w) name in
         let w' := deepeval_model cfg env force by_id filter_pids w name in
         settled (rs_totals w')
         = (settled (rs_totals w)
            + List.length
                (known_candidates by_id
                   (fun q => deepeval_fate force (latest_run data q))
                   (deepeval_candidates filter_pids data)))%nat).
Proof.
  split.
  - intros env force judge_name by_id w name Hname data w'.
    subst w'. unfold rejudge_model, known_candidates.
    apply String.eqb_neq in Hname. rewrite Hname. fold data.
    destruct (runs data) as [|kv rest] eqn:Hruns; [simpl; lia |].
    rewrite <- Hruns.
    pose proof (rejudge_select_spec force judge_name data (dict_keys (runs data))
                  (rs_totals w)) as [Hsel _].
    pose proof (rejudge_select_settled force judge_name data (dict_keys (runs data))
                  (rs_totals w)) as Hset.
    destruct (rejudge_select force judge_name data (dict_keys (runs data)) (rs_totals w))
      as [to_judge t].
    cbn [fst snd] in Hsel, Hset.
    rewrite <- filter_filter, <- Hsel, <- Hset.
    destruct to_judge as [|q0 qs] eqn:Eto; [simpl; lia |].
    rewrite <- Eto. unfold save_model_results. cbn [rs_totals].
    rewrite (fold_step_settled _ by_id); [reflexivity |].
    intros. apply rejudge_step_settled.
  - intros cfg env force by_id filter_pids w name data w'.
    subst w'. unfold deepeval_model, known_candidates. fold data.
    destruct (runs data) as [|kv rest] eqn:Hruns.
    { unfold deepeval_candidates. rewrite Hruns. simpl.
      destruct (truthy_list filter_pids); simpl; lia. }
    rewrite <- Hruns.
    change (if truthy_list filter_pids
            then filter (fun p => str_in p (opt_list filter_pids))
                   (dict_keys (runs data))
            else dict_keys (runs data))
      with (deepeval_candidates filter_pids data).
    pose proof (deepeval_select_spec force data (deepeval_candidates filter_pids data)
                  (rs_totals w)) as [Hsel _].
    pose proof (deepeval_select_settled force data
                  (deepeval_candidates filter_pids data) (rs_totals w)) as Hset.
    destruct (deepeval_select force data (deepeval_candidates filter_pids data)
                (rs_totals w)) as [to_score t].
    cbn [fst snd] in Hsel, Hset.
    rewrite <- filter_filter, <- Hsel, <- Hset.
    destruct to_score as [|q0 qs] eqn:Eto; [simpl; lia |].
    rewrite <- Eto. unfold save_model_results. cbn [rs_totals].
    rewrite (fold_step_settled _ by_id); [reflexivity |].
    intros. apply deepeval_step_settled.
Qed.

Lemma rescoring_counts_each_candidate_once_witness :
  "gpt-4o" <> "judge"
  /\ settled
       (rs_totals
          (rejudge_model scoring_env true "judge" (prompts_by_id [sample_prompt "P1"])
             {| rs_clock := 5; rs_disk := one_file (scored_run "judge");
                rs_totals := no_totals |}
             "gpt-4o"))
     = 1%nat.
Proof.
  assert (H : "gpt-4o" <> "judge") by discriminate.
  split; [exact H |].
  exact (proj1 rescoring_counts_each_candidate_once scoring_env true "judge"
           (prompts_by_id [sample_prompt "P1"])
           {| rs_clock := 5; rs_disk := one_file (scored_run "judge");
              rs_totals := no_totals |}
           "gpt-4o" H).
Defined.

(** ** A model that is its own judge *)

Lemma eval_entry_self_judged cfg env name t p :
  judge_cfg_model cfg = Some name ->
  judge_score (eval_entry cfg env name t p) = None
  /\ judge_model (eval_entry cfg env name t p) = Some name.
Proof.
  intros Hj. unfold eval_entry, failure_entry, eval_judge_provider. rewrite Hj.
  rewrite String.eqb_refl. cbn [negb]. rewrite andb_false_r. cbn [andb].
  destruct (complete env t p) as [text usage_in usage_out el | msg el];
    [destruct (check_response env t p text) |]; split; reflexivity.
Qed.

Lemma entries_for_origin cfg env name t prompts pid e :
  In e (entries_for pid (eval_trace cfg env name t prompts)) ->
  exists t' q, e = eval_entry cfg env name t' q.
Proof.
  revert t. induction prompts as [|p ps IH]; intros t; [contradiction |].
  unfold entries_for. cbn [eval_trace filter fst].
  destruct (String.eqb (id p) pid).
  - cbn [map snd]. intros [<- | Hin]; [eauto | now apply (IH (S (S t)))].
  - apply (IH (S (S t))).
Qed.

Lemma last_some_in {A : Type} (l1 l2 : list A) :
  l2 <> [] -> exists x, last (map Some (l1 ++ l2)) None = Some x /\ In x l2.
Proof.
  intros Hne. destruct (exists_last Hne) as (front & x & ->).
  exists x. rewrite app_assoc, last_some_app. split; auto.
  apply in_or_app. right. now left.
Qed.

(** A model that is configured as the judge is never judged by itself:
    [cmd_eval] on it records every entry without a judge score, while
    naming it as [judge_model], and a later [cmd_rejudge] under the same
    configuration skips the model, so that the latest run of every
    prompt just evaluated still has no judge score. *)
Theorem self_judged_model_stays_unscored
    cfg env env' name prompts rerun disk0 now final
    models force eval_prompts now' w p :
  judge_cfg_model cfg = Some name ->
  cmd_eval cfg env name prompts rerun disk0 now = (EvalDone, final) ->
  cmd_rejudge cfg env' models force eval_prompts (disk final) now' = Some w ->
  In p (eval_todo (load_model_results disk0 now name) prompts rerun) ->
  exists run,
    latest_run (load_model_results (rs_disk w) (rs_clock w) name) (id p) = Some run
    /\ judge_score run = None
    /\ judge_model run = Some name.
Proof.
  intros Hj Heval Hrej Hp.
  assert (Hfile : dict_get (rs_disk w) name = dict_get (disk final) name).
  { apply (proj1 rescoring_is_confined_helper cfg env' models force eval_prompts
             (disk final) now' w name name Hrej Hj). now left. }
  unfold cmd_eval in Heval.
  destruct (negb (dict_mem (models_cfg cfg) name)); [discriminate |].
  destruct prompts as [|p0 ps]; [discriminate |].
  destruct (eval_todo (load_model_results disk0 now name) (p0 :: ps) rerun)
    as [|q qs] eqn:Etodo; [discriminate |].
  destruct (negb (str_in name (providers_ok cfg))); [discriminate |].
  injection Heval as <-.
  set (st0 := {| clock := S now; disk := disk0;
                 mem := load_model_results disk0 now name |}) in *.
  assert (Hsaved : dict_get (disk (eval_loop cfg env name (q :: qs) st0)) name
                   = Some (mem (eval_loop cfg env name (q :: qs) st0))).
  { apply eval_loop_saved. discriminate. }
  change (eval_loop cfg env name qs (eval_step cfg env name st0 q))
    with (eval_loop cfg env name (q :: qs) st0) in *.
  unfold load_model_results at 1. rewrite Hfile, Hsaved.
  rewrite latest_run_history, eval_loop_history.
  destruct (last_some_in (history (mem st0) (id p))
              (entries_for (id p) (eval_trace cfg env name (clock st0) (q :: qs))))
    as (run & Hlast & Hin).
  - apply in_split in Hp. destruct Hp as (l1 & l2 & Hsplit). rewrite Hsplit.
    rewrite eval_trace_app. unfold entries_for.
    rewrite filter_app, map_app. cbn [eval_trace filter fst].
    rewrite String.eqb_refl. cbn [map]. intros Hnil.
    apply app_eq_nil in Hnil. destruct Hnil as [_ Hnil]. discriminate.
  - exists run. split; [exact Hlast |].
    apply entries_for_origin in Hin. destruct Hin as (t' & q' & ->).
    now apply eval_entry_self_judged.
Qed.

Lemma self_judged_model_stays_unscored_witness :
  exists final w run,
    cmd_eval sample_cfg scoring_env "judge" [sample_prompt "P1"] false [] 0
    = (EvalDone, final)
    /\ cmd_rejudge sample_cfg scoring_env [] true [sample_prompt "P1"] (disk final) 9
       = Some w
    /\ latest_run (load_model_results (rs_disk w) (rs_clock w) "judge") "P1" = Some run
    /\ judge_score run = None.
Proof.
  assert (He : cmd_eval sample_cfg scoring_env "judge" [sample_prompt "P1"] false [] 0
               = (EvalDone,
                  snd (cmd_eval sample_cfg scoring_env "judge" [sample_prompt "P1"]
                         false [] 0)))
    by reflexivity.
  set (final := snd (cmd_eval sample_cfg scoring_env "judge" [sample_prompt "P1"]
                       false [] 0)) in *.
  destruct (cmd_rejudge sample_cfg scoring_env [] true [sample_prompt "P1"]
              (disk final) 9) as [w|] eqn:Hr; [| vm_compute in Hr; discriminate].
  destruct (self_judged_model_stays_unscored sample_cfg scoring_env scoring_env
              "judge" [sample_prompt "P1"] false [] 0%nat final
              [] true [sample_prompt "P1"] 9%nat w (sample_prompt "P1")
              eq_refl He Hr (or_introl eq_refl))
    as (run & Hl & Hs & _).
  exists final, w, run. auto.
Defined.

(** ** [get_provider] *)

Lemma provider_call_iff environ config :
  let key_env := opt_default EmptyString (Providers.api_key_env config) in
  ((exists p, Providers.provider_call environ config = Providers.Built p)
   <-> Providers.provider config = "ollama"
       \/ (In (Providers.provider config) Providers.keyed_providers
           /\ (key_env = "none" \/ Providers.key_is_set environ config)))
  /\ (Providers.provider config <> "ollama" ->
      key_env <> "none" ->
      ~ Providers.key_is_set environ config ->
      Providers.provider_call environ config
      = Providers.ValueError ("Set env var " ++ key_env ++ " with your API key")%string)
  /\ (~ In (Providers.provider config) ("ollama" :: Providers.keyed_providers) ->
      key_env = "none" \/ Providers.key_is_set environ config ->
      Providers.provider_call environ config
      = Providers.ValueError
          ("Unknown provider: " ++ Providers.provider config)%string).
Proof.
  intros key_env. unfold Providers.provider_call, Providers.get_provider, Providers.new,
    Providers.key_is_set. fold key_env.
  destruct (String.eqb (Providers.provider config) "ollama") eqn:Eo.
  { apply String.eqb_eq in Eo. split; [| split].
    - split; eauto.
    - congruence.
    - intros Hn. exfalso. apply Hn. now left. }
  apply String.eqb_neq in Eo.
  destruct (String.eqb key_env "none") eqn:En; cbn [negb andb].
  - apply String.eqb_eq in En. rewrite andb_false_r.
    unfold Providers.keyed_providers.
    destruct (String.eqb (Providers.provider config) "anthropic") eqn:E1;
      [apply String.eqb_eq in E1 | apply String.eqb_neq in E1].
    { split; [| split]; [split; eauto | congruence |].
      - intros _. right. split; [rewrite E1; simpl; tauto | now left].
      - intros Hn. exfalso. apply Hn. rewrite E1. simpl. tauto. }
    destruct (String.eqb (Providers.provider config) "openai") eqn:E2;
      [apply String.eqb_eq in E2 | apply String.eqb_neq in E2]; cbn [orb].
    { split; [| split]; [split; eauto | congruence |].
      - intros _. right. split; [rewrite E2; simpl; tauto | now left].
      - intros Hn. exfalso. apply Hn. rewrite E2. simpl. tauto. }
    destruct (String.eqb (Providers.provider config) "openai_compatible") eqn:E3;
      [apply String.eqb_eq in E3 | apply String.eqb_neq in E3].
    { split; [| split]; [split; eauto | congruence |].
      - intros _. right. split; [rewrite E3; simpl; tauto | now left].
      - intros Hn. exfalso. apply Hn. rewrite E3. simpl. tauto. }
    destruct (String.eqb (Providers.provider config) "google") eqn:E4;
      [apply String.eqb_eq in E4 | apply String.eqb_neq in E4].
    { split; [| split]; [split; eauto | congruence |].
      - intros _. right. split; [rewrite E4; simpl; tauto | now left].
      - intros Hn. exfalso. apply Hn. rewrite E4. simpl. tauto. }
    destruct (String.eqb (Providers.provider config) "bedrock") eqn:E5;
      [apply String.eqb_eq in E5 | apply String.eqb_neq in E5].
    { split; [| split]; [split; eauto | congruence |].
      - intros _. right. split; [rewrite E5; simpl; tauto | now left].
      - intros Hn. exfalso. apply Hn. rewrite E5. simpl. tauto. }
    split; [| split]; [| congruence | reflexivity].
    split.
    + intros [p Hp]. discriminate.
    + intros [H | [H _]]; [congruence |]. simpl in H.
      exfalso. intuition congruence.
  - apply String.eqb_neq in En. rewrite andb_true_r.
    destruct (environ key_env) as [k|] eqn:Ek; cbn [opt_default].
    2:{ rewrite String.eqb_refl. split; [| split].
        - split.
          + intros [p Hp]. discriminate.
          + intros [H | [_ [H | (k & Hk & _)]]]; congruence.
        - reflexivity.
        - intros _ [H | (k & Hk & _)]; congruence. }
    destruct (String.eqb k EmptyString) eqn:Ee;
      [apply String.eqb_eq in Ee | apply String.eqb_neq in Ee].
    { subst k. split; [| split].
      - split.
        + intros [p Hp]. discriminate.
        + intros [H | [_ [H | (k & Hk & Hne)]]]; congruence.
      - reflexivity.
      - intros _ [H | (k & Hk & Hne)]; congruence. }
    assert (Hset : exists k0, Some k = Some k0 /\ k0 <> EmptyString) by eauto.
    unfold Providers.keyed_providers.
    destruct (String.eqb (Providers.provider config) "anthropic") eqn:E1;
      [apply String.eqb_eq in E1 | apply String.eqb_neq in E1].
    { split; [| split]; [split; eauto | tauto |].
      - intros _. right. split; [rewrite E1; simpl; tauto | now right].
      - intros Hn. exfalso. apply Hn. rewrite E1. simpl. tauto. }
    destruct (String.eqb (Providers.provider config) "openai") eqn:E2;
      [apply String.eqb_eq in E2 | apply String.eqb_neq in E2]; cbn [orb].
    { split; [| split]; [split; eauto | tauto |].
      - intros _. right. split; [rewrite E2; simpl; tauto | now right].
      - intros Hn. exfalso. apply Hn. rewrite E2. simpl. tauto. }
    destruct (String.eqb (Providers.provider config) "openai_compatible") eqn:E3;
      [apply String.eqb_eq in E3 | apply String.eqb_neq in E3].
    { split; [| split]; [split; eauto | tauto |].
      - intros _. right. split; [rewrite E3; simpl; tauto | now right].
      - intros Hn. exfalso. apply Hn. rewrite E3. simpl. tauto. }
    destruct (String.eqb (Providers.provider config) "google") eqn:E4;
      [apply String.eqb_eq in E4 | apply String.eqb_neq in E4].
    { split; [| split]; [split; eauto | tauto |].
      - intros _. right. split; [rewrite E4; simpl; tauto | now right].
      - intros Hn. exfalso. apply Hn. rewrite E4. simpl. tauto. }
    destruct (String.eqb (Providers.provider config) "bedrock") eqn:E5;
      [apply String.eqb_eq in E5 | apply String.eqb_neq in E5].
    { split; [| split]; [split; eauto | tauto |].
      - intros _. right. split; [rewrite E5; simpl; tauto | now right].
      - intros Hn. exfalso. apply Hn. rewrite E5. simpl. tauto. }
    split; [| split]; [| tauto | reflexivity].
    split.
    + intros [p Hp]. discriminate.
    + intros [H | [H _]]; [congruence |]. simpl in H.
      exfalso. intuition congruence.
Qed.

Lemma get_provider_call environ construct config :
  Providers.get_provider environ construct config
  = match Providers.provider_call environ config with
    | Providers.Built p => Providers.new construct p
    | o => o
    end.
Proof.
  unfold Providers.provider_call, Providers.get_provider, Providers.new.
  repeat match goal with
         | |- context [if ?c then _ else _] => destruct c
         end; reflexivity.
Qed.

(** [get_provider] gets to the constructor of a provider exactly when
    the type is "ollama", or the type is one of the five others and the
    key is waived ([api_key_env] is "none") or set to a non-empty value
    in the environment; it then returns the object when the constructor
    returns, and the exception of the constructor gets out when it
    raises.  For every type but "ollama" the key is checked first: with
    the variable unset or empty, the error is the one about the
    variable, also for "bedrock", whose provider takes no key, and for
    an unknown type. *)
Theorem get_provider_builds_iff environ construct config :
  let key_env := opt_default EmptyString (Providers.api_key_env config) in
  let reached :=
    Providers.provider config = "ollama"
    \/ (In (Providers.provider config) Providers.keyed_providers
        /\ (key_env = "none" \/ Providers.key_is_set environ config)) in
  ((exists p, Providers.get_provider environ construct config = Providers.Built p
              \/ exists msg, Providers.get_provider environ construct config
                             = Providers.ConstructorRaised p msg)
   <-> reached)
  /\ ((exists p, Providers.get_provider environ construct config = Providers.Built p)
      <-> reached
          /\ forall p, Providers.provider_call environ config = Providers.Built p ->
                       construct p = None)
  /\ (forall p msg,
        Providers.get_provider environ construct config
        = Providers.ConstructorRaised p msg ->
        construct p = Some msg)
  /\ (Providers.provider config <> "ollama" ->
      key_env <> "none" ->
      ~ Providers.key_is_set environ config ->
      Providers.get_provider environ construct config
      = Providers.ValueError ("Set env var " ++ key_env ++ " with your API key")%string)
  /\ (~ In (Providers.provider config) ("ollama" :: Providers.keyed_providers) ->
      key_env = "none" \/ Providers.key_is_set environ config ->
      Providers.get_provider environ construct config
      = Providers.ValueError
          ("Unknown provider: " ++ Providers.provider config)%string).
Proof.
  cbv zeta. destruct (provider_call_iff environ config) as (Hiff & Hkey & Hunknown).
  cbv zeta in Hiff, Hkey, Hunknown.
  rewrite get_provider_call.
  assert (Hnever : forall p msg,
            Providers.provider_call environ config
            <> Providers.ConstructorRaised p msg).
  { intros p msg. unfold Providers.provider_call, Providers.get_provider, Providers.new.
    repeat match goal with
           | |- context [if ?c then _ else _] => destruct c
           end; discriminate. }
  destruct (Providers.provider_call environ config) as [q | m | q m] eqn:Ecall.
  - assert (Hreached := proj1 Hiff (ex_intro _ q eq_refl)).
    unfold Providers.new.
    split; [| split; [| split; [| split]]].
    + split; [intros _; exact Hreached |]. intros _. exists q.
      destruct (construct q) as [msg|]; [right; now exists msg | now left].
    + split.
      * intros [p Hp]. split; [exact Hreached |]. intros p' Hp'.
        injection Hp' as <-. now destruct (construct q).
      * intros [_ Hc]. exists q. now rewrite (Hc q eq_refl).
    + intros p msg H. destruct (construct q) eqn:Ec; [| discriminate].
      injection H as <- <-. exact Ec.
    + intros H1 H2 H3. discriminate (Hkey H1 H2 H3).
    + intros H1 H2. discriminate (Hunknown H1 H2).
  - split; [| split; [| split; [| split]]].
    + split.
      * intros [p [Hp | [msg Hp]]]; discriminate.
      * intros H. apply Hiff in H. destruct H as [p Hp]. discriminate.
    + split.
      * intros [p Hp]. discriminate.
      * intros [H _]. apply Hiff in H. destruct H as [p Hp]. discriminate.
    + intros p msg H. discriminate.
    + exact Hkey.
    + exact Hunknown.
  - exfalso. exact (Hnever q m eq_refl).
Qed.

Lemma get_provider_builds_iff_witness :
  Providers.get_provider empty_environ (fun _ => Some "No module named 'boto3'")
    bedrock_config
  = Providers.ValueError "Set env var  with your API key".
Proof.
  apply (proj1 (proj2 (proj2 (proj2
           (get_provider_builds_iff empty_environ
              (fun _ => Some "No module named 'boto3'") bedrock_config))))).
  - discriminate.
  - discriminate.
  - intros (k & Hk & _). discriminate.
Defined.

(** ** [list_evaluated_models] *)

Lemma insert_sorted_perm s l : Permutation (s :: l) (insert_sorted s l).
Proof.
  induction l as [|x l IH]; simpl; auto.
  destruct (String.leb s x); auto.
  rewrite perm_swap. now constructor.
Qed.

Lemma sorted_strings_perm l : Permutation l (sorted_strings l).
Proof.
  induction l as [|x l IH]; simpl; auto.
  rewrite <- insert_sorted_perm. now constructor.
Qed.

Lemma insert_sorted_hd s l x :
  HdRel (fun a b => String.leb a b = true) x l -> String.leb x s = true ->
  HdRel (fun a b => String.leb a b = true) x (insert_sorted s l).
Proof.
  intros Hl Hs. destruct l as [|y l]; simpl.
  - now constructor.
  - destruct (String.leb s y); constructor; auto. now inversion Hl.
Qed.

Lemma insert_sorted_sorted s l :
  Sorted (fun a b => String.leb a b = true) l ->
  Sorted (fun a b => String.leb a b = true) (insert_sorted s l).
Proof.
  induction 1 as [|x l Hs IH Hhd]; simpl.
  - repeat constructor.
  - destruct (String.leb s x) eqn:E.
    + constructor; [now constructor | now constructor].
    + constructor; auto. apply insert_sorted_hd; auto.
      destruct (String.leb_total s x) as [H | H]; congruence.
Qed.

(** The models listed are the stems of the result files other than
    "comparison", each as often as it occurs, in ascending order. *)
Theorem list_evaluated_models_sorted (d : results_dir) :
  Sorted (fun a b => String.leb a b = true) (list_evaluated_models d)
  /\ Permutation
       (filter (fun n => negb (String.eqb n "comparison")) (dict_keys d))
       (list_evaluated_models d)
  /\ (forall n, In n (list_evaluated_models d)
                <-> In n (dict_keys d) /\ n <> "comparison").
Proof.
  unfold list_evaluated_models. split; [| split].
  - unfold sorted_strings.
    induction (filter _ (dict_keys d)) as [|x l IH]; simpl.
    + constructor.
    + now apply insert_sorted_sorted.
  - apply sorted_strings_perm.
  - intros n. split.
    + intros H. apply (Permutation_in n (Permutation_sym (sorted_strings_perm _))) in H.
      apply filter_In in H. destruct H as [H1 H2]. split; auto.
      apply negb_true_iff in H2. now apply String.eqb_neq.
    + intros [H1 H2]. apply (Permutation_in n (sorted_strings_perm _)).
      apply filter_In. split; auto. apply negb_true_iff. now apply String.eqb_neq.
Qed.

(** ** [filter_prompts] *)

Lemma truthy_list_false {A : Type} (l : option (list A)) :
  truthy_list l = false <-> opt_list l = [].
Proof.
  destruct l as [[|x xs]|]; simpl; split; congruence.
Qed.

(** The three filters as one test on a prompt. *)
Lemma filter_prompts_as_filter prompts ids cats diffs :
  filter_prompts prompts ids cats diffs
  = filter
      (fun p =>
         (negb (truthy_list ids) || str_in (id p) (opt_list ids))
         && (negb (truthy_list cats)
             || str_in (lower (category p)) (map lower (opt_list cats)))
         && (negb (truthy_list diffs)
             || str_in (lower (difficulty p)) (map lower (opt_list diffs))))
      prompts.
Proof.
  unfold filter_prompts.
  destruct (truthy_list ids), (truthy_list cats), (truthy_list diffs);
    cbn [negb orb]; rewrite ?filter_filter;
    try (apply filter_ext; intros p; rewrite ?andb_true_r, ?andb_assoc; reflexivity).
  transitivity (filter (fun _ : prompt => true) prompts).
  - induction prompts as [|p ps IH]; simpl; congruence.
  - apply filter_ext. reflexivity.
Qed.

(** [filter_prompts] keeps, in their order and without repeating any, the
    prompts that pass every filter that is given: the id is one of
    [ids], the category is one of [categories] and the difficulty one of
    [difficulty], the last two compared after [lower()].  A filter that
    is absent or an empty list filters nothing, and filtering twice is
    filtering once. *)
Theorem filter_prompts_keeps_matching prompts ids cats diffs :
  (forall p,
      In p (filter_prompts prompts ids cats diffs)
      <-> In p prompts
          /\ (opt_list ids = [] \/ In (id p) (opt_list ids))
          /\ (opt_list cats = []
              \/ In (lower (category p)) (map lower (opt_list cats)))
          /\ (opt_list diffs = []
              \/ In (lower (difficulty p)) (map lower (opt_list diffs))))
  /\ (exists keep, filter_prompts prompts ids cats diffs = filter keep prompts)
  /\ filter_prompts prompts None None None = prompts
  /\ filter_prompts prompts (Some []) (Some []) (Some []) = prompts
  /\ filter_prompts (filter_prompts prompts ids cats diffs) ids cats diffs
     = filter_prompts prompts ids cats diffs.
Proof.
  assert (Hopt : forall (x : option (list string)) (s : string) (xs : list string),
             negb (truthy_list x) || str_in s xs = true
             <-> opt_list x = [] \/ In s xs).
  { intros x s xs. rewrite orb_true_iff, negb_true_iff, truthy_list_false.
    now rewrite str_in_In. }
  split; [| split; [| split; [| split]]].
  - intros p. rewrite filter_prompts_as_filter, filter_In, !andb_true_iff.
    rewrite !Hopt. tauto.
  - eexists. apply filter_prompts_as_filter.
  - reflexivity.
  - reflexivity.
  - rewrite !filter_prompts_as_filter, filter_filter.
    apply filter_ext. intros p. now rewrite andb_diag.
Qed.

(** ** [score_with_deepeval] *)

Lemma dict_get_in {V : Type} (d : pydict V) k v :
  dict_get d k = Some v -> In (k, v) d.
Proof.
  induction d as [|[k0 v0] rest IH]; simpl; [discriminate |].
  destruct (String.eqb k k0) eqn:E.
  - apply String.eqb_eq in E. intros H. injection H as ->. subst. now left.
  - intros H. right. now apply IH.
Qed.

Lemma dict_in_get {V : Type} (d : pydict V) k v :
  NoDup (dict_keys d) -> In (k, v) d -> dict_get d k = Some v.
Proof.
  induction d as [|[k0 v0] rest IH]; simpl; [contradiction |].
  intros Hnd Hin. inversion Hnd as [|? ? Hnotin Hnd']; subst.
  destruct Hin as [Heq | Hin].
  - injection Heq as -> ->. now rewrite String.eqb_refl.
  - destruct (String.eqb k k0) eqn:E.
    + apply String.eqb_eq in E. subst. exfalso. apply Hnotin.
      apply (in_map fst) in Hin. exact Hin.
    + now apply IH.
Qed.

Lemma dict_set_nodup {V : Type} (d : pydict V) k v :
  NoDup (dict_keys d) -> NoDup (dict_keys (dict_set d k v)).
Proof.
  intros Hnd. rewrite dict_keys_set. unfold dict_mem.
  destruct (dict_get d k) eqn:E; auto.
  apply dict_get_none_keys in E.
  apply NoDup_app; auto; [repeat constructor; simpl; tauto |].
  intros x Hx [<- | []]. contradiction.
Qed.

Lemma valid_scores_in scores s :
  In s (valid_scores scores) <-> exists m, In (m, Some s) scores.
Proof.
  unfold valid_scores. rewrite in_flat_map. split.
  - intros ([m [v|]] & Hin & Hs); simpl in Hs; [| contradiction].
    destruct Hs as [<- | []]. eauto.
  - intros (m & Hin). exists (m, Some s). split; [exact Hin | simpl; now left].
Qed.

(** When the deepeval package is there, [score_with_deepeval] returns
    one entry per configured metric that it knows, and none for any
    other name; each entry is what that metric alone gave, a metric that
    fails or raises getting null without touching the others; and the
    average is null exactly when no metric gave a score, and otherwise
    the sum of the scores that are there, as the interpreter computes
    it, divided by their number and rounded to 4 decimals, all in
    binary64.  Without the package the call raises. *)
Theorem score_with_deepeval_per_metric cfg env now pmeta response :
  (deepeval_imports env = true ->
   exists scores avg,
     score_with_deepeval cfg env now pmeta response = DeepEvalResult scores avg
     /\ (forall m,
           dict_get scores m
           = if str_in m (deepeval_metrics cfg) && str_in m metric_builders
             then Some (metric_entry env now m pmeta response)
             else None)
     /\ NoDup (dict_keys scores)
     /\ (avg = None <-> forall m s, dict_get scores m <> Some (Some s))
     /\ avg = match valid_scores scores with
              | [] => None
              | _ => Some (F64.round
                             (F64.div (float_sum env (valid_scores scores))
                                (lenQ (valid_scores scores))) 4)
              end)
  /\ (deepeval_imports env = false ->
      exists msg, score_with_deepeval cfg env now pmeta response = DeepEvalRaised msg).
Proof.
  split.
  2:{ intros H. unfold score_with_deepeval. rewrite H. simpl. eauto. }
  intros Himp. unfold score_with_deepeval. rewrite Himp. cbn [negb].
  fold (metric_entry env now).
  set (step := fun (acc : pydict (option Q)) (metric_name : string) =>
                 if str_in metric_name metric_builders
                 then dict_set acc metric_name
                        (metric_entry env now metric_name pmeta response)
                 else acc).
  change (fold_left _ (deepeval_metrics cfg) [])
    with (fold_left step (deepeval_metrics cfg) []).
  set (scores := fold_left step (deepeval_metrics cfg) []).
  assert (Hget : forall l acc m,
             dict_get (fold_left step l acc) m
             = if str_in m l && str_in m metric_builders
               then Some (metric_entry env now m pmeta response)
               else dict_get acc m).
  { induction l as [|x l IH]; intros acc m; [reflexivity |].
    cbn [fold_left]. rewrite IH.
    replace (str_in m (x :: l)) with (String.eqb m x || str_in m l) by reflexivity.
    unfold step at 1.
    destruct (str_in m metric_builders) eqn:Ek;
      [| rewrite !andb_false_r;
         destruct (str_in x metric_builders) eqn:Ex; auto;
         apply dict_get_set_other; intros ->; congruence].
    rewrite !andb_true_r.
    destruct (str_in m l); [now rewrite orb_true_r |].
    rewrite orb_false_r. destruct (String.eqb m x) eqn:E.
    - apply String.eqb_eq in E. subst x. rewrite Ek. apply dict_get_set_same.
    - apply String.eqb_neq in E.
      destruct (str_in x metric_builders); [now apply dict_get_set_other | reflexivity]. }
  assert (Hnd : NoDup (dict_keys scores)).
  { unfold scores.
    assert (forall l acc, NoDup (dict_keys acc) -> NoDup (dict_keys (fold_left step l acc)))
      as H.
    { induction l as [|x l IH]; intros acc Hacc; simpl; auto.
      apply IH. unfold step. destruct (str_in x metric_builders); auto.
      now apply dict_set_nodup. }
    apply H. constructor. }
  exists scores. eexists. split; [reflexivity |].
  split; [intros m; unfold scores; now rewrite Hget |].
  split; [exact Hnd |]. split; [| reflexivity].
  split.
  - intros Havg m s Hm.
    assert (In s (valid_scores scores)) as Hin.
    { apply valid_scores_in. exists m. now apply dict_get_in. }
    destruct (valid_scores scores); [contradiction | discriminate].
  - intros Hall. destruct (valid_scores scores) as [|s v] eqn:Ev; [reflexivity |].
    assert (In s (valid_scores scores)) as Hin by (rewrite Ev; now left).
    apply valid_scores_in in Hin. destruct Hin as [m Hin].
    exfalso. apply (Hall m s). now apply dict_in_get.
Qed.

Lemma score_with_deepeval_per_metric_witness :
  exists scores avg,
    score_with_deepeval sample_cfg scoring_env 3 (sample_prompt "P1") "Use range(n)."
    = DeepEvalResult scores avg
    /\ dict_get scores "coherence" = Some (Some (F64.round (4 # 5) 4))
    /\ dict_get scores "fluency" = None.
Proof.
  destruct (proj1 (score_with_deepeval_per_metric sample_cfg scoring_env 3%nat
                     (sample_prompt "P1") "Use range(n).") eq_refl)
    as (scores & avg & Hrun & Hget & _).
  exists scores, avg. split; [exact Hrun |]. split.
  - rewrite Hget. reflexivity.
  - rewrite Hget. reflexivity.
Defined.

(** ** Rounding and the range of the composite *)























(** ** The counts of a leaderboard row *)

Lemma count_total_latest_runs data pids :
  count_total (latest_run data) pids = List.length (latest_runs data pids).
Proof.
  unfold count_total, latest_runs. induction pids as [|pid pids IH]; simpl; auto.
  rewrite length_app. destruct (latest_run data pid); simpl; now rewrite IH.
Qed.

Lemma latest_runs_length data pids :
  (List.length (latest_runs data pids) <= List.length pids)%nat.
Proof.
  unfold latest_runs. induction pids as [|pid pids IH]; simpl; auto.
  rewrite length_app. destruct (latest_run data pid); simpl; lia.
Qed.

Lemma judge_scores_length rs :
  (List.length (judge_scores rs) <= List.length rs)%nat.
Proof.
  unfold judge_scores. induction rs as [|r rs IH]; simpl; auto.
  rewrite length_app. destruct (judge_score r); simpl; lia.
Qed.

Lemma filter_split_length {A : Type} (f : A -> bool) (l : list A) :
  (List.length (filter f l) + List.length (filter (fun x => negb (f x)) l)
   = List.length l)%nat.
Proof.
  induction l as [|x l IH]; simpl; auto. destruct (f x); simpl; lia.
Qed.

(** In a row of [cmd_compare] the scored and the flagged counts never
    exceed the total, which is the number of prompts with a run and never
    exceeds the number of prompts.  In a row of [compute_stats] the total
    is the same; the runs with an error are counted apart, and the scored
    and the flagged counts together with the errors never exceed the
    total. *)
Theorem row_counts_are_consistent jw dw pids nm data :
  let c := compare_stats jw dw pids nm data in
  let d := Dashboard.stats jw dw pids nm data in
  (row_scored c <= row_total c)%nat
  /\ (row_flagged c <= row_total c)%nat
  /\ (row_total c <= List.length pids)%nat
  /\ Dashboard.total d = row_total c
  /\ (Dashboard.scored d + Dashboard.errors d <= Dashboard.total d)%nat
  /\ (Dashboard.flagged d + Dashboard.errors d <= Dashboard.total d)%nat
  /\ (Dashboard.scored d <= row_scored c)%nat
  /\ (Dashboard.flagged d <= row_flagged c)%nat.
Proof.
  cbv zeta. unfold compare_stats, Dashboard.stats.
  cbn [row_scored row_total row_flagged Dashboard.total Dashboard.scored
       Dashboard.errors Dashboard.flagged].
  rewrite compare_gather_latest, dashboard_gather_latest. unfold gathered_from.
  cbn [g_scores g_flagged g_errors].
  change (count_total (Dashboard.latest_run data) pids)
    with (count_total (latest_run data) pids).
  rewrite count_total_latest_runs.
  set (rs := latest_runs data pids).
  pose proof (judge_scores_length rs) as H1.
  pose proof (filter_length_le has_flags rs) as H2.
  pose proof (latest_runs_length data pids) as H3. fold rs in H3.
  pose proof (judge_scores_length (error_free rs)) as H4.
  pose proof (filter_length_le has_flags (error_free rs)) as H5.
  pose proof (filter_split_length (fun run => truthy_str (error run)) rs) as H6.
  cbv beta in H6.
  change (filter (fun x => negb (truthy_str (error x))) rs)
    with (error_free rs) in H6.
  assert (H7 : (List.length (judge_scores (error_free rs))
                <= List.length (judge_scores rs))%nat).
  { unfold error_free, judge_scores. clear. induction rs as [|r rs IH]; simpl; auto.
    destruct (truthy_str (error r)); simpl; rewrite ?length_app; lia. }
  assert (H8 : (List.length (filter has_flags (error_free rs))
                <= List.length (filter has_flags rs))%nat).
  { unfold error_free. clear. induction rs as [|r rs IH]; simpl; auto.
    destruct (truthy_str (error r)); simpl; destruct (has_flags r); simpl; lia. }
  repeat split; lia.
Qed.

(** ** Ties in the ranking *)








(** ** [generate_dashboard]: which models it shows *)

Lemma filter_perm {A : Type} (f : A -> bool) l l' :
  Permutation l l' -> Permutation (filter f l) (filter f l').
Proof.
  induction 1 as [| x l l' _ IH | x y l | l l' l'' _ IH1 _ IH2]; simpl.
  - constructor.
  - destruct (f x); auto.
  - destruct (f x), (f y); auto. apply perm_swap.
  - now transitivity (filter f l').
Qed.

Lemma insert_by_path_perm {V : Type} (f : string * V) l :
  Permutation (f :: l) (insert_by_path f l).
Proof.
  induction l as [|g l IH]; simpl; auto.
  destruct (String.leb _ _); auto.
  rewrite perm_swap. now constructor.
Qed.

Lemma sorted_by_path_perm {V : Type} (l : list (string * V)) :
  Permutation l (sorted_by_path l).
Proof.
  induction l as [|x l IH]; simpl; auto.
  rewrite <- insert_by_path_perm. now constructor.
Qed.

Lemma load_all_results_fold (l : list (string * model_data)) acc :
  NoDup (map fst l) -> (forall f, In f l -> ~ In (fst f) (dict_keys acc)) ->
  fold_left
    (fun models f =>
       if String.eqb (fst f) "comparison" then models
       else dict_set models (fst f) (snd f))
    l acc
  = acc ++ filter (fun f => negb (String.eqb (fst f) "comparison")) l.
Proof.
  revert acc. induction l as [|[n data] l IH]; intros acc Hnd Hfresh.
  - simpl. now rewrite app_nil_r.
  - cbn [map fst] in Hnd. inversion Hnd as [|? ? Hn Hnd']; subst.
    cbn [fold_left filter fst snd].
    destruct (String.eqb n "comparison") eqn:E; cbn [negb].
    + apply IH; auto. intros f Hf. apply Hfresh. now right.
    + assert (Hg : dict_get acc n = None).
      { apply dict_get_none_keys. apply (Hfresh (n, data)). now left. }
      rewrite IH; auto.
      * rewrite dict_set_fresh by exact Hg. now rewrite <- app_assoc.
      * intros f Hf. rewrite dict_keys_set. unfold dict_mem. rewrite Hg.
        intros Hin. apply in_app_or in Hin. destruct Hin as [Hin | [Heq | []]].
        -- apply (Hfresh f); [now right | exact Hin].
        -- apply Hn. rewrite Heq. now apply in_map.
Qed.

Lemma load_all_results_kept (d : results_dir) :
  NoDup (dict_keys d) ->
  load_all_results d
  = filter (fun f => negb (String.eqb (fst f) "comparison")) (sorted_by_path d).
Proof.
  intros Hnd. unfold load_all_results.
  rewrite (load_all_results_fold (sorted_by_path d) []); auto.
  eapply Permutation_NoDup; [| exact Hnd].
  apply Permutation_map. apply sorted_by_path_perm.
Qed.

Lemma dict_del_filter {V : Type} (m : pydict V) k :
  NoDup (dict_keys m) ->
  dict_del m k = filter (fun nd => negb (String.eqb k (fst nd))) m.
Proof.
  induction m as [|[k' v] rest IH]; intros Hnd; [reflexivity |].
  cbn [dict_keys map fst] in Hnd. inversion Hnd as [|? ? Hk Hnd']; subst.
  cbn [dict_del filter fst]. destruct (String.eqb k k') eqn:E; cbn [negb].
  - apply String.eqb_eq in E. subst k'.
    symmetry. apply forallb_filter_id. apply forallb_forall.
    intros [k2 v2] Hin. cbn [fst]. apply negb_true_iff. apply String.eqb_neq.
    intros ->. apply Hk. change k2 with (fst (k2, v2)). now apply in_map.
  - f_equal. now apply IH.
Qed.

Lemma filter_absent_id {V : Type} (m : pydict V) k :
  dict_mem m k = false ->
  filter (fun nd => negb (String.eqb k (fst nd))) m = m.
Proof.
  unfold dict_mem. intros H. apply forallb_filter_id. apply forallb_forall.
  intros [k2 v2] Hin. cbn [fst]. apply negb_true_iff. apply String.eqb_neq.
  intros <-. destruct (dict_get m k) eqn:E; [discriminate |].
  apply dict_get_none_keys in E. apply E.
  change k with (fst (k, v2)). now apply in_map.
Qed.

Lemma generate_dashboard_eq d judge_model composite_config prompts :
  generate_dashboard d judge_model composite_config prompts
  = match load_all_results d with
    | [] => None
    | _ :: _ =>
        Some (Dashboard.compute_stats
                (if truthy_str judge_model
                    && dict_mem (load_all_results d) (opt_default EmptyString judge_model)
                 then dict_del (load_all_results d) (opt_default EmptyString judge_model)
                 else load_all_results d)
                prompts composite_config)
    end.
Proof. unfold generate_dashboard. now destruct (load_all_results d). Qed.

(** With one file per model, [generate_dashboard] gives up exactly when
    there is no result file but the report; otherwise its leaderboard has
    one row for every result file other than the report and the file of
    the configured judge model, whether the file has runs or not, and no
    row for the judge model. *)
Theorem dashboard_leaves_out_the_judge d judge_model composite_config prompts :
  NoDup (dict_keys d) ->
  (generate_dashboard d judge_model composite_config prompts = None
   <-> forall n, In n (dict_keys d) -> n = "comparison")
  /\ forall rows,
       generate_dashboard d judge_model composite_config prompts = Some rows ->
       Permutation rows
         (map (fun f => Dashboard.stats (fst (weights_of composite_config))
                          (snd (weights_of composite_config))
                          (map id prompts) (fst f) (snd f))
            (filter (shown_file judge_model) d))
       /\ forall j, judge_model = Some j -> j <> EmptyString ->
                    ~ In j (map Dashboard.name rows).
Proof.
  intros Hnd. rewrite generate_dashboard_eq, (load_all_results_kept d Hnd).
  set (kept := filter (fun f => negb (String.eqb (fst f) "comparison"))
                 (sorted_by_path d)).
  assert (Hkept : Permutation
                    (filter (fun f => negb (String.eqb (fst f) "comparison")) d) kept).
  { apply filter_perm. apply sorted_by_path_perm. }
  assert (Hkd : NoDup (dict_keys kept)).
  { unfold dict_keys. eapply Permutation_NoDup.
    - apply Permutation_map. exact Hkept.
    - clear -Hnd. unfold dict_keys in Hnd.
      induction d as [|[n data] d IH]; simpl; [constructor |].
      inversion Hnd as [|? ? Hn Hnd']; subst.
      destruct (String.eqb n "comparison"); simpl; auto.
      constructor; auto. intros Hin. apply Hn.
      apply in_map_iff in Hin. destruct Hin as (f & <- & Hf).
      apply filter_In in Hf. apply in_map. tauto. }
  split.
  - split.
    + intros H n Hn. destruct kept as [|f kept'] eqn:E; [| discriminate].
      apply in_map_iff in Hn. destruct Hn as ([n' data] & <- & Hin). cbn [fst].
      destruct (String.eqb n' "comparison") eqn:En; [now apply String.eqb_eq |].
      exfalso. apply (Permutation_in (n', data)) in Hkept; [contradiction |].
      apply filter_In. split; auto. cbn [fst]. now rewrite En.
    + intros H. destruct kept as [|f kept'] eqn:E; [reflexivity |].
      exfalso. assert (Hf : In f (f :: kept')) by now left.
      apply (Permutation_in f (Permutation_sym Hkept)) in Hf.
      apply filter_In in Hf. destruct Hf as [Hin Hne].
      rewrite (H (fst f)) in Hne by now apply in_map. discriminate.
  - intros rows Hrows.
    assert (Hsome : rows
              = Dashboard.compute_stats
                  (filter (fun nd => negb (truthy_str judge_model
                                           && String.eqb (opt_default EmptyString judge_model)
                                                (fst nd)))
                     kept)
                  prompts composite_config).
    { assert (Hx : Some (Dashboard.compute_stats
                           (if truthy_str judge_model
                               && dict_mem kept (opt_default EmptyString judge_model)
                            then dict_del kept (opt_default EmptyString judge_model)
                            else kept)
                           prompts composite_config)
                   = Some rows).
      { clear -Hrows. destruct kept; [discriminate | exact Hrows]. }
      injection Hx as <-. f_equal.
      destruct (truthy_str judge_model) eqn:Ej; cbn [andb].
      - destruct (dict_mem kept (opt_default EmptyString judge_model)) eqn:Em.
        + now apply dict_del_filter.
        + symmetry. now apply filter_absent_id.
      - symmetry. apply forallb_filter_id. now apply forallb_forall. }
    clear Hrows. subst rows.
    assert (Hshown : Permutation
              (filter (fun nd => negb (truthy_str judge_model
                                       && String.eqb (opt_default EmptyString judge_model)
                                            (fst nd)))
                 kept)
              (filter (shown_file judge_model) d)).
    { eapply Permutation_trans.
      - apply filter_perm. apply Permutation_sym. exact Hkept.
      - rewrite filter_filter. unfold shown_file. apply Permutation_refl. }
    split.
    + unfold Dashboard.compute_stats, weights_of. cbn [fst snd].
      rewrite <- sort_reverse_perm. apply Permutation_map. exact Hshown.
    + intros j -> Hj Hin.
      unfold Dashboard.compute_stats in Hin.
      apply in_map_iff in Hin. destruct Hin as (r & Hname & Hr).
      apply (Permutation_in r (Permutation_sym (sort_reverse_perm _ _))) in Hr.
      apply in_map_iff in Hr. destruct Hr as (nd & <- & Hnd').
      apply filter_In in Hnd'. destruct Hnd' as [_ Hne].
      cbn [Dashboard.name Dashboard.stats] in Hname.
      cbn [truthy_str opt_default] in Hne.
      rewrite Hname, String.eqb_refl in Hne.
      apply String.eqb_neq in Hj. rewrite Hj in Hne. discriminate.
Qed.

Lemma dashboard_leaves_out_the_judge_witness :
  generate_dashboard judge_file_only (Some "judge") None [sample_prompt "P1"]
  = Some [].
Proof.
  destruct (dashboard_leaves_out_the_judge judge_file_only (Some "judge") None
              [sample_prompt "P1"]) as [_ H].
  - repeat constructor; simpl; intuition discriminate.
  - destruct (generate_dashboard judge_file_only (Some "judge") None
                [sample_prompt "P1"]) as [rows|] eqn:E.
    + destruct (H rows eq_refl) as [Hp _]. simpl in Hp.
      apply Permutation_sym, Permutation_nil in Hp. now subst.
    + discriminate E.
Defined.

(** ** The flag reports *)

Lemma dict_mem_set {V : Type} (row : pydict V) k v n :
  dict_mem (dict_set row k v) n = String.eqb n k || dict_mem row n.
Proof.
  unfold dict_mem. destruct (String.eqb n k) eqn:E.
  - apply String.eqb_eq in E. subst. now rewrite dict_get_set_same.
  - apply String.eqb_neq in E. now rewrite dict_get_set_other.
Qed.

Lemma has_flags_flags_of run :
  has_flags run = match flags_of run with [] => false | _ => true end.
Proof. unfold has_flags, flags_of. now destruct (auto_checks run). Qed.

Lemma row_flags_fold latest models names pid row0 :
  (forall n, In n names -> dict_mem models n = true) ->
  exists row,
    fold_left
      (fun acc name =>
         match acc with
         | None => None
         | Some row =>
             match dict_get models name with
             | None => None
             | Some data =>
                 match latest data pid with
                 | Some run =>
                     match flags_of run with
                     | [] => Some row
                     | fl => Some (dict_set row name fl)
                     end
                 | None => Some row
                 end
             end
         end)
      names (Some row0) = Some row
    /\ forall n, dict_mem row n
                 = dict_mem row0 n
                   || (str_in n names && flagged_for latest models n pid).
Proof.
  revert row0. induction names as [|a names IH]; intros row0 Hmem.
  - exists row0. split; [reflexivity |]. intros n. cbn. now rewrite orb_false_r.
  - assert (Ha : dict_mem models a = true) by (apply Hmem; now left).
    assert (Hrest : forall n, In n names -> dict_mem models n = true)
      by (intros n Hn; apply Hmem; now right).
    unfold dict_mem in Ha. destruct (dict_get models a) as [data|] eqn:Ea;
      [| discriminate]. clear Ha.
    cbn [fold_left]. rewrite Ea.
    assert (Hfa : flagged_for latest models a pid
                  = match latest data pid with
                    | Some run => has_flags run
                    | None => false
                    end) by (unfold flagged_for; now rewrite Ea).
    destruct (latest data pid) as [run|] eqn:El.
    + rewrite has_flags_flags_of in Hfa.
      destruct (flags_of run) as [|fl0 fls] eqn:Ef.
      * destruct (IH row0 Hrest) as (row & Hrow & Hspec). exists row.
        split; [exact Hrow |]. intros n. rewrite Hspec.
        unfold str_in. cbn [existsb]. fold (str_in n names).
        destruct (String.eqb n a) eqn:E; [| reflexivity].
        apply String.eqb_eq in E. subst n. rewrite Hfa.
        now rewrite !andb_false_r.
      * destruct (IH (dict_set row0 a (fl0 :: fls)) Hrest) as (row & Hrow & Hspec).
        exists row. split; [exact Hrow |]. intros n. rewrite Hspec, dict_mem_set.
        unfold str_in. cbn [existsb]. fold (str_in n names).
        destruct (String.eqb n a) eqn:E.
        -- apply String.eqb_eq in E. subst n. rewrite Hfa. cbn.
           now rewrite orb_true_r.
        -- reflexivity.
    + destruct (IH row0 Hrest) as (row & Hrow & Hspec). exists row.
      split; [exact Hrow |]. intros n. rewrite Hspec.
      unfold str_in. cbn [existsb]. fold (str_in n names).
      destruct (String.eqb n a) eqn:E; [| reflexivity].
      apply String.eqb_eq in E. subst n. rewrite Hfa.
      now rewrite !andb_false_r.
Qed.

Lemma row_flags_spec latest models names pid :
  (forall n, In n names -> dict_mem models n = true) ->
  exists row,
    row_flags latest models names pid = Some row
    /\ forall n, dict_mem row n = str_in n names && flagged_for latest models n pid.
Proof.
  intros H. destruct (row_flags_fold latest models names pid [] H) as (row & Hr & Hs).
  exists row. split; [exact Hr |]. intros n. now rewrite Hs.
Qed.

Lemma fold_left_pointwise {A B : Type} (f g : A -> B -> A) l a :
  (forall x y, In y l -> f x y = g x y) -> fold_left f l a = fold_left g l a.
Proof.
  revert a. induction l as [|y l IH]; intros a H; [reflexivity |].
  cbn [fold_left]. rewrite (H a y) by now left.
  apply IH. intros x z Hz. apply H. now right.
Qed.

Lemma fold_items {A : Type} (items_of : string -> option (list A)) pids items0 :
  (forall pid, In pid pids -> exists l, items_of pid = Some l) ->
  fold_left
    (fun acc pid =>
       match acc with
       | None => None
       | Some items =>
           match items_of pid with
           | None => None
           | Some l => Some (items ++ l)
           end
       end)
    pids (Some items0)
  = Some (items0 ++ flat_map (fun pid => match items_of pid with
                                         | Some l => l
                                         | None => []
                                         end) pids).
Proof.
  revert items0. induction pids as [|pid pids IH]; intros items0 H.
  - cbn. now rewrite app_nil_r.
  - cbn [fold_left flat_map].
    destruct (H pid (or_introl eq_refl)) as (l & Hl). rewrite Hl.
    rewrite IH by (intros p Hp; apply H; now right).
    now rewrite app_assoc.
Qed.

(** The items that list a model are those of the prompt ids for which the
    model is flagged. *)
Lemma listing_length {A : Type} (models_of : A -> pydict (list string))
    (items_of : string -> option (list A)) (flagged_at : string -> bool)
    (n : string) pids :
  (forall pid, In pid pids ->
     exists row, (items_of pid = Some [] /\ row = []
                  \/ exists item, items_of pid = Some [item] /\ models_of item = row
                                  /\ row <> [])
                 /\ dict_mem row n = flagged_at pid) ->
  List.length (listing models_of n
                 (flat_map (fun pid => match items_of pid with
                                       | Some l => l
                                       | None => []
                                       end) pids))
  = List.length (filter flagged_at pids).
Proof.
  unfold listing. induction pids as [|pid pids IH]; intros H; [reflexivity |].
  cbn [flat_map filter]. rewrite filter_app, length_app.
  rewrite IH by (intros p Hp; apply H; now right).
  destruct (H pid (or_introl eq_refl)) as (row & [[Hi ->] | (item & Hi & Hm & Hne)] & Hf);
    rewrite Hi, <- Hf.
  - reflexivity.
  - cbn [filter]. rewrite Hm. now destruct (dict_mem row n).
Qed.

Lemma flagged_for_count latest models n data pids :
  dict_get models n = Some data ->
  List.length (filter (flagged_for latest models n) pids)
  = List.length
      (filter has_flags
         (flat_map (fun pid => match latest data pid with
                               | Some run => [run]
                               | None => []
                               end) pids)).
Proof.
  intros Hg. induction pids as [|pid pids IH]; [reflexivity |].
  cbn [filter flat_map]. rewrite filter_app, length_app, <- IH.
  unfold flagged_for at 1. rewrite Hg.
  destruct (latest data pid) as [run|]; [| reflexivity].
  cbn [filter]. now destruct (has_flags run).
Qed.

Lemma compare_models_nodup disk0 now names :
  NoDup (dict_keys (compare_models disk0 now names)).
Proof.
  unfold compare_models.
  assert (H : forall acc, NoDup (dict_keys acc) ->
            NoDup (dict_keys
                     (fold_left
                        (fun models name =>
                           let data := load_model_results disk0 now name in
                           match runs data with
                           | [] => models
                           | _ => dict_set models name data
                           end) names acc))).
  { induction names as [|n names IH]; intros acc Hacc; [exact Hacc |].
    cbn [fold_left]. apply IH. cbv zeta.
    destruct (runs (load_model_results disk0 now n)); [exact Hacc |].
    now apply dict_set_nodup. }
  apply H. constructor.
Qed.

Lemma cmd_compare_loaded cfg prompts models disk0 now rows :
  cmd_compare cfg prompts models disk0 now = Some rows ->
  rows = leaderboard_of cfg prompts
           (compare_models disk0 now (names_of models disk0)).
Proof.
  unfold cmd_compare. fold (names_of models disk0).
  destruct (names_of models disk0) as [|n ns] eqn:E; [discriminate |].
  rewrite <- E.
  destruct (compare_models disk0 now (names_of models disk0)) eqn:El;
    [discriminate |].
  intros H. now injection H as <-.
Qed.

Lemma leaderboard_rows cfg prompts loaded r :
  In r (leaderboard_of cfg prompts loaded)
  <-> exists nd, In nd loaded
                 /\ r = compare_stats (judge_weight cfg) (deepeval_weight cfg)
                          (map id prompts) (fst nd) (snd nd).
Proof.
  unfold leaderboard_of. split.
  - intros H. apply (Permutation_in r (Permutation_sym (sort_reverse_perm _ _))) in H.
    apply in_map_iff in H. destruct H as (nd & <- & Hin). now exists nd.
  - intros (nd & Hin & ->). apply (Permutation_in _ (sort_reverse_perm _ _)).
    apply in_map_iff. now exists nd.
Qed.

Lemma dict_mem_in {V : Type} (d : pydict V) k :
  dict_mem d k = true <-> In k (dict_keys d).
Proof.
  unfold dict_mem. destruct (dict_get d k) eqn:E.
  - split; auto. intros _. apply dict_get_in in E.
    change k with (fst (k, v)). now apply in_map.
  - split; [discriminate |]. intros H. now apply dict_get_none_keys in E.
Qed.

Lemma nonempty_dict_has_member {V : Type} (row : pydict V) :
  row <> [] -> exists n, dict_mem row n = true.
Proof.
  destruct row as [|[k v] rest]; [congruence |]. intros _. exists k.
  unfold dict_mem. cbn. now rewrite String.eqb_refl.
Qed.

(** What the flag report of [cmd_compare] yields for one prompt id. *)
Lemma notable_flags_flat rows loaded prompts :
  (forall n, In n (map row_name rows) -> dict_mem loaded n = true) ->
  notable_flags rows loaded prompts
  = Some (flat_map
            (fun pid =>
               match row_flags latest_run loaded (map row_name rows) pid with
               | Some (kv :: row) =>
                   [(pid,
                     match dict_get (prompts_by_id prompts) pid with
                     | Some meta => subcategory meta
                     | None => "?"
                     end,
                     kv :: row)]
               | _ => []
               end)
            (map id prompts)).
Proof.
  intros Hmem. unfold notable_flags. cbv zeta.
  set (items_of := fun pid =>
         match row_flags latest_run loaded (map row_name rows) pid with
         | None => None
         | Some [] => Some []
         | Some (kv :: row) =>
             Some [(pid,
                    match dict_get (prompts_by_id prompts) pid with
                    | Some meta => subcategory meta
                    | None => "?"
                    end,
                    kv :: row)]
         end).
  rewrite (fold_left_pointwise _
             (fun acc pid =>
                match acc with
                | None => None
                | Some items =>
                    match items_of pid with
                    | None => None
                    | Some l => Some (items ++ l)
                    end
                end)).
  - rewrite fold_items.
    + cbn [app]. f_equal. apply flat_map_ext. intros pid. unfold items_of.
      now destruct (row_flags latest_run loaded (map row_name rows) pid) as [[|kv row]|].
    + intros pid _. unfold items_of.
      destruct (row_flags_spec latest_run loaded (map row_name rows) pid Hmem)
        as (row & -> & _).
      destruct row; eauto.
  - intros [items|] pid _; [| reflexivity]. unfold items_of.
    destruct (row_flags latest_run loaded (map row_name rows) pid) as [[|kv row]|];
      [now rewrite app_nil_r | reflexivity | reflexivity].
Qed.

(** When [cmd_compare] gets to its report, NOTABLE FLAGS raises no
    exception; the number of prompt ids under which it lists a model is
    the Flagged figure of the model's row; and it prints "None" exactly
    when the Flagged figure of every row is 0. *)
Theorem notable_flags_match_the_flagged_column cfg prompts models disk0 now rows :
  cmd_compare cfg prompts models disk0 now = Some rows ->
  exists items,
    notable_flags rows (compare_models disk0 now (names_of models disk0)) prompts
    = Some items
    /\ (forall r, In r rows ->
          List.length (listing snd (row_name r) items) = row_flagged r)
    /\ (items = [] <-> forall r, In r rows -> row_flagged r = 0%nat).
Proof.
  intros Hcmd. apply cmd_compare_loaded in Hcmd.
  set (loaded := compare_models disk0 now (names_of models disk0)) in *.
  assert (Hnd : NoDup (dict_keys loaded)) by apply compare_models_nodup.
  assert (Hrow : forall r, In r rows ->
            exists data, dict_get loaded (row_name r) = Some data
                         /\ row_flagged r
                            = List.length (filter has_flags
                                             (latest_runs data (map id prompts)))).
  { intros r Hr. rewrite Hcmd in Hr. apply leaderboard_rows in Hr.
    destruct Hr as ([n data] & Hin & ->). exists data. cbn [fst snd].
    split.
    - unfold compare_stats. cbn [row_name]. now apply dict_in_get.
    - unfold compare_stats. cbn [row_flagged].
      rewrite compare_gather_latest. reflexivity. }
  assert (Hmem : forall n, In n (map row_name rows) -> dict_mem loaded n = true).
  { intros n Hn. apply in_map_iff in Hn. destruct Hn as (r & <- & Hr).
    destruct (Hrow r Hr) as (data & Hg & _). unfold dict_mem. now rewrite Hg. }
  rewrite (notable_flags_flat rows loaded prompts Hmem).
  eexists. split; [reflexivity |].
  set (items_of := fun pid =>
         match row_flags latest_run loaded (map row_name rows) pid with
         | None => None
         | Some [] => Some []
         | Some (kv :: row) => Some [(pid,
                                match dict_get (prompts_by_id prompts) pid with
                                | Some meta => subcategory meta
                                | None => "?"
                                end,
                                kv :: row)]
         end).
  assert (Hitems : flat_map
                     (fun pid =>
                        match row_flags latest_run loaded (map row_name rows) pid with
                        | Some (kv :: row) => [(pid,
                                match dict_get (prompts_by_id prompts) pid with
                                | Some meta => subcategory meta
                                | None => "?"
                                end,
                                kv :: row)]
                        | _ => []
                        end) (map id prompts)
                   = flat_map (fun pid => match items_of pid with
                                          | Some l => l
                                          | None => []
                                          end) (map id prompts)).
  { apply flat_map_ext. intros pid. unfold items_of.
    now destruct (row_flags latest_run loaded (map row_name rows) pid) as [[|kv row]|]. }
  rewrite Hitems. clear Hitems.
  assert (Hcount : forall r, In r rows ->
            List.length
              (listing snd (row_name r)
                 (flat_map (fun pid => match items_of pid with
                                       | Some l => l
                                       | None => []
                                       end) (map id prompts)))
            = row_flagged r).
  { intros r Hr. destruct (Hrow r Hr) as (data & Hg & ->).
    rewrite (listing_length snd items_of
               (flagged_for latest_run loaded (row_name r))).
    - rewrite (flagged_for_count latest_run loaded (row_name r) data _ Hg).
      reflexivity.
    - intros pid _.
      destruct (row_flags_spec latest_run loaded (map row_name rows) pid Hmem)
        as (row & Hrf & Hspec).
      exists row. split.
      + unfold items_of. rewrite Hrf. destruct row as [|kv row]; [now left |].
        right. eexists. split; [reflexivity |]. split; [reflexivity | discriminate].
      + rewrite Hspec.
        assert (Hs : str_in (row_name r) (map row_name rows) = true).
        { apply str_in_In. now apply in_map. }
        now rewrite Hs. }
  split; [exact Hcount |]. split.
  - intros Hnil r Hr. rewrite <- (Hcount r Hr), Hnil. reflexivity.
  - intros Hzero.
    destruct (flat_map _ (map id prompts)) as [|item items] eqn:E; [reflexivity |].
    exfalso.
    assert (Hitem : In item (flat_map (fun pid => match items_of pid with
                                                  | Some l => l
                                                  | None => []
                                                  end) (map id prompts)))
      by (rewrite E; now left).
    apply in_flat_map in Hitem. destruct Hitem as (pid & Hpid & Hin).
    unfold items_of in Hin.
    destruct (row_flags_spec latest_run loaded (map row_name rows) pid Hmem)
      as (row & Hrf & Hspec).
    rewrite Hrf in Hin. destruct row as [|kv row]; [contradiction |].
    destruct Hin as [<- | []].
    destruct (nonempty_dict_has_member (kv :: row)) as (n & Hn); [discriminate |].
    pose proof Hn as Hn'. rewrite Hspec in Hn'. apply andb_true_iff in Hn'.
    destruct Hn' as [Hin _]. apply str_in_In in Hin.
    apply in_map_iff in Hin. destruct Hin as (r & <- & Hr).
    pose proof (Hcount r Hr) as Hc. rewrite (Hzero r Hr) in Hc.
    unfold listing in Hc. cbn [filter snd] in Hc. rewrite Hn in Hc. discriminate.
Qed.

Lemma notable_flags_match_the_flagged_column_witness :
  exists items,
    notable_flags
      (leaderboard_of sample_cfg [sample_prompt "P1"; sample_prompt "P2"]
         (compare_models [("gpt-4o", mixed_runs)] 0
            (names_of [] [("gpt-4o", mixed_runs)])))
      (compare_models [("gpt-4o", mixed_runs)] 0
         (names_of [] [("gpt-4o", mixed_runs)]))
      [sample_prompt "P1"; sample_prompt "P2"]
    = Some items
    /\ (forall r,
          In r (leaderboard_of sample_cfg [sample_prompt "P1"; sample_prompt "P2"]
                  (compare_models [("gpt-4o", mixed_runs)] 0
                     (names_of [] [("gpt-4o", mixed_runs)]))) ->
          List.length (listing snd (row_name r) items) = row_flagged r)
    /\ (items = []
        <-> forall r,
              In r (leaderboard_of sample_cfg [sample_prompt "P1"; sample_prompt "P2"]
                      (compare_models [("gpt-4o", mixed_runs)] 0
                         (names_of [] [("gpt-4o", mixed_runs)]))) ->
              row_flagged r = 0%nat).
Proof.
  apply (notable_flags_match_the_flagged_column sample_cfg
           [sample_prompt "P1"; sample_prompt "P2"] [] [("gpt-4o", mixed_runs)] 0%nat).
  reflexivity.
Defined.

Lemma find_prompt_id prompts pid :
  In pid (map id prompts) ->
  exists p, find (fun p => String.eqb (id p) pid) prompts = Some p.
Proof.
  intros Hin. destruct (find (fun p => String.eqb (id p) pid) prompts) eqn:E; eauto.
  apply in_map_iff in Hin. destruct Hin as (p & <- & Hp).
  pose proof (find_none _ _ E p Hp) as H. cbv beta in H.
  rewrite String.eqb_refl in H. discriminate.
Qed.

Lemma dashboard_flags_flat models prompts :
  dashboard_flags models prompts
  = Some (flat_map
            (fun pid =>
               match find (fun p => String.eqb (id p) pid) prompts,
                     row_flags Dashboard.latest_run models (dict_keys models) pid with
               | Some p, Some (kv :: row) =>
                   [{| flag_id := pid;
                       flag_subcategory := subcategory p;
                       flag_models := kv :: row |}]
               | _, _ => []
               end)
            (map id prompts)).
Proof.
  assert (Hmem : forall n, In n (dict_keys models) -> dict_mem models n = true)
    by (intros n; apply dict_mem_in).
  unfold dashboard_flags.
  set (items_of := fun pid =>
         match find (fun p => String.eqb (id p) pid) prompts with
         | None => None
         | Some p =>
             match row_flags Dashboard.latest_run models (dict_keys models) pid with
             | None => None
             | Some [] => Some []
             | Some (kv :: row) =>
                 Some [{| flag_id := pid;
                          flag_subcategory := subcategory p;
                          flag_models := kv :: row |}]
             end
         end).
  rewrite (fold_left_pointwise _
             (fun acc pid =>
                match acc with
                | None => None
                | Some items =>
                    match items_of pid with
                    | None => None
                    | Some l => Some (items ++ l)
                    end
                end)).
  - rewrite fold_items.
    + cbn [app]. f_equal. apply flat_map_ext. intros pid. unfold items_of.
      destruct (find _ prompts); [| reflexivity].
      now destruct (row_flags Dashboard.latest_run models (dict_keys models) pid)
        as [[|kv row]|].
    + intros pid Hpid. unfold items_of.
      destruct (find_prompt_id prompts pid Hpid) as (p & ->).
      destruct (row_flags_spec Dashboard.latest_run models (dict_keys models) pid Hmem)
        as (row & -> & _).
      destruct row; eauto.
  - intros [items|] pid _; [| reflexivity]. unfold items_of.
    destruct (find _ prompts); [| reflexivity].
    destruct (row_flags Dashboard.latest_run models (dict_keys models) pid)
      as [[|kv row]|]; [now rewrite app_nil_r | reflexivity | reflexivity].
Qed.

Lemma flagged_split (rs : list run_entry) :
  List.length (filter has_flags rs)
  = (List.length (filter has_flags (error_free rs))
     + List.length (filter (fun run => truthy_str (error run) && has_flags run) rs))%nat.
Proof.
  unfold error_free. induction rs as [|r rs IH]; [reflexivity |].
  cbn [filter]. destruct (truthy_str (error r)), (has_flags r) eqn:Ef;
    cbn [negb andb filter List.length]; rewrite ?Ef; cbn [List.length]; lia.
Qed.

(** The flag list of [compute_stats] raises no exception.  The number of
    prompt ids under which it lists a model is the number of the model's
    latest runs that carry flags, with or without an error; the flagged
    figure of the model's leaderboard entry leaves out the runs with an
    error, so the list exceeds it by the flagged runs that have an
    error. *)
Theorem dashboard_flag_list_counts_errored_runs jw dw models prompts :
  NoDup (dict_keys models) ->
  exists items,
    dashboard_flags models prompts = Some items
    /\ forall n data, In (n, data) models ->
         List.length (listing flag_models n items)
         = List.length (flagged_runs data (map id prompts))
         /\ List.length (flagged_runs data (map id prompts))
            = (Dashboard.flagged (Dashboard.stats jw dw (map id prompts) n data)
               + List.length
                   (filter (fun run => truthy_str (error run) && has_flags run)
                      (latest_runs data (map id prompts))))%nat.
Proof.
  intros Hnd. rewrite dashboard_flags_flat. eexists. split; [reflexivity |].
  intros n data Hin.
  assert (Hmem : forall m, In m (dict_keys models) -> dict_mem models m = true)
    by (intros m; apply dict_mem_in).
  assert (Hg : dict_get models n = Some data) by now apply dict_in_get.
  split.
  - set (items_of := fun pid =>
           match find (fun p => String.eqb (id p) pid) prompts,
                 row_flags Dashboard.latest_run models (dict_keys models) pid with
           | Some p, Some (kv :: row) =>
               Some [{| flag_id := pid;
                        flag_subcategory := subcategory p;
                        flag_models := kv :: row |}]
           | _, _ => Some []
           end).
    rewrite (flat_map_ext _ (fun pid => match items_of pid with
                                        | Some l => l
                                        | None => []
                                        end)).
    + rewrite (listing_length flag_models items_of
                 (flagged_for Dashboard.latest_run models n)).
      * rewrite (flagged_for_count Dashboard.latest_run models n data _ Hg).
        reflexivity.
      * intros pid Hpid.
        destruct (row_flags_spec Dashboard.latest_run models (dict_keys models) pid Hmem)
          as (row & Hrf & Hspec).
        destruct (find_prompt_id prompts pid Hpid) as (p & Hp).
        exists row. split.
        -- unfold items_of. rewrite Hrf, Hp. destruct row as [|kv row]; [now left |].
           right. eexists. split; [reflexivity |]. split; [reflexivity | discriminate].
        -- rewrite Hspec.
           assert (Hs : str_in n (dict_keys models) = true).
           { apply str_in_In. change n with (fst (n, data)). now apply in_map. }
           now rewrite Hs.
    + intros pid. unfold items_of. destruct (find _ prompts); [| reflexivity].
      now destruct (row_flags Dashboard.latest_run models (dict_keys models) pid)
        as [[|kv row]|].
  - unfold flagged_runs, Dashboard.stats. cbn [Dashboard.flagged].
    rewrite dashboard_gather_latest. unfold gathered_from. cbn [g_flagged].
    apply flagged_split.
Qed.

Lemma dashboard_flag_list_counts_errored_runs_witness :
  exists items,
    dashboard_flags [("gpt-4o", mixed_runs)] [sample_prompt "P1"; sample_prompt "P2"]
    = Some items
    /\ forall n data, In (n, data) [("gpt-4o", mixed_runs)] ->
         List.length (listing flag_models n items)
         = List.length (flagged_runs data (map id [sample_prompt "P1"; sample_prompt "P2"]))
         /\ List.length (flagged_runs data (map id [sample_prompt "P1"; sample_prompt "P2"]))
            = (Dashboard.flagged
                 (Dashboard.stats (1 # 2) (1 # 2)
                    (map id [sample_prompt "P1"; sample_prompt "P2"]) n data)
               + List.length
                   (filter (fun run => truthy_str (error run) && has_flags run)
                      (latest_runs data
                         (map id [sample_prompt "P1"; sample_prompt "P2"]))))%nat.
Proof.
  apply (dashboard_flag_list_counts_errored_runs (1 # 2) (1 # 2)
           [("gpt-4o", mixed_runs)] [sample_prompt "P1"; sample_prompt "P2"]).
  repeat constructor; simpl; intuition discriminate.
Defined.

(** ** The category breakdown *)







Lemma judge_scores_latest data pids :
  judge_scores (latest_runs data pids)
  = flat_map (fun pid => match latest_run data pid with
                         | Some run => match judge_score run with
                                       | Some s => [s]
                                       | None => []
                                       end
                         | None => []
                         end) pids.
Proof.
  unfold judge_scores, latest_runs. induction pids as [|pid pids IH]; [reflexivity |].
  cbn [flat_map]. rewrite flat_map_app, IH. f_equal.
  destruct (latest_run data pid); [| reflexivity]. cbn. now rewrite app_nil_r.
Qed.











(** ** The median latency of [compute_stats] *)

Lemma insert_asc_perm x l : Permutation (x :: l) (Dashboard.insert_asc x l).
Proof.
  induction l as [|y l IH]; simpl; auto.
  destruct (Qlt_bool x y); auto.
  rewrite perm_swap. now constructor.
Qed.

Lemma sorted_perm l : Permutation l (Dashboard.sorted l).
Proof.
  induction l as [|x l IH]; simpl; auto.
  rewrite <- insert_asc_perm. now constructor.
Qed.

Lemma insert_asc_sorted x l :
  StronglySorted Qle l -> StronglySorted Qle (Dashboard.insert_asc x l).
Proof.
  induction 1 as [|y l Hs IH Hall]; simpl.
  - repeat constructor.
  - destruct (Qlt_bool x y) eqn:E.
    + apply Qlt_bool_true in E. constructor; [now constructor |].
      constructor; [now apply Qlt_le_weak |].
      eapply Forall_impl; [| exact Hall]. intros z Hz. cbv beta in Hz. lra.
    + apply Qlt_bool_false in E. constructor; [exact IH |].
      eapply Permutation_Forall; [apply insert_asc_perm |].
      now constructor.
Qed.

Lemma sorted_sorted l : StronglySorted Qle (Dashboard.sorted l).
Proof.
  induction l as [|x l IH]; simpl; [constructor | now apply insert_asc_sorted].
Qed.

Lemma sorted_around l1 m l2 :
  StronglySorted Qle (l1 ++ m :: l2) ->
  Forall (fun x => x <= m) l1 /\ Forall (fun x => m <= x) l2.
Proof.
  induction l1 as [|x l1 IH]; cbn [app]; intros H.
  - inversion H; subst. split; [constructor | assumption].
  - inversion H as [|? ? Hs Hall]; subst. destruct (IH Hs) as [H1 H2].
    split; [| exact H2]. constructor; [| exact H1].
    rewrite Forall_forall in Hall. apply Hall. apply in_or_app. right. now left.
Qed.

Lemma filter_all {A : Type} (f : A -> bool) l :
  Forall (fun x => f x = true) l -> filter f l = l.
Proof.
  induction 1 as [|x l Hx _ IH]; [reflexivity |]. cbn. now rewrite Hx, IH.
Qed.

(** The element in the middle of a sorted list: more than half of the
    list is not above it, and at least half of it is not below. *)
Lemma middle_of_sorted (l : list Q) :
  l <> [] ->
  let m := nth (Nat.div (List.length l) 2) (Dashboard.sorted l) 0 in
  In m l
  /\ (List.length l < 2 * List.length (filter (fun x => Qle_bool x m) l))%nat
  /\ (List.length l <= 2 * List.length (filter (fun x => Qle_bool m x) l))%nat.
Proof.
  intros Hne. cbv zeta.
  pose proof (sorted_perm l) as Hp. pose proof (sorted_sorted l) as Hs.
  pose proof (Permutation_length Hp) as Hlen.
  set (s := Dashboard.sorted l) in *. set (n := List.length l) in *.
  assert (Hn : (0 < n)%nat) by (subst n; destruct l; [congruence | simpl; lia]).
  assert (Hi : (Nat.div n 2 < List.length s)%nat).
  { rewrite <- Hlen. apply Nat.div_lt; lia. }
  destruct (nth_split s 0 Hi) as (l1 & l2 & Hsplit & Hl1).
  set (m := nth (Nat.div n 2) s 0) in *.
  rewrite Hsplit in Hs. destruct (sorted_around l1 m l2 Hs) as [Hbelow Habove].
  assert (Hdiv : (n <= 2 * Nat.div n 2 + 1)%nat).
  { pose proof (Nat.div_mod_eq n 2) as Hd.
    pose proof (Nat.mod_upper_bound n 2) as Hm. lia. }
  assert (Hdiv' : (2 * Nat.div n 2 <= n)%nat).
  { pose proof (Nat.div_mod_eq n 2) as Hd. lia. }
  assert (Hl2 : (List.length l1 + S (List.length l2) = n)%nat).
  { rewrite Hlen, Hsplit, length_app. reflexivity. }
  split; [| split].
  - apply (Permutation_in m (Permutation_sym Hp)). rewrite Hsplit.
    apply in_or_app. right. now left.
  - rewrite (Permutation_length (filter_perm (fun x => Qle_bool x m) l s Hp)).
    rewrite Hsplit, filter_app, length_app. cbn [filter].
    assert (Hmm : Qle_bool m m = true) by (apply Qle_bool_iff; apply Qle_refl).
    rewrite Hmm. cbn [List.length].
    rewrite (filter_all (fun x => Qle_bool x m) l1).
    + lia.
    + eapply Forall_impl; [| exact Hbelow]. intros x Hx. now apply Qle_bool_iff.
  - rewrite (Permutation_length (filter_perm (fun x => Qle_bool m x) l s Hp)).
    rewrite Hsplit, filter_app, length_app. cbn [filter].
    assert (Hmm : Qle_bool m m = true) by (apply Qle_bool_iff; apply Qle_refl).
    rewrite Hmm. cbn [List.length].
    rewrite (filter_all (fun x => Qle_bool m x) l2).
    + lia.
    + eapply Forall_impl; [| exact Habove]. intros x Hx. now apply Qle_bool_iff.
Qed.

(** The median latency of a leaderboard entry of [compute_stats] is,
    rounded to one decimal as floats are, one of the latencies of the
    model's latest runs without an error: the upper of the two middle
    ones when their number is even.  More than half of these latencies
    are not above it and at least half are not below it. *)
Theorem median_latency_is_the_upper_middle fsum jw dw pids nm data :
  let lat := map F64.fl
               (map (fun run => opt_default 0 (latency_s run))
                  (error_free (latest_runs data pids))) in
  lat <> [] ->
  exists m,
    In m lat
    /\ Dashboard.median_latency (Binary64.stats fsum jw dw pids nm data)
       = F64.round m 1
    /\ m = nth (Nat.div (List.length lat) 2) (Dashboard.sorted lat) 0
    /\ (List.length lat < 2 * List.length (filter (fun x => Qle_bool x m) lat))%nat
    /\ (List.length lat <= 2 * List.length (filter (fun x => Qle_bool m x) lat))%nat.
Proof.
  cbv zeta. intros Hne.
  destruct (middle_of_sorted _ Hne) as (H1 & H2 & H3).
  eexists. split; [exact H1 |]. split; [| split; [reflexivity | split; assumption]].
  unfold Binary64.stats, Binary64.latencies. cbn [Dashboard.median_latency].
  rewrite dashboard_gather_latest. unfold gathered_from. cbn [g_latencies].
  destruct (map F64.fl (map _ (error_free (latest_runs data pids)))) eqn:E;
    [congruence |].
  reflexivity.
Qed.

Lemma median_latency_is_the_upper_middle_witness :
  let lat := map F64.fl
               (map (fun run => opt_default 0%Q (latency_s run))
                  (error_free (latest_runs mixed_runs ["P1"; "P2"]))) in
  lat <> []
  /\ exists m,
      In m lat
      /\ Dashboard.median_latency
           (Binary64.stats F64.sum_left (1 # 2) (1 # 2) ["P1"; "P2"] "gpt-4o" mixed_runs)
         = F64.round m 1
      /\ m = nth (Nat.div (List.length lat) 2) (Dashboard.sorted lat) 0
      /\ (List.length lat < 2 * List.length (filter (fun x => Qle_bool x m) lat))%nat
      /\ (List.length lat
          <= 2 * List.length (filter (fun x => Qle_bool m x) lat))%nat.
Proof.
  assert (Hne : map F64.fl
                  (map (fun run => opt_default 0%Q (latency_s run))
                     (error_free (latest_runs mixed_runs ["P1"; "P2"]))) <> []).
  { vm_compute. discriminate. }
  split; [exact Hne |].
  exact (median_latency_is_the_upper_middle F64.sum_left (1 # 2) (1 # 2)
           ["P1"; "P2"] "gpt-4o" mixed_runs Hne).
Defined.

(** ** [cmd_models] against [cmd_compare] *)

Lemma judge_scores_count data pids :
  List.length (judge_scores (latest_runs data pids))
  = List.length
      (filter (fun pid => match latest_run data pid with
                          | Some run => is_some (judge_score run)
                          | None => false
                          end) pids).
Proof.
  rewrite judge_scores_latest. induction pids as [|pid pids IH]; [reflexivity |].
  cbn [flat_map filter]. rewrite length_app, IH.
  destruct (latest_run data pid) as [run|]; [| reflexivity].
  now destruct (judge_score run).
Qed.

Lemma filter_keys_length {V : Type} (P : string * V -> bool) (Q : string -> bool)
    (d : pydict V) :
  (forall kv, In kv d -> P kv = Q (fst kv)) ->
  List.length (filter P d) = List.length (filter Q (dict_keys d)).
Proof.
  induction d as [|kv d IH]; intros H; [reflexivity |].
  cbn [filter dict_keys map]. rewrite (H kv) by now left.
  fold (dict_keys d).
  destruct (Q (fst kv)); cbn [List.length]; rewrite IH; auto;
    intros kv' Hkv'; apply H; now right.
Qed.

Lemma cmd_models_lines disk0 now lines :
  cmd_models disk0 now = Some lines ->
  lines
  = map (fun name =>
           (name,
            List.length (runs (load_model_results disk0 now name)),
            List.length
              (filter (fun kv => match last (map Some (snd kv)) None with
                                 | Some run => is_some (judge_score run)
                                 | None => false
                                 end)
                 (runs (load_model_results disk0 now name)))))
      (list_evaluated_models disk0).
Proof.
  unfold cmd_models. destruct (list_evaluated_models disk0); [discriminate |].
  intros H. injection H as <-. reflexivity.
Qed.

(** For a model it lists, [cmd_models] shows the number of stored prompt
    ids and, among them, the number whose latest run has a judge score.
    With one history per prompt id, these figures bound those of
    [cmd_compare] for any selection of distinct prompt ids: the Scored
    figure is at most the scored count of [cmd_models] and the total at
    most its prompt count; the scored counts agree when the selection is
    the stored prompt ids. *)
Theorem cmd_models_bounds_cmd_compare disk0 now lines name total scored jw dw pids :
  cmd_models disk0 now = Some lines ->
  In (name, total, scored) lines ->
  NoDup (dict_keys (runs (load_model_results disk0 now name))) ->
  NoDup pids ->
  let data := load_model_results disk0 now name in
  let c := compare_stats jw dw pids name data in
  total = List.length (runs data)
  /\ (scored <= total)%nat
  /\ (row_scored c <= scored)%nat
  /\ (row_total c <= total)%nat
  /\ (Permutation pids (dict_keys (runs data)) -> row_scored c = scored).
Proof.
  intros Hcmd Hin Hkeys Hpids. cbv zeta.
  set (data := load_model_results disk0 now name) in *.
  set (P := fun kv : string * list run_entry =>
              match last (map Some (snd kv)) None with
              | Some run => is_some (judge_score run)
              | None => false
              end).
  set (Q := fun pid => match latest_run data pid with
                       | Some run => is_some (judge_score run)
                       | None => false
                       end).
  assert (Hline : total = List.length (runs data)
                  /\ scored = List.length (filter P (runs data))).
  { apply cmd_models_lines in Hcmd. rewrite Hcmd in Hin. apply in_map_iff in Hin.
    destruct Hin as (n' & Heq & _).
    injection Heq as -> <- <-. split; reflexivity. }
  destruct Hline as [-> ->].
  assert (HPQ : List.length (filter P (runs data))
                = List.length (filter Q (dict_keys (runs data)))).
  { apply filter_keys_length. intros [k rs] Hk. unfold P, Q, latest_run.
    cbn [fst snd]. now rewrite (dict_in_get (runs data) k rs Hkeys Hk). }
  assert (Hscored : row_scored (compare_stats jw dw pids name data)
                    = List.length (filter Q pids)).
  { unfold compare_stats. cbn [row_scored]. rewrite compare_gather_latest.
    unfold gathered_from. cbn [g_scores]. apply judge_scores_count. }
  split; [reflexivity |]. split; [apply filter_length_le |]. split; [| split].
  - rewrite Hscored, HPQ. apply NoDup_incl_length.
    + now apply NoDup_filter.
    + intros pid Hpid. apply filter_In in Hpid. destruct Hpid as [_ Hq].
      apply filter_In. split; [| exact Hq]. unfold Q in Hq.
      destruct (latest_run data pid) eqn:E; [| discriminate].
      now apply latest_run_some_key in E.
  - unfold compare_stats. cbn [row_total]. unfold count_total.
    unfold dict_keys in *. rewrite <- (length_map fst (runs data)).
    apply NoDup_incl_length.
    + now apply NoDup_filter.
    + intros pid Hpid. apply filter_In in Hpid. destruct Hpid as [_ Hq].
      destruct (latest_run data pid) eqn:E; [| discriminate].
      now apply latest_run_some_key in E.
  - intros Hperm. rewrite Hscored, HPQ.
    apply Permutation_length. now apply filter_perm.
Qed.

Lemma cmd_models_bounds_cmd_compare_witness :
  2%nat = List.length (runs (load_model_results [("gpt-4o", mixed_runs)] 0 "gpt-4o"))
  /\ (1 <= 2)%nat
  /\ (row_scored (compare_stats (1 # 2) (1 # 2) ["P1"] "gpt-4o"
                    (load_model_results [("gpt-4o", mixed_runs)] 0 "gpt-4o"))
      <= 1)%nat
  /\ (row_total (compare_stats (1 # 2) (1 # 2) ["P1"] "gpt-4o"
                   (load_model_results [("gpt-4o", mixed_runs)] 0 "gpt-4o"))
      <= 2)%nat
  /\ (Permutation ["P1"]
        (dict_keys (runs (load_model_results [("gpt-4o", mixed_runs)] 0 "gpt-4o"))) ->
      row_scored (compare_stats (1 # 2) (1 # 2) ["P1"] "gpt-4o"
                    (load_model_results [("gpt-4o", mixed_runs)] 0 "gpt-4o"))
      = 1%nat).
Proof.
  apply (cmd_models_bounds_cmd_compare [("gpt-4o", mixed_runs)] 0%nat
           [("gpt-4o", 2%nat, 1%nat)] "gpt-4o" 2%nat 1%nat (1 # 2) (1 # 2) ["P1"]).
  - reflexivity.
  - now left.
  - repeat constructor; simpl; intuition discriminate.
  - repeat constructor; simpl; intuition.
Defined.

(** ** [cmd_rejudge] after [cmd_eval] *)

Lemma nodup_map_filter {A B : Type} (f : A -> B) (g : A -> bool) l :
  NoDup (map f l) -> NoDup (map f (filter g l)).
Proof.
  induction l as [|x l IH]; intros Hnd; [constructor |].
  cbn [map] in Hnd. inversion Hnd as [|? ? Hx Hnd']; subst. cbn [filter].
  destruct (g x); [| now apply IH].
  cbn [map]. constructor; [| now apply IH].
  intros Hin. apply Hx. apply in_map_iff in Hin. destruct Hin as (y & Hy & Hin).
  apply filter_In in Hin. rewrite <- Hy. apply in_map. tauto.
Qed.

Lemma eval_todo_nodup data prompts rerun :
  NoDup (map id prompts) -> NoDup (map id (eval_todo data prompts rerun)).
Proof.
  intros Hnd. unfold eval_todo.
  destruct (eval_overlap data prompts); [exact Hnd |].
  destruct rerun; [exact Hnd | now apply nodup_map_filter].
Qed.

(** After [cmd_eval] has run a prompt (the ids of the prompts being
    distinct), the latest run of that prompt in the model's file is the
    entry just built, and the first loop of a later [cmd_rejudge] without
    [--force], under the same judge, selects it exactly when the answer
    arrived and was checked but has no judge score, because no judge was
    set up or the judge gave none.  An entry of the [except] branch, on
    which the provider or the checker raised, is passed over, unless the
    message of the exception is empty: the empty string in ["error"]
    does not count as an error. *)
Theorem rejudge_selects_what_eval_left_unscored
    cfg env name prompts rerun disk0 now final judge_name t0 p :
  cmd_eval cfg env name prompts rerun disk0 now = (EvalDone, final) ->
  NoDup (map id prompts) ->
  judge_cfg_model cfg = Some judge_name ->
  In p (eval_todo (load_model_results disk0 now name) prompts rerun) ->
  let data := load_model_results (disk final) (clock final) name in
  let to_judge :=
    fst (rejudge_select false judge_name data (dict_keys (runs data)) t0) in
  exists t,
    latest_run data (id p) = Some (eval_entry cfg env name t p)
    /\ (In (id p) to_judge
        <-> match complete env t p with
            | Completed text _ _ _ =>
                match check_response env t p text with
                | Checked auto =>
                    eval_judge_provider cfg name = false
                    \/ jr_judge_score (judge_response env t p text auto) = None
                | CheckRaised msg _ => msg = EmptyString
                end
            | ProviderError msg _ => msg = EmptyString
            end).
Proof.
  intros Heval Hnd Hj Hp. cbv zeta.
  pose proof (eval_todo_nodup (load_model_results disk0 now name) prompts rerun Hnd)
    as Hnd'.
  unfold cmd_eval in Heval.
  destruct (negb (dict_mem (models_cfg cfg) name)); [discriminate |].
  destruct prompts as [|p0 ps]; [discriminate |].
  destruct (eval_todo (load_model_results disk0 now name) (p0 :: ps) rerun)
    as [|q qs] eqn:Etodo; [discriminate |].
  destruct (negb (str_in name (providers_ok cfg))); [discriminate |].
  injection Heval as <-.
  set (st0 := {| clock := S now; disk := disk0;
                 mem := load_model_results disk0 now name |}) in *.
  change (eval_loop cfg env name qs (eval_step cfg env name st0 q))
    with (eval_loop cfg env name (q :: qs) st0) in *.
  assert (Hsaved : dict_get (disk (eval_loop cfg env name (q :: qs) st0)) name
                   = Some (mem (eval_loop cfg env name (q :: qs) st0))).
  { apply eval_loop_saved. discriminate. }
  unfold load_model_results at 1 2 3. rewrite Hsaved.
  set (data := mem (eval_loop cfg env name (q :: qs) st0)).
  destruct (entries_for_nodup cfg env name (clock st0) (q :: qs) p Hnd' Hp)
    as (t & Ht).
  assert (Hlatest : latest_run data (id p) = Some (eval_entry cfg env name t p)).
  { unfold data. rewrite latest_run_history, eval_loop_history, Ht.
    apply last_some_app. }
  exists t. split; [exact Hlatest |].
  rewrite (proj1 (rejudge_select_spec false judge_name data (dict_keys (runs data)) t0)).
  rewrite filter_In, fate_eqb_eq, Hlatest.
  assert (Hkey : In (id p) (dict_keys (runs data)))
    by (eapply latest_run_some_key; exact Hlatest).
  assert (Hfail : forall msg el,
            (In (id p) (dict_keys (runs data))
             /\ rejudge_fate false judge_name (Some (failure_entry cfg name t msg el))
                = Rescored)
            <-> msg = EmptyString).
  { intros msg el. unfold rejudge_fate, judged_by, failure_entry.
    cbn [error judge_model judge_score truthy_str negb andb].
    rewrite Hj. cbn [opt_str_eqb is_some]. rewrite andb_false_r.
    destruct (String.eqb msg EmptyString) eqn:E; cbn [negb].
    - apply String.eqb_eq in E. tauto.
    - apply String.eqb_neq in E. split; [intros [_ H]; discriminate | contradiction]. }
  unfold eval_entry.
  destruct (complete env t p) as [text usage_in usage_out el | msg el];
    [destruct (check_response env t p text) as [auto | msg el'] |];
    try apply Hfail.
  unfold rejudge_fate, judged_by.
  cbn [error judge_model judge_score truthy_str negb andb].
  rewrite Hj. cbn [opt_str_eqb]. rewrite String.eqb_refl. cbn [andb].
  destruct (eval_judge_provider cfg name).
  - destruct (jr_judge_score (judge_response env t p text auto));
      cbn [is_some]; split; try tauto.
    + intros [_ H]; discriminate.
    + intros [H | H]; discriminate.
  - cbn [is_some]. tauto.
Qed.

Lemma rejudge_selects_what_eval_left_unscored_witness :
  exists t,
    latest_run
      (load_model_results
         (disk (snd (cmd_eval sample_cfg sample_env "gpt-4o" [sample_prompt "P1"]
                       false [] 0)))
         (clock (snd (cmd_eval sample_cfg sample_env "gpt-4o" [sample_prompt "P1"]
                        false [] 0)))
         "gpt-4o")
      "P1"
    = Some (eval_entry sample_cfg sample_env "gpt-4o" t (sample_prompt "P1"))
    /\ (In "P1"
          (fst (rejudge_select false "judge"
                  (load_model_results
                     (disk (snd (cmd_eval sample_cfg sample_env "gpt-4o"
                                   [sample_prompt "P1"] false [] 0)))
                     (clock (snd (cmd_eval sample_cfg sample_env "gpt-4o"
                                    [sample_prompt "P1"] false [] 0)))
                     "gpt-4o")
                  (dict_keys
                     (runs
                        (load_model_results
                           (disk (snd (cmd_eval sample_cfg sample_env "gpt-4o"
                                         [sample_prompt "P1"] false [] 0)))
                           (clock (snd (cmd_eval sample_cfg sample_env "gpt-4o"
                                          [sample_prompt "P1"] false [] 0)))
                           "gpt-4o")))
                  no_totals))
        <-> match complete sample_env t (sample_prompt "P1") with
            | Completed text _ _ _ =>
                match check_response sample_env t (sample_prompt "P1") text with
                | Checked auto =>
                    eval_judge_provider sample_cfg "gpt-4o" = false
                    \/ jr_judge_score
                         (judge_response sample_env t (sample_prompt "P1") text auto)
                       = None
                | CheckRaised msg _ => msg = EmptyString
                end
            | ProviderError msg _ => msg = EmptyString
            end).
Proof.
  apply (rejudge_selects_what_eval_left_unscored sample_cfg sample_env "gpt-4o"
           [sample_prompt "P1"] false [] 0%nat
           (snd (cmd_eval sample_cfg sample_env "gpt-4o" [sample_prompt "P1"]
                   false [] 0))
           "judge" no_totals (sample_prompt "P1")).
  - reflexivity.
  - repeat constructor; simpl; intuition.
  - reflexivity.
  - now left.
Defined.

(** ** The score distribution *)

Lemma zdict_get_set_same d k v : zdict_get (zdict_set d k v) k = Some v.
Proof.
  induction d as [|[k' v'] rest IH]; simpl.
  - now rewrite Z.eqb_refl.
  - destruct (Z.eqb k k') eqn:E; simpl; rewrite E; auto.
Qed.

Lemma zdict_get_set_other d k k' v :
  k' <> k -> zdict_get (zdict_set d k v) k' = zdict_get d k'.
Proof.
  intros Hne. induction d as [|[k0 v0] rest IH]; simpl.
  - apply Z.eqb_neq in Hne. now rewrite Hne.
  - destruct (Z.eqb k k0) eqn:E; simpl.
    + apply Z.eqb_eq in E. subst k0. apply Z.eqb_neq in Hne. now rewrite Hne.
    + now rewrite IH.
Qed.

Lemma zdict_incr_sum d k :
  list_sum (map snd (zdict_set d k (opt_default 0%nat (zdict_get d k) + 1)%nat))
  = S (list_sum (map snd d)).
Proof.
  induction d as [|[k' v'] rest IH]; simpl.
  - reflexivity.
  - destruct (Z.eqb k k'); simpl; [lia | rewrite IH; lia].
Qed.

Lemma zdict_set_keys d k v :
  exists extra, map fst (zdict_set d k v) = map fst d ++ extra.
Proof.
  induction d as [|[k' v'] rest IH]; simpl.
  - now exists [k].
  - destruct (Z.eqb k k'); simpl.
    + exists []. now rewrite app_nil_r.
    + destruct IH as (extra & ->). now exists extra.
Qed.

Lemma score_dist_fold scores dist0 :
  let dist := fold_left
                (fun dist s =>
                   zdict_set dist s (opt_default 0%nat (zdict_get dist s) + 1)%nat)
                scores dist0 in
  list_sum (map snd dist) = (list_sum (map snd dist0) + List.length scores)%nat
  /\ (forall k, opt_default 0%nat (zdict_get dist k)
                = (opt_default 0%nat (zdict_get dist0 k)
                   + count_occ Z.eq_dec scores k)%nat)
  /\ (forall k, zdict_get dist k = None
                <-> zdict_get dist0 k = None /\ ~ In k scores)
  /\ exists extra, map fst dist = map fst dist0 ++ extra.
Proof.
  cbv zeta. revert dist0. induction scores as [|s scores IH]; intros dist0.
  - cbn [fold_left List.length count_occ]. split; [lia |]. split; [intros; lia |].
    split; [intros k; cbn; tauto |]. exists []. now rewrite app_nil_r.
  - cbn [fold_left].
    destruct (IH (zdict_set dist0 s (opt_default 0%nat (zdict_get dist0 s) + 1)%nat))
      as (H1 & H2 & H3 & H4).
    split; [| split; [| split]].
    + rewrite H1, zdict_incr_sum. cbn [List.length]. lia.
    + intros k. rewrite H2. cbn [count_occ].
      destruct (Z.eq_dec s k) as [-> | Hne].
      * rewrite zdict_get_set_same. cbn [opt_default]. lia.
      * rewrite zdict_get_set_other by congruence. reflexivity.
    + intros k. rewrite H3. destruct (Z.eq_dec s k) as [-> | Hne].
      * rewrite zdict_get_set_same. split; [intros [H _]; discriminate |].
        intros [_ H]. exfalso. apply H. now left.
      * rewrite zdict_get_set_other by congruence. cbn [In]. tauto.
    + destruct H4 as (extra & ->).
      destruct (zdict_set_keys dist0 s (opt_default 0%nat (zdict_get dist0 s) + 1)%nat)
        as (extra' & ->).
      exists (extra' ++ extra). now rewrite app_assoc.
Qed.

(** The score distribution of a leaderboard entry of [compute_stats]
    accounts for every judge score once: its counts add up to the scored
    figure, the count under a score is the number of times the score
    occurs, the keys 1 to 5 come first and are always there, and a score
    outside 1 to 5 gets a key of its own. *)
Theorem score_distribution_counts_every_score jw dw pids nm data :
  let scores := g_scores (Dashboard.gather data pids) in
  let dist := score_dist scores in
  list_sum (map snd dist) = Dashboard.scored (Dashboard.stats jw dw pids nm data)
  /\ (forall k, In k [1; 2; 3; 4; 5]%Z \/ In k scores ->
                zdict_get dist k = Some (count_occ Z.eq_dec scores k))
  /\ (forall k, ~ In k [1; 2; 3; 4; 5]%Z -> ~ In k scores -> zdict_get dist k = None)
  /\ firstn 5 (map fst dist) = [1; 2; 3; 4; 5]%Z.
Proof.
  cbv zeta. unfold score_dist.
  set (dist0 := [(1%Z, 0%nat); (2%Z, 0%nat); (3%Z, 0%nat); (4%Z, 0%nat); (5%Z, 0%nat)]).
  destruct (score_dist_fold (g_scores (Dashboard.gather data pids)) dist0)
    as (H1 & H2 & H3 & (extra & H4)).
  set (scores := g_scores (Dashboard.gather data pids)) in *.
  set (dist := fold_left _ scores dist0) in *.
  assert (H0 : forall k, zdict_get dist0 k = None <-> ~ In k [1; 2; 3; 4; 5]%Z).
  { intros k. unfold dist0. cbn [zdict_get In].
    destruct (Z.eqb_spec k 1); [split; [discriminate | lia] |].
    destruct (Z.eqb_spec k 2); [split; [discriminate | lia] |].
    destruct (Z.eqb_spec k 3); [split; [discriminate | lia] |].
    destruct (Z.eqb_spec k 4); [split; [discriminate | lia] |].
    destruct (Z.eqb_spec k 5); [split; [discriminate | lia] |].
    split; [lia | reflexivity]. }
  assert (H00 : forall k, opt_default 0%nat (zdict_get dist0 k) = 0%nat).
  { intros k. unfold dist0. cbn [zdict_get].
    repeat (destruct (Z.eqb k _); [reflexivity |]). reflexivity. }
  split; [| split; [| split]].
  - rewrite H1. unfold Dashboard.stats. cbn [Dashboard.scored]. reflexivity.
  - intros k Hk. specialize (H2 k). rewrite H00 in H2.
    destruct (zdict_get dist k) as [n|] eqn:E.
    + cbn [opt_default] in H2. now rewrite H2.
    + exfalso. apply H3 in E. destruct E as [E1 E2]. apply H0 in E1. tauto.
  - intros k Hk1 Hk2. apply H3. split; [now apply H0 | exact Hk2].
  - rewrite H4. reflexivity.
Qed.

(** * The aggregation as the interpreter computes it *)

(** ** Which models the leaderboard of [cmd_compare] holds *)






(** ** The composite *)

(** C1, as the code has it.  Over the latest runs of the prompt list
    ([cmd_compare]), or over those without an error ([compute_stats]),
    the composite is the weighted merge of the normalized judge average
    and the secondary average, each operation in binary64, rounded to 4
    decimals when both averages are there; the normalized judge average
    rounded to 4 decimals when only judge scores are there; the secondary
    average rounded to 4 decimals when only secondary averages are there;
    and null, which is not 0, when neither is.  In [compute_stats] the
    secondary average is itself rounded to 4 decimals before the merge. *)
Theorem composite_is_the_rounded_merge fsum :
  (forall jw dw pids name data,
      let rs := latest_runs data pids in
      let normalized_judge :=
        F64.div (F64.sub (F64.mean_int (judge_scores rs)) 1) 4 in
      let secondary_avg := F64.mean fsum (map F64.fl (secondary_avgs rs)) in
      row_composite (Binary64.compare_stats fsum jw dw pids name data)
      = match judge_scores rs, secondary_avgs rs with
        | _ :: _, _ :: _ =>
            Some (F64.round (F64.add (F64.mul jw normalized_judge)
                               (F64.mul dw secondary_avg)) 4)
        | _ :: _, [] => Some (F64.round normalized_judge 4)
        | [], _ :: _ => Some (F64.round secondary_avg 4)
        | [], [] => None
        end)
  /\ (forall jw dw pids name data,
         let rs := error_free (latest_runs data pids) in
         let normalized_judge :=
           F64.div (F64.sub (F64.mean_int (judge_scores rs)) 1) 4 in
         let secondary_avg :=
           F64.round (F64.mean fsum (map F64.fl (secondary_avgs rs))) 4 in
         Dashboard.composite_score (Binary64.stats fsum jw dw pids name data)
         = match judge_scores rs, secondary_avgs rs with
           | _ :: _, _ :: _ =>
               Some (F64.round (F64.add (F64.mul jw normalized_judge)
                                  (F64.mul dw secondary_avg)) 4)
           | _ :: _, [] => Some (F64.round normalized_judge 4)
           | [], _ :: _ => Some (F64.round secondary_avg 4)
           | [], [] => None
           end)
  /\ (None : option Q) <> Some 0.
Proof.
  split; [| split].
  - intros. subst rs normalized_judge secondary_avg.
    unfold Binary64.compare_stats. cbn [row_composite].
    rewrite compare_gather_latest. unfold Binary64.de_avgs, gathered_from.
    cbn [g_scores g_de_avgs]. unfold Binary64.composite_of.
    destruct (judge_scores (latest_runs data pids)),
             (secondary_avgs (latest_runs data pids)); reflexivity.
  - intros. subst rs normalized_judge secondary_avg.
    unfold Binary64.stats. cbn [Dashboard.composite_score].
    unfold Binary64.avg_s. rewrite dashboard_gather_latest.
    unfold Binary64.de_avgs, gathered_from.
    cbn [g_scores g_de_avgs]. unfold Binary64.composite_of.
    destruct (judge_scores (error_free (latest_runs data pids))),
             (secondary_avgs (error_free (latest_runs data pids))); reflexivity.
  - discriminate.
Qed.

(** C1 as the specification states it fails: with judge scores 1, 2 and
    2 and no secondary average, the normalized judge average is the
    float next to 1/6 and the composite of both aggregators is the float
    0.1667, which is neither that float nor 1/6. *)
Lemma composite_is_not_the_plain_formula :
  let pids := ["P1"; "P2"; "P3"] in
  let rs := latest_runs three_runs pids in
  let normalized_judge := F64.div (F64.sub (F64.mean_int (judge_scores rs)) 1) 4 in
  judge_scores rs = [1; 2; 2]%Z
  /\ secondary_avgs rs = []
  /\ (avg_judge rs - 1) / 4 == 1 # 6
  /\ Qabs (normalized_judge - (1 # 6)) < 1 # 1000000
  /\ (exists c, row_composite (Binary64.compare_stats F64.sum_left (1 # 2) (1 # 2)
                                 pids "gpt-4o" three_runs)
                = Some c
                /\ c = F64.fl (1667 # 10000)
                /\ ~ c == normalized_judge
                /\ ~ c == (avg_judge rs - 1) / 4)
  /\ (exists c, Dashboard.composite_score
                  (Binary64.stats F64.sum_left (1 # 2) (1 # 2) pids "gpt-4o" three_runs)
                = Some c
                /\ c = F64.fl (1667 # 10000)
                /\ ~ c == normalized_judge
                /\ ~ c == (avg_judge rs - 1) / 4).
Proof.
  cbv zeta. split; [reflexivity |]. split; [reflexivity |].
  split; [reflexivity |]. split; [vm_compute; reflexivity |]. split.
  - eexists. split; [reflexivity |]. split; [vm_compute; reflexivity |].
    split; vm_compute; discriminate.
  - eexists. split; [reflexivity |]. split; [vm_compute; reflexivity |].
    split; vm_compute; discriminate.
Qed.

(** ** [cmd_compare] against [compute_stats], as computed *)

(** The two rows of a model none of whose latest runs has an error. *)
Lemma binary64_stats_without_errors fsum jw dw pids name data :
  (forall run, In run (latest_runs data pids) -> truthy_str (error run) = false) ->
  let rs := latest_runs data pids in
  let c := Binary64.compare_stats fsum jw dw pids name data in
  let d := Binary64.stats fsum jw dw pids name data in
  Dashboard.gather data pids = compare_gather data pids
  /\ Dashboard.name d = row_name c
  /\ Dashboard.scored d = row_scored c
  /\ Dashboard.total d = row_total c
  /\ Dashboard.flagged d = row_flagged c
  /\ Dashboard.errors d = 0%nat
  /\ Dashboard.avg_score d = F64.round (row_avg_s c) 2
  /\ Dashboard.avg_latency d = F64.round (row_avg_l c) 1
  /\ Dashboard.avg_tokens d = F64.round (row_avg_t c) 0
  /\ Dashboard.deepeval_avg d
     = match secondary_avgs rs with
       | [] => None
       | _ => Some (F64.round (F64.mean fsum (map F64.fl (secondary_avgs rs))) 4)
       end
  /\ (secondary_avgs rs = [] -> Dashboard.composite_score d = row_composite c).
Proof.
  intros Hok rs c d.
  assert (Hg : Dashboard.gather data pids = compare_gather data pids).
  { rewrite dashboard_gather_latest, compare_gather_latest.
    destruct (error_free_all _ Hok) as [-> ->]. reflexivity. }
  subst c d.
  unfold Binary64.stats, Binary64.compare_stats, Binary64.avg_s, Binary64.avg_l,
    Binary64.avg_t.
  rewrite Hg.
  cbn [Dashboard.name Dashboard.scored Dashboard.total Dashboard.flagged
       Dashboard.errors Dashboard.avg_score Dashboard.avg_latency
       Dashboard.avg_tokens Dashboard.deepeval_avg Dashboard.composite_score
       row_name row_scored row_total row_flagged row_avg_s row_avg_l row_avg_t
       row_composite].
  repeat (split; [reflexivity |]).
  rewrite compare_gather_latest. unfold Binary64.de_avgs, gathered_from.
  cbn [g_errors g_de_avgs g_scores]. fold rs.
  split; [reflexivity |]. split; [reflexivity |]. split; [reflexivity |].
  split; [reflexivity |]. split.
  - destruct (secondary_avgs rs); reflexivity.
  - intros ->. reflexivity.
Qed.

(** C10, as the code has it.  [cmd_compare] gathers from all the latest
    runs, [compute_stats] from those without an error, which it counts
    apart.  For a model none of whose latest runs has an error both
    gather the same lists: the scored, total and flagged counts are
    equal; the dashboard shows the averages of [cmd_compare] rounded to
    2 (judge), 1 (latency), 0 (tokens) and 4 (secondary) decimals; its
    composite merges the rounded secondary average, and is the composite
    of [cmd_compare] when there is no secondary average.  For models with
    no error and no secondary average in their latest runs, both
    leaderboards list the models in the same order. *)
Theorem dashboard_matches_compare_without_errors fsum :
  (forall data pids,
      compare_gather data pids = gathered_from (latest_runs data pids) 0
      /\ Dashboard.gather data pids
         = gathered_from (error_free (latest_runs data pids))
             (List.length (filter (fun run => truthy_str (error run))
                             (latest_runs data pids))))
  /\ (forall jw dw pids name data,
         (forall run, In run (latest_runs data pids) ->
                      truthy_str (error run) = false) ->
         let rs := latest_runs data pids in
         let c := Binary64.compare_stats fsum jw dw pids name data in
         let d := Binary64.stats fsum jw dw pids name data in
         Dashboard.gather data pids = compare_gather data pids
         /\ Dashboard.name d = row_name c
         /\ Dashboard.scored d = row_scored c
         /\ Dashboard.total d = row_total c
         /\ Dashboard.flagged d = row_flagged c
         /\ Dashboard.errors d = 0%nat
         /\ Dashboard.avg_score d = F64.round (row_avg_s c) 2
         /\ Dashboard.avg_latency d = F64.round (row_avg_l c) 1
         /\ Dashboard.avg_tokens d = F64.round (row_avg_t c) 0
         /\ Dashboard.deepeval_avg d
            = match secondary_avgs rs with
              | [] => None
              | _ => Some (F64.round
                             (F64.mean fsum (map F64.fl (secondary_avgs rs))) 4)
              end
         /\ (secondary_avgs rs = [] ->
             Dashboard.composite_score d = row_composite c))
  /\ (forall cfg prompts models,
         (forall nd, In nd models ->
            secondary_avgs (latest_runs (snd nd) (map id prompts)) = []
            /\ forall run, In run (latest_runs (snd nd) (map id prompts)) ->
                           truthy_str (error run) = false) ->
         map Dashboard.name
           (Binary64.compute_stats fsum models prompts
              (Some (Some (judge_weight cfg), Some (deepeval_weight cfg))))
         = map row_name (Binary64.leaderboard_of fsum cfg prompts models)).
Proof.
  split; [| split].
  - intros. split; [apply compare_gather_latest | apply dashboard_gather_latest].
  - intros. now apply binary64_stats_without_errors.
  - intros cfg prompts models Hall.
    unfold Binary64.compute_stats, Binary64.leaderboard_of.
    rewrite !sort_reverse_map, !map_map.
    rewrite (sort_reverse_ext
               (fun a => Dashboard.key
                           (Binary64.stats fsum (judge_weight cfg) (deepeval_weight cfg)
                              (map id prompts) (fst a) (snd a)))
               (fun a => compare_key
                           (Binary64.compare_stats fsum (judge_weight cfg)
                              (deepeval_weight cfg) (map id prompts) (fst a) (snd a)))).
    + apply map_ext. intros nd. reflexivity.
    + intros nd Hnd. destruct (Hall nd Hnd) as (Hsec & Hok).
      destruct (binary64_stats_without_errors fsum (judge_weight cfg)
                  (deepeval_weight cfg) (map id prompts) (fst nd) (snd nd) Hok)
        as (_ & _ & Hscored & _ & _ & _ & _ & _ & _ & _ & Hcomp).
      unfold Dashboard.key, compare_key. rewrite Hscored, (Hcomp Hsec). reflexivity.
Qed.

Lemma dashboard_matches_compare_without_errors_witness :
  let c := Binary64.compare_stats F64.sum_left (1 # 2) (1 # 2) ["P1"; "P2"; "P3"]
             "gpt-4o" three_runs in
  let d := Binary64.stats F64.sum_left (1 # 2) (1 # 2) ["P1"; "P2"; "P3"]
             "gpt-4o" three_runs in
  Dashboard.flagged d = row_flagged c
  /\ Dashboard.avg_score d = F64.round (row_avg_s c) 2
  /\ Dashboard.avg_score d = F64.fl (167 # 100).
Proof.
  assert (Hok : forall run,
             In run (latest_runs three_runs ["P1"; "P2"; "P3"]) ->
             truthy_str (error run) = false).
  { simpl. intros run [<- | [<- | [<- | []]]]; reflexivity. }
  destruct (proj1 (proj2 (dashboard_matches_compare_without_errors F64.sum_left))
              (1 # 2) (1 # 2) ["P1"; "P2"; "P3"] "gpt-4o" three_runs Hok)
    as (_ & _ & _ & _ & Hf & _ & Hs & _).
  cbv zeta. split; [exact Hf |]. split; [exact Hs |]. vm_compute. reflexivity.
Defined.

(** C10 as stated fails: on a latest run with its error field set,
    [cmd_compare] counts the forced flag and the latency of the failed
    call, [compute_stats] counts an error and nothing else. *)
Lemma dashboard_differs_from_compare_on_error :
  let c := Binary64.compare_stats F64.sum_left (1 # 2) (1 # 2) ["P1"] "gpt-4o"
             (one_run errored_run) in
  let d := Binary64.stats F64.sum_left (1 # 2) (1 # 2) ["P1"] "gpt-4o"
             (one_run errored_run) in
  option_map error (latest_run (one_run errored_run) "P1") = Some (Some "timeout")
  /\ row_flagged c = 1%nat /\ Dashboard.flagged d = 0%nat
  /\ Dashboard.flagged d <> row_flagged c
  /\ row_avg_l c == 30 /\ Dashboard.avg_latency d == 0
  /\ ~ Dashboard.avg_latency d == row_avg_l c
  /\ Dashboard.errors d = 1%nat.
Proof.
  cbv zeta.
  split; [vm_compute; reflexivity |]. split; [vm_compute; reflexivity |].
  split; [vm_compute; reflexivity |]. split; [vm_compute; discriminate |].
  split; [vm_compute; reflexivity |]. split; [vm_compute; reflexivity |].
  split; [vm_compute; discriminate |]. vm_compute; reflexivity.
Qed.

(** ** The efficiency metric *)

Lemma efficiency_guarded libm_log2 avg_s avg_t :
  0 < avg_s -> 1 < avg_t -> ~ libm_log2 avg_t == 0 ->
  Binary64.efficiency libm_log2 avg_s avg_t
  = Some (F64.round (F64.div avg_s (libm_log2 avg_t)) 2).
Proof.
  intros Hs Ht Hl. unfold Binary64.efficiency, Binary64.math_log2, Binary64.float_div.
  assert (Qlt_bool 0 avg_s = true) as -> by now apply Qlt_bool_true.
  assert (Qlt_bool 1 avg_t = true) as -> by now apply Qlt_bool_true.
  assert (Qlt_bool 0 avg_t = true) as -> by (apply Qlt_bool_true; lra).
  cbn [andb].
  destruct (Qeq_bool (libm_log2 avg_t) 0) eqn:E; [| reflexivity].
  apply Qeq_bool_iff in E. contradiction.
Qed.

Lemma efficiency_unguarded libm_log2 avg_s avg_t :
  ~ (0 < avg_s /\ 1 < avg_t) -> Binary64.efficiency libm_log2 avg_s avg_t = Some 0.
Proof.
  intros H. unfold Binary64.efficiency.
  destruct (Qlt_bool 0 avg_s) eqn:Es; [| reflexivity].
  destruct (Qlt_bool 1 avg_t) eqn:Et; [| reflexivity].
  apply Qlt_bool_true in Es. apply Qlt_bool_true in Et. tauto.
Qed.

(** C8, as the code has it.  With the logarithm of the C library
    positive above 1, the efficiency is the binary64 quotient
    [avg_judge / log2(avg_output_tokens)] rounded to 2 decimals when
    [avg_judge > 0] and [avg_output_tokens > 1], and 0 otherwise, in
    particular whenever [avg_output_tokens <= 1], whatever the judge
    score and whatever the logarithm; under the guard [math.log2] is
    given a positive argument and the divisor is not zero, so neither
    raises, and the computation returns for every pair of averages and
    for every model. *)
Theorem efficiency_is_guarded_and_total libm_log2
    (Hlog : forall x, 1 < x -> 0 < libm_log2 x) :
  (forall avg_s avg_t,
      0 < avg_s -> 1 < avg_t ->
      Binary64.math_log2 libm_log2 avg_t = Some (libm_log2 avg_t)
      /\ (exists e, Binary64.float_div avg_s (libm_log2 avg_t) = Some e)
      /\ Binary64.efficiency libm_log2 avg_s avg_t
         = Some (F64.round (F64.div avg_s (libm_log2 avg_t)) 2))
  /\ (forall any_log2 avg_s avg_t,
         ~ (0 < avg_s /\ 1 < avg_t) ->
         Binary64.efficiency any_log2 avg_s avg_t = Some 0)
  /\ (forall any_log2 avg_s avg_t,
         avg_t <= 1 -> Binary64.efficiency any_log2 avg_s avg_t = Some 0)
  /\ (forall avg_s avg_t, exists e, Binary64.efficiency libm_log2 avg_s avg_t = Some e)
  /\ (forall data pids, exists e, Binary64.model_efficiency libm_log2 data pids = Some e).
Proof.
  assert (Hne : forall x, 1 < x -> ~ libm_log2 x == 0).
  { intros x Hx E. pose proof (Hlog x Hx). lra. }
  assert (Htotal : forall avg_s avg_t,
             exists e, Binary64.efficiency libm_log2 avg_s avg_t = Some e).
  { intros avg_s avg_t.
    destruct (Qlt_le_dec 0 avg_s) as [Hs | Hs];
      [destruct (Qlt_le_dec 1 avg_t) as [Ht | Ht] |].
    - eexists. apply efficiency_guarded; auto.
    - exists 0. apply efficiency_unguarded. intros [_ H]. lra.
    - exists 0. apply efficiency_unguarded. intros [H _]. lra. }
  split; [| split; [| split; [| split]]].
  - intros avg_s avg_t Hs Ht. split; [| split].
    + unfold Binary64.math_log2.
      assert (Qlt_bool 0 avg_t = true) as -> by (apply Qlt_bool_true; lra).
      reflexivity.
    + unfold Binary64.float_div.
      destruct (Qeq_bool (libm_log2 avg_t) 0) eqn:E; [| eexists; reflexivity].
      apply Qeq_bool_iff in E. now apply Hne in E.
    + apply efficiency_guarded; auto.
  - intros. now apply efficiency_unguarded.
  - intros any_log2 avg_s avg_t Ht. apply efficiency_unguarded. intros [_ H]. lra.
  - exact Htotal.
  - intros. apply Htotal.
Qed.

Lemma sample_log2_pos x : 1 < x -> 0 < sample_log2 x.
Proof.
  intros _. unfold sample_log2.
  change 0 with (inject_Z 0). rewrite <- Zlt_Qlt. lia.
Qed.

Lemma efficiency_is_guarded_and_total_witness :
  (forall x, 1 < x -> 0 < sample_log2 x)
  /\ 0 < 9 # 8 /\ 1 < 32 /\ sample_log2 32 = 5
  /\ Binary64.efficiency sample_log2 (9 # 8) 32
     = Some (F64.round (F64.div (9 # 8) (sample_log2 32)) 2)
  /\ F64.round (F64.div (9 # 8) (sample_log2 32)) 2 = F64.fl (23 # 100).
Proof.
  assert (Hs : 0 < 9 # 8) by reflexivity.
  assert (Ht : 1 < 32) by reflexivity.
  split; [exact sample_log2_pos |]. split; [exact Hs |]. split; [exact Ht |].
  split; [reflexivity |]. split.
  - exact (proj2 (proj2 (proj1 (efficiency_is_guarded_and_total sample_log2 sample_log2_pos)
                           (9 # 8) 32 Hs Ht))).
  - vm_compute. reflexivity.
Defined.

(** C8 as stated fails: with an average judge score of 1 and 8 output
    tokens on average, the logarithm is 3, the quotient
    [avg_judge / log2(avg_output_tokens)] is the float next to 1/3, and
    the efficiency is the float 0.33. *)
Lemma efficiency_is_not_the_plain_quotient :
  Qpower 2 3 == 8
  /\ sample_log2 8 = 3
  /\ Binary64.efficiency sample_log2 1 8 = Some (F64.fl (33 # 100))
  /\ Binary64.efficiency sample_log2 1 8 <> Some (F64.div 1 (sample_log2 8))
  /\ ~ F64.fl (33 # 100) == 1 / sample_log2 8
  /\ Binary64.model_efficiency sample_log2 (one_run (judged_run 1)) ["P1"]
     = Some (F64.fl (33 # 100)).
Proof.
  split; [reflexivity |]. split; [reflexivity |].
  split; [vm_compute; reflexivity |]. split; [vm_compute; discriminate |].
  split; [vm_compute; discriminate |]. vm_compute; reflexivity.
Qed.

(** ** The float arithmetic, on examples *)

(** What the interpreter prints for [round(43 / 40, 2)],
    [round(0.35, 1)], [round(1.125 / 5.0, 2)], [round(2.675, 2)],
    [round(0.5 * ((4 - 1) / 4) + 0.5 * 0.9333, 4)] and
    [round(sum([0.8, 0.8001]) / 2, 4)]: 1.07, 0.3, 0.23, 2.67, 0.8417
    and 0.8001, where decimal arithmetic gives 1.08, 0.4, 0.22, 2.68,
    0.8416 and 0.8. *)
Lemma f64_round_examples :
  F64.round (F64.div 43 40) 2 = F64.fl (107 # 100)
  /\ F64.round (35 # 100) 1 = F64.fl (3 # 10)
  /\ F64.round (F64.div (9 # 8) 5) 2 = F64.fl (23 # 100)
  /\ F64.round (2675 # 1000) 2 = F64.fl (267 # 100)
  /\ F64.round (F64.add (F64.mul (1 # 2) (F64.div (F64.sub 4 1) 4))
                  (F64.mul (1 # 2) (9333 # 10000))) 4
     = F64.fl (8417 # 10000)
  /\ F64.round (F64.div (F64.sum_left [8 # 10; 8001 # 10000]) 2) 4
     = F64.fl (8001 # 10000)
  /\ py_round (43 # 40) 2 == 108 # 100
  /\ py_round (35 # 100) 1 == 4 # 10
  /\ py_round ((9 # 8) / 5) 2 == 22 # 100.
Proof.
  repeat (split; [vm_compute; reflexivity |]). vm_compute; reflexivity.
Qed.
